(** * app.py: crawler, structured-data extractor and redirect matcher

    A shallow embedding of the pure core of [app.py] (IdeaSoft -> ikas 301
    redirect generator), together with the properties stated about it.

    Conventions of the embedding.
    - A Python [str] is a list of Unicode code points ([pystr]).
    - [Optional[T]] is [option T]; Python truthiness of a string is
      non-emptiness.
    - A [float] result is denoted by the rational value of the decimal text
      it was read from (binary rounding is not modelled).
    - A [dict] is a [gmap], a [set] is a [gset].
    - The Unicode database ([str.lower], [str.upper], NFKD), [urllib.parse],
      the network and the HTML parser are libraries, not code of [app.py]:
      they are taken as records of functions ([Lib] and [Web]), and every
      general theorem holds for all of them. *)

From Stdlib Require Import ZArith QArith String Ascii List Lia Bool.
From stdpp Require Import base gmap list.
From Equations Require Import Equations.
From Equations.Prop Require Logic.
Import ListNotations.

Local Open Scope N_scope.
Local Set Warnings "-register-all".

(** ** Python strings *)

Definition pystr := list N.

(** An ASCII literal as a Python string. *)
Definition str (s : string) : pystr := map N_of_ascii (list_ascii_of_string s).

Definition truthy (s : pystr) : bool :=
  match s with [] => false | _ => true end.

(** [a or b] on strings. *)
Definition str_or (a b : pystr) : pystr := if truthy a then a else b.

(** [o or ""] on an optional string. *)
Definition opt_or_empty (o : option pystr) : pystr :=
  match o with Some s => s | None => [] end.

Definition in_range (lo hi c : N) : bool := (lo <=? c) && (c <=? hi).

Definition is_digit (c : N) : bool := in_range 48 57 c.
Definition is_lower_az (c : N) : bool := in_range 97 122 c.
Definition is_upper_AZ (c : N) : bool := in_range 65 90 c.

(** [str.isspace] of one code point, which is also the class [\s] of [re]
    on [str] patterns. *)
Definition py_isspace (c : N) : bool :=
  in_range 9 13 c || in_range 28 32 c || (c =? 133) || (c =? 160)
  || (c =? 5760) || in_range 8192 8202 c || (c =? 8232) || (c =? 8233)
  || (c =? 8239) || (c =? 8287) || (c =? 12288).

Fixpoint lstrip_by (p : N -> bool) (s : pystr) : pystr :=
  match s with
  | [] => []
  | c :: r => if p c then lstrip_by p r else s
  end.

Definition rstrip_by (p : N -> bool) (s : pystr) : pystr :=
  rev (lstrip_by p (rev s)).

Definition strip_by (p : N -> bool) (s : pystr) : pystr :=
  rstrip_by p (lstrip_by p s).

(** [s.strip()] *)
Definition py_strip (s : pystr) : pystr := strip_by py_isspace s.

(** [s.strip(ch)] for a one-character argument *)
Definition py_strip_char (ch : N) (s : pystr) : pystr := strip_by (N.eqb ch) s.

(** [s.rstrip(ch)] *)
Definition py_rstrip_char (ch : N) (s : pystr) : pystr := rstrip_by (N.eqb ch) s.

Fixpoint startswith (pre s : pystr) : bool :=
  match pre, s with
  | [], _ => true
  | _ :: _, [] => false
  | a :: pre', b :: s' => (a =? b) && startswith pre' s'
  end.

(** [pat in s] *)
Fixpoint contains (pat s : pystr) : bool :=
  startswith pat s ||
  match s with
  | [] => false
  | _ :: r => contains pat r
  end.

Definition has_char (ch : N) (s : pystr) : bool := existsb (N.eqb ch) s.

(** [s.count(ch)] *)
Definition count_char (ch : N) (s : pystr) : nat :=
  length (List.filter (fun c => N.eqb ch c) s).

(** [s.replace(ch, "")] *)
Definition remove_char (ch : N) (s : pystr) : pystr :=
  List.filter (fun c => negb (N.eqb ch c)) s.

(** [s.replace(a, b)] for one-character [a] and [b] *)
Definition replace_char (a b : N) (s : pystr) : pystr :=
  map (fun c => if N.eqb a c then b else c) s.

(** [s.split(ch)]: never empty, one more field than separators. *)
Fixpoint split_char (ch : N) (s : pystr) : list pystr :=
  match s with
  | [] => [[]]
  | c :: r =>
      if N.eqb ch c then [] :: split_char ch r
      else match split_char ch r with
           | [] => [[c]]
           | f :: fs => (c :: f) :: fs
           end
  end.

(** [xs[-1]] of a list of strings that is known not to be empty ([split]
    never returns an empty list). *)
Definition last_field (xs : list pystr) : pystr := List.last xs [].

Definition comma : N := 44.
Definition dot : N := 46.
Definition hyphen : N := 45.
Definition slash : N := 47.
Definition semicolon : N := 59.

(** ** Price parsing *)

(** [PRICE_CLEAN_RE.sub("", t)] with [PRICE_CLEAN_RE = [^0-9,.\-]]. *)
Definition price_char (c : N) : bool :=
  is_digit c || (c =? comma) || (c =? dot) || (c =? hyphen).

Definition PRICE_CLEAN (t : pystr) : pystr := List.filter price_char t.

Fixpoint digits_value (acc : Z) (ds : pystr) : Z :=
  match ds with
  | [] => acc
  | d :: r => digits_value (10 * acc + (Z.of_N d - 48))%Z r
  end.

Fixpoint span_digits (s : pystr) : pystr * pystr :=
  match s with
  | [] => ([], [])
  | c :: r => if is_digit c then let '(a, b) := span_digits r in (c :: a, b)
              else ([], s)
  end.

Definition decimal (neg : bool) (ip fp : pystr) : Q :=
  let m := digits_value 0 (ip ++ fp) in
  Qred ((if neg then - m else m)%Z # Pos.of_nat (10 ^ length fp)).

(** [float(t)] on the alphabet that survives [PRICE_CLEAN]: digits, dot and
    minus.  [None] is [ValueError].  The text must be an optional minus, then
    digits with at most one dot and a digit on at least one side of it. *)
Definition py_float (t : pystr) : option Q :=
  let '(neg, body) :=
    match t with
    | c :: r => if c =? hyphen then (true, r) else (false, t)
    | [] => (false, t)
    end in
  let '(ip, rest) := span_digits body in
  match rest with
  | [] => if truthy ip then Some (decimal neg ip []) else None
  | c :: fp =>
      if (c =? dot) && forallb is_digit fp && (truthy ip || truthy fp)
      then Some (decimal neg ip fp) else None
  end.

Definition clean_price_to_number (text : option pystr) : option Q :=
  match text with
  | None => None
  | Some text =>
      if negb (truthy text) then None else
      let t := py_strip text in
      if negb (truthy t) then None else
      let t := PRICE_CLEAN t in
      let t :=
        if has_char comma t && has_char dot t then
          replace_char comma dot (remove_char dot t)
        else if has_char comma t && (count_char comma t =? 1)%nat
                && (let n := length (last_field (split_char comma t)) in
                    (n =? 1)%nat || (n =? 2)%nat) then
          replace_char comma dot t
        else
          remove_char comma t in
      py_float t
  end.

(** ** JSON values, as [json.loads] returns them *)

Inductive json :=
| JNull                                   (* None *)
| JBool (b : bool)
| JNum (q : Q)
| JStr (s : pystr)
| JList (l : list json)
| JDict (d : list (pystr * json)).       (* one entry per key *)

Definition pydict := list (pystr * json).

Definition str_eqb (a b : pystr) : bool := bool_decide (a = b).

Fixpoint dict_lookup (k : pystr) (d : pydict) : option json :=
  match d with
  | [] => None
  | (k', v) :: r => if str_eqb k k' then Some v else dict_lookup k r
  end.

(** [d.get(k)]: a missing key and a [null] value both give [None]. *)
Definition dict_get (k : pystr) (d : pydict) : json :=
  match dict_lookup k d with Some v => v | None => JNull end.

(** [d.get(k, default)] *)
Definition dict_get_default (k : pystr) (default : json) (d : pydict) : json :=
  match dict_lookup k d with Some v => v | None => default end.

(** Python truth value. *)
Definition json_truthy (j : json) : bool :=
  match j with
  | JNull => false
  | JBool b => b
  | JNum q => negb (Qeq_bool q 0)
  | JStr s => truthy s
  | JList l => match l with [] => false | _ => true end
  | JDict d => match d with [] => false | _ => true end
  end.

(** [a or b] *)
Definition json_or (a b : json) : json := if json_truthy a then a else b.

(** ** The parsed document

    A [BeautifulSoup] object, as the answers to the queries [app.py] asks of
    it. *)

Record Soup := {
  (* soup.find("meta", property="og:type", content=<contains "product">) *)
  og_type_product : bool;
  (* soup.find("meta", property="og:type", content=<contains "article" or "blog">) *)
  og_type_article : bool;
  (* soup.find("div", class_=/product/i) or soup.find(id=/product/i) *)
  product_container : bool;
  (* soup.find("nav", class_=/breadcrumb/i) *)
  breadcrumb_nav : bool;
  (* soup.title.string when soup.title exists *)
  title_string : option pystr;
  (* the content attribute of meta[property=og:title] *)
  og_title_content : option pystr;
  (* soup.find("h1").get_text(" ", strip=True) *)
  h1_text : option pystr;
  (* the href of every a[href], in document order *)
  anchors : list pystr;
  (* for each "next" selector that selects an element, in selector order, the
     element's href and content attributes *)
  next_elements : list (option pystr * option pystr);
  (* script.string or script.text or "" of every ld+json script *)
  ld_json_scripts : list pystr;
  (* find_sku(soup) *)
  find_sku : option pystr;
  (* find_barcode(soup, None) *)
  find_barcode : option pystr;
}.

(** ** Libraries

    What [app.py] calls of the Unicode database, [urllib.parse], [bs4] and
    [json].  An [option] result is [None] where the library raises; these are
    the calls that [app.py] makes inside a [try].  [urlparse(u).path] and
    [BeautifulSoup(html, "html.parser")] are also called outside any [try]:
    [url_path] and [BeautifulSoup] are what the call returns when it returns,
    and [urlparse_raises] and [BeautifulSoup_raises] tell when it does not
    ([ValueError] on a URL whose host part is malformed, and
    [ParserRejectedMarkup] on markup that [html.parser] gives up on). *)

Record Lib := {
  str_lower : pystr -> pystr;                 (* str.lower *)
  str_upper : pystr -> pystr;                 (* str.upper *)
  str_title : pystr -> pystr;                 (* str.title *)
  nfkd : pystr -> pystr;                      (* unicodedata.normalize("NFKD", _) *)
  urljoin : pystr -> pystr -> option pystr;   (* urljoin(base, url) *)
  url_netloc : pystr -> option pystr;         (* urlparse(u).netloc *)
  url_path : pystr -> pystr;                  (* urlparse(u).path *)
  (* urlunparse((p.scheme, p.netloc, p.path, "", "", "")) with p = urlparse(u) *)
  url_clean : pystr -> option pystr;
  urlparse_raises : pystr -> bool;            (* urlparse(u) raises *)
  BeautifulSoup : pystr -> Soup;              (* BeautifulSoup(html, "html.parser") *)
  BeautifulSoup_raises : pystr -> bool;       (* BeautifulSoup(html, "html.parser") raises *)
  json_loads : pystr -> option json;          (* json.loads *)
  py_repr : json -> pystr;                    (* str(x) of a value that is no str *)
}.

(** [str(x)] *)
Definition py_str (L : Lib) (j : json) : pystr :=
  match j with JStr s => s | _ => py_repr L j end.

(** ** Slugs *)

(** [value.encode("ascii", "ignore").decode("ascii")] *)
Definition ascii_ignore (s : pystr) : pystr := List.filter (fun c => c <? 128) s.

Definition is_slug_alnum (c : N) : bool := is_lower_az c || is_digit c.

(** [re.sub(r"[^a-z0-9]+", "-", s)]; [in_run] tells that the previous
    character already belonged to the run being replaced. *)
Fixpoint sub_non_alnum (in_run : bool) (s : pystr) : pystr :=
  match s with
  | [] => []
  | c :: r =>
      if is_slug_alnum c then c :: sub_non_alnum false r
      else if in_run then sub_non_alnum true r
      else hyphen :: sub_non_alnum true r
  end.

(** [re.sub(r"-{2,}", "-", s)] *)
Fixpoint sub_hyphen_runs (in_run : bool) (s : pystr) : pystr :=
  match s with
  | [] => []
  | c :: r =>
      if c =? hyphen then
        if in_run then sub_hyphen_runs true r
        else hyphen :: sub_hyphen_runs true r
      else c :: sub_hyphen_runs false r
  end.

Definition slugify (L : Lib) (value : pystr) : pystr :=
  if negb (truthy value) then [] else
  let value := nfkd L value in
  let value := ascii_ignore value in
  let value := str_lower L value in
  let value := sub_non_alnum false value in
  let value := py_strip_char hyphen value in
  let value := sub_hyphen_runs false value in
  value.

(** ** URL classification *)

Definition _absolute_url (L : Lib) (base_url maybe_url : pystr) : pystr :=
  match urljoin L base_url maybe_url with
  | Some u => u
  | None => maybe_url
  end.

Definition _same_domain (L : Lib) (url_a url_b : pystr) : bool :=
  match url_netloc L url_a, url_netloc L url_b with
  | Some pa, Some pb => str_eqb pa pb
  | _, _ => false
  end.

Definition exclude_patterns : list pystr :=
  map str
    [ "/checkout"; "/cart"; "/sepet"; "/login"; "/giris"; "/register";
      "/uye-ol"; "/logout"; "/cikis"; "/search"; "/ara"; "/filter";
      "/compare"; "/karsilastir"; "/wishlist"; "/favori"; "/profile";
      "/profil"; "/account"; "/hesap"; "/payment"; "/odeme"; "/api/";
      "/ajax/"; "/ajax"; "/json/"; ".json"; ".xml"; ".rss"; "#";
      "?print="; "?export=" ]%string.

Definition _should_exclude_url (L : Lib) (href : pystr) : bool :=
  if negb (truthy href) then true else
  let href_l := str_lower L href in
  existsb (fun pattern => contains pattern href_l) exclude_patterns.

Definition product_patterns : list pystr :=
  map str ["/urun-"; "/urun/"; "/product/"; "/p-"; "/p/"; "/detay-"; "/detail/"]%string.
Definition blog_patterns : list pystr :=
  map str ["/blog"; "/haber"; "/news"; "/article"]%string.
Definition category_patterns : list pystr :=
  map str ["/kategori"; "/category"; "/katalog"; "/catalog"]%string.

Definition any_in (patterns : list pystr) (s : pystr) : bool :=
  existsb (fun p => contains p s) patterns.

(** A [BeautifulSoup] object is always true, so [if soup:] is taken.  This is
    the value returned when [urlparse] at line 139 returns; the exception is
    in [_determine_page_type_call] below. *)
Definition _determine_page_type (L : Lib) (url : pystr) (soup : Soup) : pystr :=
  let url_l := str_lower L url in
  let path := url_path L url_l in
  if any_in product_patterns path then str "product"
  else if any_in blog_patterns path then str "blog"
  else if any_in category_patterns path then str "category"
  else if og_type_product soup then str "product"
  else if og_type_article soup then str "blog"
  else if product_container soup then str "product"
  else if breadcrumb_nav soup && contains (str "/urun") path then str "product"
  else str "page".

Definition _normalize_sku (L : Lib) (value : option pystr) : pystr :=
  match value with
  | None => []
  | Some value =>
      if negb (truthy value) then [] else
      let v := py_strip value in
      let v := List.filter (fun c => negb (py_isspace c)) v in
      str_upper L v
  end.

(** [[^a-z0-9çğıöşü\s]] *)
Definition title_char (c : N) : bool :=
  is_lower_az c || is_digit c || (c =? 231) || (c =? 287) || (c =? 305)
  || (c =? 246) || (c =? 351) || (c =? 252) || py_isspace c.

(** [re.sub(r"\s+", " ", v)] *)
Fixpoint sub_space_runs (in_run : bool) (s : pystr) : pystr :=
  match s with
  | [] => []
  | c :: r =>
      if py_isspace c then
        if in_run then sub_space_runs true r
        else 32 :: sub_space_runs true r
      else c :: sub_space_runs false r
  end.

Definition _normalize_title (L : Lib) (value : option pystr) : pystr :=
  match value with
  | None => []
  | Some value =>
      if negb (truthy value) then [] else
      let v := str_lower L value in
      let v := map (fun c => if title_char c then c else 32) v in
      py_strip (sub_space_runs false v)
  end.

(** ** Structured-data extraction *)

Record JsonLdProduct := {
  ld_name : option pystr;
  ld_sku : option pystr;
  ld_description_html : option pystr;
  ld_price : option Q;
  ld_currency : option pystr;
  ld_image : option pystr;
  ld_images : option (list pystr);
  ld_brand : option pystr;
  ld_barcode : option pystr;
  ld_category_path : option pystr;
}.

(** [JsonLdProduct()] *)
Definition JsonLdProduct_default : JsonLdProduct :=
  {| ld_name := None; ld_sku := None; ld_description_html := None;
     ld_price := None; ld_currency := None; ld_image := None;
     ld_images := None; ld_brand := None; ld_barcode := None;
     ld_category_path := None |}.

(** [[d for d in data if isinstance(d, dict)]] *)
Fixpoint dicts_of (data : list json) : list pydict :=
  match data with
  | [] => []
  | JDict d :: r => d :: dicts_of r
  | _ :: r => dicts_of r
  end.

(** The body of the first loop for one script: what it adds to
    [candidates].  A blank script and a [json.loads] that raises add
    nothing. *)
Definition script_candidates (L : Lib) (raw : pystr) : list pydict :=
  if negb (truthy (py_strip raw)) then [] else
  match json_loads L raw with
  | None => []
  | Some (JDict d) => [d]
  | Some (JList data) => dicts_of data
  | Some _ => []
  end.

Definition collect_candidates (L : Lib) (soup : Soup) : list pydict :=
  flat_map (script_candidates L) (ld_json_scripts soup).

Definition is_product_text (L : Lib) (s : pystr) : bool :=
  str_eqb (str_lower L s) (str "product").

(** The test on the [@type] of a top-level candidate: a list with an element
    whose [str] is "product" in lower case, or such a string. *)
Definition type_is_product (L : Lib) (t : json) : bool :=
  match t with
  | JList l => existsb (fun i => is_product_text L (py_str L i)) l
  | JStr s => is_product_text L s
  | _ => false
  end.

(** The inner loop over [node["@graph"]]: the first sub-node that is a dict
    whose [str(sub.get("@type", ""))] is "product" in lower case. *)
Fixpoint graph_product (L : Lib) (graph : list json) : option pydict :=
  match graph with
  | [] => None
  | JDict sub :: r =>
      if is_product_text L (py_str L (dict_get_default (str "@type") (JStr []) sub))
      then Some sub
      else graph_product L r
  | _ :: r => graph_product L r
  end.

(** The second loop, over the candidates that are left, with the current
    value of [product_node].  A match on the candidate's own type ends the
    loop; a match inside its [@graph] only ends the inner loop. *)
Fixpoint select_product_node (L : Lib) (product_node : option pydict)
    (candidates : list pydict) : option pydict :=
  match candidates with
  | [] => product_node
  | node :: rest =>
      let t := json_or (dict_get (str "@type") node) (dict_get (str "@type") node) in
      if type_is_product L t then Some node
      else
        match dict_lookup (str "@graph") node with
        | Some (JList graph) =>
            match graph_product L graph with
            | Some sub => select_product_node L (Some sub) rest
            | None => select_product_node L product_node rest
            end
        | _ => select_product_node L product_node rest
        end
  end.

Definition as_str (j : json) : option pystr :=
  match j with JStr s => Some s | _ => None end.

(** [[_absolute_url(base_url, str(u)) for u in image_val if isinstance(u, str)]] *)
Fixpoint image_urls_of (L : Lib) (base_url : pystr) (image_val : list json)
    : list pystr :=
  match image_val with
  | [] => []
  | JStr u :: r => _absolute_url L base_url u :: image_urls_of L base_url r
  | _ :: r => image_urls_of L base_url r
  end.

Definition product_of_node (L : Lib) (base_url : pystr) (product_node : pydict)
    : JsonLdProduct :=
  let get k := dict_get (str k) product_node in
  let name := get "name"%string in
  let sku := json_or (get "sku"%string) (get "mpn"%string) in
  let description := get "description"%string in
  let description :=
    match description with
    | JDict d =>
        match dict_lookup (str "text") d with
        | Some _ => dict_get (str "text") d
        | None => description
        end
    | _ => description
    end in
  let image_val := get "image"%string in
  let '(image_url, image_list) :=
    match image_val with
    | JList (i :: l) =>
        let image_list := image_urls_of L base_url (i :: l) in
        (List.head image_list, image_list)
    | JStr s =>
        let image_url := _absolute_url L base_url s in
        (Some image_url, [image_url])
    | _ => (None, [])
    end in
  let offers := get "offers"%string in
  let offers := match offers with JList (o :: _) => o | _ => offers end in
  let '(price_val, currency) :=
    match offers with
    | JDict o =>
        (json_or (json_or (dict_get (str "price") o) (dict_get (str "lowPrice") o))
                 (dict_get (str "highPrice") o),
         dict_get (str "priceCurrency") o)
    | _ => (JNull, JNull)
    end in
  let price_num :=
    match price_val with
    | JNull => None
    | _ => clean_price_to_number (Some (py_str L price_val))
    end in
  let brand_node := get "brand"%string in
  let brand_name :=
    match brand_node with
    | JDict b => dict_get (str "name") b
    | JStr _ => brand_node
    | _ => JNull
    end in
  let barcode :=
    json_or (json_or (json_or (json_or (get "gtin13"%string) (get "gtin14"%string))
                              (get "gtin12"%string))
                     (get "gtin8"%string))
            (get "isbn"%string) in
  let category_path := as_str (get "category"%string) in
  {| ld_name := as_str name;
     ld_sku := as_str sku;
     ld_description_html := as_str description;
     ld_price := price_num;
     ld_currency := as_str currency;
     ld_image := image_url;
     ld_images := match image_list with [] => None | _ => Some image_list end;
     ld_brand := as_str brand_name;
     ld_barcode := if json_truthy barcode then Some (py_str L barcode) else None;
     ld_category_path := category_path |}.

Definition parse_ld_json_product (L : Lib) (soup : Soup) (base_url : pystr)
    : JsonLdProduct :=
  let candidates := collect_candidates L soup in
  let product_node := select_product_node L None candidates in
  match product_node with
  | None => JsonLdProduct_default
  | Some [] => JsonLdProduct_default
  | Some node => product_of_node L base_url node
  end.

(** ** The crawler *)

(** The network. *)
Record Web := {
  (* fetch_html(url): the HTML text, None after the retries are used up *)
  fetch_html : pystr -> option pystr;
  (* the existence probe of base + target_path: "ok", "status_<code>" or "error" *)
  probe_ikas : pystr -> pystr;
}.

Definition opt_truthy (o : option pystr) : bool :=
  match o with Some s => truthy s | None => false end.

(** The loop over the anchors: [found] after the hrefs that are left. *)
Fixpoint discover_anchors (L : Lib) (base_url : pystr) (hrefs : list pystr)
    (found : gset pystr) : gset pystr :=
  match hrefs with
  | [] => found
  | href :: r =>
      if negb (truthy href) then discover_anchors L base_url r found else
      let abs_url := _absolute_url L base_url href in
      if _same_domain L base_url abs_url && negb (_should_exclude_url L abs_url) then
        match url_clean L abs_url with
        | Some clean_url =>
            if truthy clean_url && negb (str_eqb clean_url base_url)
            then discover_anchors L base_url r ({[clean_url]} ∪ found)
            else discover_anchors L base_url r found
        | None => discover_anchors L base_url r found
        end
      else discover_anchors L base_url r found
  end.

(** The loop over the "next" selectors. *)
Fixpoint discover_next (L : Lib) (base_url : pystr)
    (els : list (option pystr * option pystr)) : option pystr :=
  match els with
  | [] => None
  | (href, content) :: r =>
      let candidate := if opt_truthy href then href else content in
      if opt_truthy candidate
      then Some (_absolute_url L base_url (opt_or_empty candidate))
      else discover_next L base_url r
  end.

Definition _discover_all_links_from_page (L : Lib) (base_url html_str : pystr)
    : gset pystr * option pystr :=
  let soup := BeautifulSoup L html_str in
  let found := discover_anchors L base_url (anchors soup) ∅ in
  let next_link := discover_next L base_url (next_elements soup) in
  (found, next_link).

Record CrawlPage := {
  page_url : pystr;
  page_title : pystr;
  page_slug : pystr;
  page_type : pystr;
}.

(** The variables of the loop of [find_all_page_links], and the list of the
    URLs handed to [fetch_html] so far. *)
Record CrawlState := {
  to_visit : list pystr;
  visited : gset pystr;
  all_pages : list CrawlPage;
  pages : Z;
  fetch_log : list pystr;
}.

Definition in_list (u : pystr) (l : list pystr) : bool := bool_decide (u ∈ l).
Definition in_set (u : pystr) (s : gset pystr) : bool := bool_decide (u ∈ s).

(** The title of a crawled page; an absent title is the empty string. *)
Definition crawl_title (L : Lib) (current : pystr) (soup : Soup) : pystr :=
  let title :=
    match title_string soup with
    | Some s => if truthy s then py_strip s else []
    | None => []
    end in
  let title :=
    if negb (truthy title) then
      match og_title_content soup with
      | Some c => if truthy c then py_strip c else title
      | None => title
      end
    else title in
  let title :=
    if negb (truthy title) then
      match h1_text soup with
      | Some t => t
      | None => title
      end
    else title in
  if negb (truthy title) then
    str_title L
      (replace_char hyphen 32
         (last_field (split_char slash (py_strip_char slash (url_path L current)))))
  else title.

Definition loop_guard (max_pages : Z) (st : CrawlState) : bool :=
  match to_visit st with [] => false | _ => true end && (pages st <? max_pages)%Z.

(** One iteration of the [while] loop, when none of its calls raises; the
    exceptions are in [loop_body_call] below. *)
Definition loop_body (L : Lib) (W : Web) (start_url start_html : pystr)
    (st : CrawlState) : CrawlState :=
  match to_visit st with
  | [] => st
  | current :: rest =>
      if in_set current (visited st) || _should_exclude_url L current then
        {| to_visit := rest; visited := visited st; all_pages := all_pages st;
           pages := pages st; fetch_log := fetch_log st |}
      else
        let visited' := {[current]} ∪ visited st in
        let pages' := (pages st + 1)%Z in
        let from_start := str_eqb current start_url in
        let html_str := if from_start then Some start_html else fetch_html W current in
        let log' := if from_start then fetch_log st else fetch_log st ++ [current] in
        if negb (opt_truthy html_str) then
          {| to_visit := rest; visited := visited'; all_pages := all_pages st;
             pages := pages'; fetch_log := log' |}
        else
          let html_str := opt_or_empty html_str in
          let soup := BeautifulSoup L html_str in
          let type := _determine_page_type L current soup in
          let title := crawl_title L current soup in
          let path := py_strip_char slash (url_path L current) in
          let url_slug := if truthy path then last_field (split_char slash path) else [] in
          let slug := if truthy title then slugify L title else url_slug in
          let page := {| page_url := current; page_title := title;
                         page_slug := slug; page_type := type |} in
          let '(found_here, next_link) :=
            _discover_all_links_from_page L current html_str in
          let new_links :=
            List.filter (fun u => negb (in_set u visited') && negb (in_list u rest))
                   (elements found_here) in
          let queue := rest ++ new_links in
          let queue :=
            match next_link with
            | Some n =>
                if truthy n && negb (in_set n visited') && negb (in_list n queue)
                then queue ++ [n] else queue
            | None => queue
            end in
          {| to_visit := queue; visited := visited';
             all_pages := all_pages st ++ [page];
             pages := pages'; fetch_log := log' |}
  end.

Definition crawl_measure (max_pages : Z) (st : CrawlState) : nat * nat :=
  (Z.to_nat (max_pages - pages st), length (to_visit st)).

Lemma loop_body_decreases L W start_url start_html max_pages st :
  loop_guard max_pages st = true ->
  Subterm.lexprod nat nat lt lt
    (crawl_measure max_pages (loop_body L W start_url start_html st))
                (crawl_measure max_pages st).
Proof.
  unfold loop_guard, loop_body, crawl_measure.
  destruct (to_visit st) as [|current rest]; [discriminate|].
  intros Hg. apply andb_true_iff in Hg as [_ Hlt]. apply Z.ltb_lt in Hlt.
  destruct (in_set current (visited st) || _should_exclude_url L current).
  - cbn. apply Subterm.right_lex. lia.
  - destruct (negb (opt_truthy _)).
    + cbn. apply Subterm.left_lex. lia.
    + destruct (_discover_all_links_from_page L current _) as [found_here next_link].
      cbn. apply Subterm.left_lex. lia.
Qed.

Equations crawl_loop (L : Lib) (W : Web) (start_url start_html : pystr)
    (max_pages : Z) (st : CrawlState) : CrawlState
    by wf (crawl_measure max_pages st) (Subterm.lexprod nat nat lt lt) :=
  crawl_loop L W start_url start_html max_pages st with Logic.inspect (loop_guard max_pages st) := {
    | exist _ true Hg =>
        crawl_loop L W start_url start_html max_pages
          (loop_body L W start_url start_html st);
    | exist _ false _ => st }.
Next Obligation. intros. apply loop_body_decreases. assumption. Qed.

(** The state in which the loop ends; [None] when the start page cannot be
    fetched. *)
Definition crawl (L : Lib) (W : Web) (start_url : pystr) (max_pages : Z)
    : option CrawlState :=
  match fetch_html W start_url with
  | None => None
  | Some start_html =>
      if negb (truthy start_html) then None else
      Some (crawl_loop L W start_url start_html max_pages
              {| to_visit := [start_url]; visited := ∅; all_pages := [];
                 pages := 0; fetch_log := [start_url] |})
  end.

Definition find_all_page_links (L : Lib) (W : Web) (start_url : pystr)
    (max_pages : Z) : list CrawlPage :=
  match crawl L W start_url max_pages with
  | None => []
  | Some st => all_pages st
  end.

(** ** Exceptions in the crawl

    [loop_body], [crawl_loop] and [find_all_page_links] above follow an
    iteration in which no library call raises.  Inside the loop
    [BeautifulSoup] (line 671, and again on the same text at line 610) and
    [urlparse] (line 139 on the lowered URL, lines 687 and 690 on the URL) are
    called outside any [try]: an exception there leaves
    [find_all_page_links], whose caller reports it and stops (lines 746-751).
    The definitions below keep track of it. *)

(** The end of a call: an exception, or a value. *)
Inductive Call (A : Type) : Type :=
| Raises : Call A
| Returns : A -> Call A.
Arguments Raises {A}.
Arguments Returns {A} _.

(** [_determine_page_type(url, soup)]: line 139 is the one call that can
    raise. *)
Definition _determine_page_type_call (L : Lib) (url : pystr) (soup : Soup)
    : Call pystr :=
  if urlparse_raises L (str_lower L url) then Raises
  else Returns (_determine_page_type L url soup).

(** The HTML that an iteration has for [current] (line 667). *)
Definition crawl_html (W : Web) (start_url start_html current : pystr)
    : option pystr :=
  if str_eqb current start_url then Some start_html else fetch_html W current.

(** Whether the iteration that starts in [st] raises: it does when it comes
    to parse a page (the URL is new, not excluded, and its HTML was fetched)
    and the HTML parser rejects the page or [urlparse] rejects the URL. *)
Definition iteration_raises (L : Lib) (W : Web) (start_url start_html : pystr)
    (st : CrawlState) : bool :=
  match to_visit st with
  | [] => false
  | current :: _ =>
      if in_set current (visited st) || _should_exclude_url L current then false
      else
        let html_str := crawl_html W start_url start_html current in
        if negb (opt_truthy html_str) then false
        else
          BeautifulSoup_raises L (opt_or_empty html_str)      (* line 671 *)
          || urlparse_raises L (str_lower L current)          (* line 139 *)
          || urlparse_raises L current                        (* lines 687, 690 *)
  end.

(** One iteration of the [while] loop, with its exceptions. *)
Definition loop_body_call (L : Lib) (W : Web) (start_url start_html : pystr)
    (st : CrawlState) : Call CrawlState :=
  if iteration_raises L W start_url start_html st then Raises
  else Returns (loop_body L W start_url start_html st).

Equations crawl_loop_call (L : Lib) (W : Web) (start_url start_html : pystr)
    (max_pages : Z) (st : CrawlState) : Call CrawlState
    by wf (crawl_measure max_pages st) (Subterm.lexprod nat nat lt lt) :=
  crawl_loop_call L W start_url start_html max_pages st
    with Logic.inspect (loop_guard max_pages st) := {
    | exist _ true Hg
        with Logic.inspect (iteration_raises L W start_url start_html st) := {
        | exist _ true _ => Raises;
        | exist _ false _ =>
            crawl_loop_call L W start_url start_html max_pages
              (loop_body L W start_url start_html st) };
    | exist _ false _ => Returns st }.
Next Obligation. intros. apply loop_body_decreases. assumption. Qed.

(** The state in which the loop ends, [None] when the start page cannot be
    fetched; or the exception. *)
Definition crawl_call (L : Lib) (W : Web) (start_url : pystr) (max_pages : Z)
    : Call (option CrawlState) :=
  match fetch_html W start_url with
  | None => Returns None
  | Some start_html =>
      if negb (truthy start_html) then Returns None else
      match crawl_loop_call L W start_url start_html max_pages
              {| to_visit := [start_url]; visited := ∅; all_pages := [];
                 pages := 0; fetch_log := [start_url] |} with
      | Raises => Raises
      | Returns st => Returns (Some st)
      end
  end.

(** [find_all_page_links(start_url, max_pages)]: the list it returns, or the
    exception that ends it. *)
Definition find_all_page_links_call (L : Lib) (W : Web) (start_url : pystr)
    (max_pages : Z) : Call (list CrawlPage) :=
  match crawl_call L W start_url max_pages with
  | Raises => Raises
  | Returns None => Returns []
  | Returns (Some st) => Returns (all_pages st)
  end.

(** The record that lines 671-699 make of a URL and its HTML. *)
Definition page_record (L : Lib) (current html_str : pystr) : CrawlPage :=
  let soup := BeautifulSoup L html_str in
  let title := crawl_title L current soup in
  let path := py_strip_char slash (url_path L current) in
  let url_slug := if truthy path then last_field (split_char slash path) else [] in
  {| page_url := current; page_title := title;
     page_slug := if truthy title then slugify L title else url_slug;
     page_type := _determine_page_type L current soup |}.

(** What a visit of [current] adds to [all_pages]: its record when the fetch
    gave a page, nothing otherwise. *)
Definition visit_record (L : Lib) (W : Web) (start_url start_html current : pystr)
    : option CrawlPage :=
  match crawl_html W start_url start_html current with
  | Some html_str =>
      if truthy html_str then Some (page_record L current html_str) else None
  | None => None
  end.

(** ** The destination index *)

(** One row of the ikas product export after [fillna("")]; a column the file
    does not have reads as the empty string. *)
Record IkasRow := {
  row_slug : pystr;             (* "Slug" *)
  row_sku : pystr;              (* "SKU" *)
  row_barkod_listesi : pystr;   (* "Barkod Listesi" *)
  row_isim : pystr;             (* "İsim" *)
}.

Record DestinationIndex := {
  sku_to_slug : gmap pystr pystr;
  barcode_to_slug : gmap pystr pystr;
  slug_set : gset pystr;
  title_to_slug : list (pystr * pystr);
}.

Definition empty_index : DestinationIndex :=
  {| sku_to_slug := ∅; barcode_to_slug := ∅; slug_set := ∅; title_to_slug := [] |}.

(** The loop over the barcodes of one row. *)
Fixpoint index_barcodes (L : Lib) (slug : pystr) (bs : list pystr)
    (m : gmap pystr pystr) : gmap pystr pystr :=
  match bs with
  | [] => m
  | b :: r =>
      let b_n := _normalize_sku L (Some b) in
      if truthy b_n then index_barcodes L slug r (<[b_n := slug]> m)
      else index_barcodes L slug r m
  end.

(** The body of the loop over the rows of the export. *)
Definition index_row (L : Lib) (idx : DestinationIndex) (r : IkasRow)
    : DestinationIndex :=
  let slug := py_strip (row_slug r) in
  let slugs := {[slug]} ∪ slug_set idx in
  let sku_n := _normalize_sku L (Some (row_sku r)) in
  let skus := if truthy sku_n then <[sku_n := slug]> (sku_to_slug idx)
              else sku_to_slug idx in
  let bar_list := py_strip (row_barkod_listesi r) in
  let barcodes :=
    if truthy bar_list
    then index_barcodes L slug (split_char semicolon bar_list) (barcode_to_slug idx)
    else barcode_to_slug idx in
  let title_norm := _normalize_title L (Some (row_isim r)) in
  let titles := if truthy title_norm
                then title_to_slug idx ++ [(title_norm, slug)]
                else title_to_slug idx in
  {| sku_to_slug := skus; barcode_to_slug := barcodes; slug_set := slugs;
     title_to_slug := titles |}.

(** The indexes built from the optional export. *)
Definition build_index (L : Lib) (ikas_csv : option (list IkasRow))
    : DestinationIndex :=
  match ikas_csv with
  | None => empty_index
  | Some rows => fold_left (index_row L) rows empty_index
  end.

(** ** The redirect mapping *)

Record RedirectRow := {
  r_from_url : pystr;
  r_to_url : pystr;
  r_from_slug : pystr;
  r_to_slug : pystr;
  r_title : pystr;
  r_sku : pystr;
  r_type : pystr;
}.

Record Diagnostic := {
  d_from_url : pystr;
  d_to_url : pystr;
  d_type : pystr;
  d_reason : pystr;
  d_confidence : Q;
  d_exists_on_ikas : pystr;
}.

(** Rounding to the nearest integer, ties to even. *)
Definition round_half_even (q : Q) : Z :=
  let n := Qnum q in
  let d := Z.pos (Qden q) in
  let f := (n / d)%Z in
  let r2 := (2 * (n mod d))%Z in
  if (r2 <? d)%Z then f
  else if (d <? r2)%Z then (f + 1)%Z
  else if Z.even f then f else (f + 1)%Z.

(** [round(x, 3)] *)
Definition py_round3 (q : Q) : Q := Qred (round_half_even (q * 1000) # 1000).

(** The SKU and the barcode read from a fresh fetch of a product page; both
    stay empty when the fetch fails.  The [try] of lines 809-816 also covers
    the parser; on a page of a crawl the parser accepted the text of the
    page before. *)
Definition fetch_sku_barcode (L : Lib) (W : Web) (old_url : pystr)
    : pystr * pystr :=
  match fetch_html W old_url with
  | Some html_str =>
      if truthy html_str then
        let soup := BeautifulSoup L html_str in
        (_normalize_sku L (Some (opt_or_empty (find_sku soup))),
         _normalize_sku L (Some (opt_or_empty (find_barcode soup))))
      else ([], [])
  | None => ([], [])
  end.

(** The exact matches of a product page: target path, confidence, reason. *)
Definition match_product (idx : DestinationIndex) (sku barcode : pystr)
    : pystr * Q * pystr :=
  match (if truthy sku then sku_to_slug idx !! sku else None) with
  | Some slug => (str "/urun/" ++ slug, 1%Q, str "sku")
  | None =>
      match (if truthy barcode then barcode_to_slug idx !! barcode else None) with
      | Some slug => (str "/urun/" ++ slug, 0.98%Q, str "barcode")
      | None => ([], 0%Q, str "unmatched")
      end
  end.

(** The body of the loop over the crawled pages.  The URL of a crawled page
    passed [urlparse] in the crawl (line 690), so the call of line 865
    returns. *)
Definition redirect_page (L : Lib) (W : Web) (ikas_site_url : pystr)
    (idx : DestinationIndex) (page : CrawlPage) : RedirectRow * Diagnostic :=
  let old_url := page_url page in
  let type := page_type page in
  let title := page_title page in
  let slug := page_slug page in
  let '(sku, target_path, confidence, reason) :=
    if str_eqb type (str "product") then
      let '(sku, barcode) := fetch_sku_barcode L W old_url in
      let '(target_path, confidence, reason) := match_product idx sku barcode in
      (sku, target_path, confidence, reason)
    else if str_eqb type (str "category") then
      ([], str "/" ++ slug, 0%Q, str "category")
    else if str_eqb type (str "blog") then
      ([], str "/blog/" ++ slug, 0%Q, str "blog")
    else if str_eqb type (str "page") then
      ([], str "/pages/" ++ slug, 0%Q, str "page")
    else
      ([], [], 0%Q, str "non_product") in
  let existence :=
    if truthy ikas_site_url
    then probe_ikas W (py_rstrip_char slash ikas_site_url ++ target_path)
    else str "unknown" in
  let from_path := url_path L old_url in
  let from_path := if startswith (str "/") from_path then from_path
                   else str "/" ++ from_path in
  let from_slug :=
    if truthy from_path
    then last_field (split_char slash (py_strip_char slash from_path)) else [] in
  let to_path := if truthy target_path then url_path L target_path else [] in
  let to_path := if startswith (str "/") to_path then to_path
                 else if truthy to_path then str "/" ++ to_path else [] in
  let to_slug :=
    if truthy to_path
    then last_field (split_char slash (py_strip_char slash to_path)) else [] in
  ({| r_from_url := old_url; r_to_url := target_path; r_from_slug := from_slug;
      r_to_slug := to_slug; r_title := title; r_sku := sku; r_type := type |},
   {| d_from_url := old_url; d_to_url := target_path; d_type := type;
      d_reason := reason; d_confidence := py_round3 confidence;
      d_exists_on_ikas := existence |}).

Definition redirects_rows (L : Lib) (W : Web) (ikas_site_url : pystr)
    (idx : DestinationIndex) (pages : list CrawlPage) : list RedirectRow :=
  map (fun page => fst (redirect_page L W ikas_site_url idx page)) pages.

Definition diagnostics (L : Lib) (W : Web) (ikas_site_url : pystr)
    (idx : DestinationIndex) (pages : list CrawlPage) : list Diagnostic :=
  map (fun page => snd (redirect_page L W ikas_site_url idx page)) pages.

(** ** The redirect file *)

Record Ikas301Row := {
  ID : pystr;
  Kaynak_Adres : pystr;
  Yonlendirilecek_Adres : pystr;
  Gecici_Yonlendirme_302 : pystr;
  Silindi_mi : pystr;
}.

(** One entry of [kaynak_list]. *)
Definition kaynak (L : Lib) (v p : pystr) : pystr :=
  let path := if truthy p then url_path L p else [] in
  if truthy path then
    if startswith (str "/") path then path else str "/" ++ path
  else
    let s := v in
    if truthy s && negb (startswith (str "/") s) then str "/" ++ s else s.

(** One entry of [yon_list]. *)
Definition yon (v : pystr) : pystr :=
  let s := v in
  if truthy s && negb (startswith (str "/") s) then str "/" ++ s else s.

(** The frame [ikas301], row by row. *)
Definition ikas301 (L : Lib) (redirects : list RedirectRow) : list Ikas301Row :=
  map (fun r =>
         {| ID := [];
            Kaynak_Adres := kaynak L (r_from_slug r) (r_from_url r);
            Yonlendirilecek_Adres := yon (r_to_slug r);
            Gecici_Yonlendirme_302 := str "false";
            Silindi_mi := str "false" |})
      redirects.

(** ** A concrete library, for examples

    [table_lib] answers [str.lower], [str.upper] and [str.title] on ASCII
    letters and leaves every other code point as it is; its NFKD knows the
    decompositions of the letters of the Turkish alphabet (the other code
    points of the examples, ASCII and U+0131, have none); its URL functions
    read [scheme://netloc/path?query#fragment] and join an absolute or a
    root-relative reference, and raise on a host part in which a square
    bracket has no partner; the HTML and JSON parsers are tables from the
    text to what the parser returns for it, and the HTML parser rejects a
    document that opens with the marked section [<![foo bar]>]. *)

Definition ascii_lower (s : pystr) : pystr :=
  map (fun c => if is_upper_AZ c then c + 32 else c) s.

Definition ascii_upper (s : pystr) : pystr :=
  map (fun c => if is_lower_az c then c - 32 else c) s.

Fixpoint ascii_title (in_word : bool) (s : pystr) : pystr :=
  match s with
  | [] => []
  | c :: r =>
      if is_upper_AZ c then (if in_word then c + 32 else c) :: ascii_title true r
      else if is_lower_az c then (if in_word then c else c - 32) :: ascii_title true r
      else c :: ascii_title false r
  end.

Definition nfkd_char (c : N) : pystr :=
  match c with
  | 199 => [67; 807]    (* C with cedilla *)
  | 231 => [99; 807]
  | 286 => [71; 774]    (* G with breve *)
  | 287 => [103; 774]
  | 304 => [73; 775]    (* I with dot above *)
  | 214 => [79; 776]    (* O with diaeresis *)
  | 246 => [111; 776]
  | 350 => [83; 807]    (* S with cedilla *)
  | 351 => [115; 807]
  | 220 => [85; 776]    (* U with diaeresis *)
  | 252 => [117; 776]
  | _ => [c]
  end.

Definition nfkd_turkish (s : pystr) : pystr := flat_map nfkd_char s.

(** [s] up to the first character that satisfies [p], and the rest. *)
Fixpoint break_at (p : N -> bool) (s : pystr) : pystr * pystr :=
  match s with
  | [] => ([], [])
  | c :: r => if p c then ([], s) else let '(a, b) := break_at p r in (c :: a, b)
  end.

(** [scheme://] in front of [s], and what follows it. *)
Definition split_scheme (s : pystr) : option (pystr * pystr) :=
  if startswith (str "https://") s then Some (str "https", drop 8 s)
  else if startswith (str "http://") s then Some (str "http", drop 7 s)
  else None.

Definition is_path_end (c : N) : bool := (c =? 63) || (c =? 35).
Definition is_netloc_end (c : N) : bool := (c =? slash) || is_path_end c.

Definition simple_netloc (u : pystr) : pystr :=
  match split_scheme u with
  | Some (_, r) => fst (break_at is_netloc_end r)
  | None => []
  end.

Definition simple_path (u : pystr) : pystr :=
  match split_scheme u with
  | Some (_, r) => fst (break_at is_path_end (snd (break_at is_netloc_end r)))
  | None => fst (break_at is_path_end u)
  end.

Definition simple_clean (u : pystr) : pystr :=
  match split_scheme u with
  | Some (scheme, _) => scheme ++ str "://" ++ simple_netloc u ++ simple_path u
  | None => simple_path u
  end.

Definition simple_urljoin (base url : pystr) : pystr :=
  match split_scheme url, split_scheme base with
  | Some _, _ => url
  | None, Some (scheme, _) =>
      if startswith (str "/") url
      then scheme ++ str "://" ++ simple_netloc base ++ url
      else url
  | None, None => url
  end.

(** [urlsplit]: "Invalid IPv6 URL" when one of [[] and []] is in the netloc
    without the other. *)
Definition simple_raises (u : pystr) : bool :=
  let netloc := simple_netloc u in
  xorb (has_char 91 netloc) (has_char 93 netloc).

Definition rejected_markup : pystr := str "<![foo bar]>".

Definition empty_soup : Soup :=
  {| og_type_product := false; og_type_article := false;
     product_container := false; breadcrumb_nav := false;
     title_string := None; og_title_content := None; h1_text := None;
     anchors := []; next_elements := []; ld_json_scripts := [];
     find_sku := None; find_barcode := None |}.

Fixpoint table_get {A} (k : pystr) (t : list (pystr * A)) : option A :=
  match t with
  | [] => None
  | (k', v) :: r => if str_eqb k k' then Some v else table_get k r
  end.

Definition table_lib (documents : list (pystr * Soup))
    (scripts : list (pystr * json)) : Lib :=
  {| str_lower := ascii_lower;
     str_upper := ascii_upper;
     str_title := ascii_title false;
     nfkd := nfkd_turkish;
     urljoin := fun base url =>
       if simple_raises base || simple_raises url then None
       else Some (simple_urljoin base url);
     url_netloc := fun u =>
       if simple_raises u then None else Some (simple_netloc u);
     url_path := simple_path;
     url_clean := fun u =>
       if simple_raises u then None else Some (simple_clean u);
     urlparse_raises := simple_raises;
     BeautifulSoup := fun html =>
       match table_get html documents with Some s => s | None => empty_soup end;
     BeautifulSoup_raises := startswith rejected_markup;
     json_loads := fun raw => table_get raw scripts;
     py_repr := fun _ => str "?" |}.

(** A site given by the HTML of its pages. *)
Definition table_web (site : list (pystr * pystr)) : Web :=
  {| fetch_html := fun url => table_get url site;
     probe_ikas := fun _ => str "ok" |}.

(** * Properties *)

(** ** Strings *)

Lemma has_char_In ch s : has_char ch s = true <-> In ch s.
Proof.
  unfold has_char. rewrite existsb_exists. split.
  - intros (c & Hin & Heq). apply N.eqb_eq in Heq. now subst.
  - intros Hin. exists ch. split; [assumption | apply N.eqb_refl].
Qed.

Lemma has_char_false ch s : has_char ch s = false <-> ~ In ch s.
Proof.
  rewrite <- has_char_In. destruct (has_char ch s); split; congruence.
Qed.

Lemma count_char_cons ch c s :
  count_char ch (c :: s) =
  ((if N.eqb ch c then 1 else 0) + count_char ch s)%nat.
Proof. unfold count_char. cbn. destruct (N.eqb ch c); reflexivity. Qed.

Lemma count_char_zero ch s : count_char ch s = 0%nat <-> ~ In ch s.
Proof.
  induction s as [|c s IH]; [cbn; tauto|].
  rewrite count_char_cons. cbn [In].
  destruct (N.eqb_spec ch c) as [->|Hne].
  - split; [discriminate | intros H; exfalso; apply H; now left].
  - rewrite Nat.add_0_l, IH. split.
    + intros H [Heq|Hin]; [congruence | now apply H].
    + intros H Hin. apply H. now right.
Qed.

Lemma count_char_one ch s :
  count_char ch s = 1%nat ->
  exists a b, s = a ++ ch :: b /\ ~ In ch a /\ ~ In ch b.
Proof.
  induction s as [|c s IH]; [discriminate|].
  rewrite count_char_cons.
  destruct (N.eqb_spec ch c) as [->|Hne]; intros H.
  - exists [], s. repeat split; [tauto|]. apply count_char_zero. lia.
  - destruct IH as (a & b & -> & Ha & Hb); [lia|].
    exists (c :: a), b. repeat split; [|assumption].
    intros [Heq|Hin]; [congruence | now apply Ha].
Qed.

Lemma count_char_split ch a b :
  ~ In ch a -> ~ In ch b -> count_char ch (a ++ ch :: b) = 1%nat.
Proof.
  intros Ha Hb. induction a as [|c a IH].
  - cbn [app]. rewrite count_char_cons, N.eqb_refl.
    apply count_char_zero in Hb. lia.
  - cbn [app]. rewrite count_char_cons.
    destruct (N.eqb_spec ch c) as [->|Hne]; [exfalso; apply Ha; now left|].
    rewrite IH; [reflexivity|]. intros Hin. apply Ha. now right.
Qed.

Lemma split_char_no_sep ch s : ~ In ch s -> split_char ch s = [s].
Proof.
  induction s as [|c s IH]; intros Hs; [reflexivity|].
  cbn. destruct (N.eqb_spec ch c) as [->|Hne]; [exfalso; apply Hs; now left|].
  rewrite IH; [reflexivity|]. intros Hin. apply Hs. now right.
Qed.

Lemma split_char_nonempty ch s : split_char ch s <> [].
Proof.
  destruct s as [|c s]; cbn; [discriminate|].
  destruct (N.eqb ch c); [discriminate|].
  destruct (split_char ch s); discriminate.
Qed.

Lemma split_char_app ch a b :
  ~ In ch a -> split_char ch (a ++ ch :: b) = a :: split_char ch b.
Proof.
  induction a as [|c a IH]; intros Ha.
  - cbn. now rewrite N.eqb_refl.
  - cbn. destruct (N.eqb_spec ch c) as [->|Hne]; [exfalso; apply Ha; now left|].
    rewrite IH; [reflexivity|]. intros Hin. apply Ha. now right.
Qed.

Lemma last_field_split ch a b :
  ~ In ch a -> ~ In ch b -> last_field (split_char ch (a ++ ch :: b)) = b.
Proof.
  intros Ha Hb. rewrite split_char_app, split_char_no_sep by assumption.
  reflexivity.
Qed.

(** ** Price parsing *)

(** The cleaned text has exactly one comma, and one or two characters after
    it. *)
Definition one_decimal_comma (t : pystr) : Prop :=
  exists a b, t = a ++ comma :: b /\ ~ In comma a /\ ~ In comma b /\
              (length b = 1 \/ length b = 2)%nat.

Lemma decimal_comma_test t :
  has_char comma t && (count_char comma t =? 1)%nat
  && ((length (last_field (split_char comma t)) =? 1)%nat
      || (length (last_field (split_char comma t)) =? 2)%nat) = true
  <-> one_decimal_comma t.
Proof.
  split.
  - intros H. apply andb_true_iff in H as [H Hlen].
    apply andb_true_iff in H as [_ Hcount].
    apply Nat.eqb_eq in Hcount.
    destruct (count_char_one _ _ Hcount) as (a & b & -> & Ha & Hb).
    rewrite last_field_split in Hlen by assumption.
    exists a, b. repeat split; try assumption.
    apply orb_true_iff in Hlen as [H|H]; apply Nat.eqb_eq in H; tauto.
  - intros (a & b & -> & Ha & Hb & Hlen).
    rewrite last_field_split by assumption.
    rewrite count_char_split by assumption.
    assert (Hin : has_char comma (a ++ comma :: b) = true).
    { apply has_char_In, in_or_app. right. now left. }
    rewrite Hin. cbn [andb Nat.eqb].
    apply orb_true_iff. destruct Hlen as [->| ->]; [left|right]; reflexivity.
Qed.

Lemma clean_price_unfold text :
  truthy (py_strip text) = true ->
  clean_price_to_number (Some text) =
  let t := PRICE_CLEAN (py_strip text) in
  py_float
    (if has_char comma t && has_char dot t then
       replace_char comma dot (remove_char dot t)
     else if has_char comma t && (count_char comma t =? 1)%nat
             && (let n := length (last_field (split_char comma t)) in
                 (n =? 1)%nat || (n =? 2)%nat) then
       replace_char comma dot t
     else remove_char comma t).
Proof.
  intros Hs. unfold clean_price_to_number.
  destruct text as [|c text]; [discriminate|].
  cbn [truthy negb]. rewrite Hs. reflexivity.
Qed.

(** C2. [clean_price_to_number] reads "1.234,56 TL" as 1234.56, "19,99" as
    19.99 and "1,234" as 1234.  In general, with [t] the cleaned text: when
    [t] has a comma and a dot, the dots are dropped as thousands separators
    and the comma is read as the decimal point; when [t] has no dot and
    exactly one comma with one or two characters after it, the comma is read
    as the decimal point; in every other case the commas are dropped as
    thousands separators. *)
Theorem clean_price_to_number_separators :
  clean_price_to_number (Some (str "1.234,56 TL")) = Some (Qred 1234.56) /\
  clean_price_to_number (Some (str "19,99")) = Some (Qred 19.99) /\
  clean_price_to_number (Some (str "1,234")) = Some (Qred 1234) /\
  forall text t,
    truthy (py_strip text) = true ->
    t = PRICE_CLEAN (py_strip text) ->
    (In comma t -> In dot t ->
     clean_price_to_number (Some text) =
     py_float (replace_char comma dot (remove_char dot t))) /\
    (~ In dot t -> one_decimal_comma t ->
     clean_price_to_number (Some text) = py_float (replace_char comma dot t)) /\
    (~ (In comma t /\ In dot t) -> ~ one_decimal_comma t ->
     clean_price_to_number (Some text) = py_float (remove_char comma t)).
Proof.
  split; [reflexivity|]. split; [reflexivity|]. split; [reflexivity|].
  intros text t Hs ->. rewrite (clean_price_unfold _ Hs). cbn zeta.
  set (t := PRICE_CLEAN (py_strip text)).
  repeat split.
  - intros Hc Hd. apply has_char_In in Hc, Hd. now rewrite Hc, Hd.
  - intros Hd Hone. apply has_char_false in Hd. rewrite Hd, andb_false_r.
    apply decimal_comma_test in Hone. now rewrite Hone.
  - intros Hboth Hone.
    destruct (has_char comma t && has_char dot t) eqn:E.
    + exfalso. apply Hboth. apply andb_true_iff in E as [E1 E2].
      split; now apply has_char_In.
    + destruct (_ && _ && _) eqn:E'; [|reflexivity].
      exfalso. apply Hone. now apply decimal_comma_test.
Qed.

Lemma clean_price_to_number_separators_witness :
  clean_price_to_number (Some (str "19,99 TL")) =
  py_float (replace_char comma dot (str "19,99")).
Proof.
  refine (proj1 (proj2 (proj2 (proj2 (proj2 clean_price_to_number_separators))
                   (str "19,99 TL") (str "19,99") _ _)) _ _).
  - reflexivity.
  - reflexivity.
  - cbn. intros H. repeat (destruct H as [H|H]; [discriminate H|]). exact H.
  - exists (str "19"), (str "99"). repeat split.
    + cbn. intros H. repeat (destruct H as [H|H]; [discriminate H|]). exact H.
    + cbn. intros H. repeat (destruct H as [H|H]; [discriminate H|]). exact H.
    + right. reflexivity.
Defined.

(** ** Slugs *)

(** No two hyphens in a row; with [prev], no hyphen in front either. *)
Fixpoint single_hyphens (prev : bool) (s : pystr) : bool :=
  match s with
  | [] => true
  | c :: r =>
      if c =? hyphen then negb prev && single_hyphens true r
      else single_hyphens false r
  end.

Definition slug_char (c : N) : Prop := is_slug_alnum c = true \/ c = hyphen.

Lemma alnum_not_hyphen c : is_slug_alnum c = true -> (c =? hyphen) = false.
Proof.
  intros H. destruct (N.eqb_spec c hyphen) as [->|]; [discriminate H | reflexivity].
Qed.

Lemma single_hyphens_weaken s : single_hyphens true s = true -> single_hyphens false s = true.
Proof. destruct s as [|c r]; cbn; [tauto|]. destruct (c =? hyphen); [discriminate|tauto]. Qed.

Lemma single_hyphens_suffix a : forall b s,
  single_hyphens b (a ++ s) = true -> single_hyphens false s = true.
Proof.
  induction a as [|c a IH]; intros b s H.
  - destruct b; [now apply single_hyphens_weaken | assumption].
  - cbn in H. destruct (c =? hyphen).
    + apply andb_true_iff in H as [_ H]. now apply IH in H.
    + now apply IH in H.
Qed.

Lemma single_hyphens_prefix a : forall b s,
  single_hyphens b (a ++ s) = true -> single_hyphens b a = true.
Proof.
  induction a as [|c a IH]; intros b s H; [reflexivity|].
  cbn in *. destruct (c =? hyphen).
  - apply andb_true_iff in H as [Hb H]. rewrite Hb. now apply IH in H.
  - now apply IH in H.
Qed.

Lemma single_hyphens_no_double a : forall b s,
  single_hyphens b (a ++ hyphen :: hyphen :: s) = false.
Proof.
  induction a as [|c a IH]; intros b s.
  - cbn. now rewrite andb_false_r.
  - cbn. rewrite !IH. rewrite andb_false_r. now destruct (c =? hyphen).
Qed.

Lemma sub_non_alnum_single x : forall b,
  single_hyphens b (sub_non_alnum b x) = true.
Proof.
  induction x as [|c x IH]; intros b; [reflexivity|].
  cbn. destruct (is_slug_alnum c) eqn:E.
  - cbn. rewrite (alnum_not_hyphen _ E). apply IH.
  - destruct b; [apply IH|]. cbn. apply IH.
Qed.

Lemma sub_non_alnum_chars x : forall b, Forall slug_char (sub_non_alnum b x).
Proof.
  induction x as [|c x IH]; intros b; [constructor|].
  cbn. destruct (is_slug_alnum c) eqn:E.
  - constructor; [now left | apply IH].
  - destruct b; [apply IH|]. constructor; [now right | apply IH].
Qed.

Lemma sub_non_alnum_filter x : forall b,
  List.filter is_slug_alnum (sub_non_alnum b x) = List.filter is_slug_alnum x.
Proof.
  induction x as [|c x IH]; intros b; [reflexivity|].
  cbn. destruct (is_slug_alnum c) eqn:E.
  - cbn. rewrite E. f_equal. apply IH.
  - destruct b; [apply IH|]. cbn. apply IH.
Qed.

Lemma sub_hyphen_runs_id s : forall b,
  single_hyphens b s = true -> sub_hyphen_runs b s = s.
Proof.
  induction s as [|c s IH]; intros b H; [reflexivity|].
  cbn in *. destruct (N.eqb_spec c hyphen) as [->|Hne].
  - apply andb_true_iff in H as [Hb H]. destruct b; [discriminate|].
    f_equal. now apply IH.
  - f_equal. now apply IH.
Qed.

Lemma lstrip_by_split p s :
  exists pre, s = pre ++ lstrip_by p s /\ Forall (fun c => p c = true) pre.
Proof.
  induction s as [|c s (pre & IH & Hp)]; [exists []; split; [reflexivity|constructor]|].
  cbn. destruct (p c) eqn:E.
  - exists (c :: pre). split; [cbn; now f_equal | now constructor].
  - exists []. split; [reflexivity | constructor].
Qed.

Lemma lstrip_by_head p s c r : lstrip_by p s = c :: r -> p c = false.
Proof.
  induction s as [|d s IH]; [discriminate|].
  cbn. destruct (p d) eqn:E; [assumption|]. intros [= -> _]. assumption.
Qed.

Lemma rstrip_by_split p s :
  exists post, s = rstrip_by p s ++ post /\ Forall (fun c => p c = true) post.
Proof.
  unfold rstrip_by. destruct (lstrip_by_split p (rev s)) as (pre & H & Hp).
  exists (rev pre). split.
  - rewrite <- rev_app_distr, <- H. symmetry. apply rev_involutive.
  - apply List.Forall_forall. intros c Hc. rewrite <- in_rev in Hc.
    rewrite List.Forall_forall in Hp. now apply Hp.
Qed.

Lemma rstrip_by_last p s r c : rstrip_by p s = r ++ [c] -> p c = false.
Proof.
  unfold rstrip_by. intros H.
  apply (f_equal (@rev N)) in H. rewrite rev_involutive, rev_app_distr in H.
  cbn in H. now apply lstrip_by_head in H.
Qed.

Lemma strip_by_head p s c r : strip_by p s = c :: r -> p c = false.
Proof.
  unfold strip_by. intros H.
  destruct (rstrip_by_split p (lstrip_by p s)) as (post & Hs & _).
  rewrite H in Hs. cbn in Hs. now apply lstrip_by_head in Hs.
Qed.

Lemma strip_by_split p s :
  exists pre post, s = pre ++ strip_by p s ++ post /\
                   Forall (fun c => p c = true) pre /\
                   Forall (fun c => p c = true) post.
Proof.
  unfold strip_by.
  destruct (lstrip_by_split p s) as (pre & Hs & Hpre).
  destruct (rstrip_by_split p (lstrip_by p s)) as (post & Hs' & Hpost).
  exists pre, post. repeat split; try assumption. now rewrite <- Hs'.
Qed.

Lemma filter_none (f g : N -> bool) s :
  Forall (fun c => g c = true) s -> (forall c, g c = true -> f c = false) ->
  List.filter f s = [].
Proof.
  intros Hs Hfg. induction Hs as [|c s Hc _ IH]; [reflexivity|].
  cbn. now rewrite (Hfg _ Hc).
Qed.

Section Slugify.
Context (L : Lib).

(** The last substitution of [slugify] finds nothing to replace. *)
Lemma slugify_strip value :
  truthy value = true ->
  slugify L value =
  py_strip_char hyphen
    (sub_non_alnum false (str_lower L (ascii_ignore (nfkd L value)))).
Proof.
  intros Hv. unfold slugify. rewrite Hv. cbn [negb].
  apply (sub_hyphen_runs_id _ false).
  unfold py_strip_char.
  destruct (strip_by_split (N.eqb hyphen)
              (sub_non_alnum false (str_lower L (ascii_ignore (nfkd L value)))))
    as (pre & post & Hs & _ & _).
  pose proof (sub_non_alnum_single
                (str_lower L (ascii_ignore (nfkd L value))) false) as H.
  rewrite Hs in H. apply single_hyphens_suffix in H.
  now apply single_hyphens_prefix in H.
Qed.

Lemma slugify_chars value : Forall slug_char (slugify L value).
Proof.
  destruct (truthy value) eqn:Hv.
  - rewrite slugify_strip by assumption. unfold py_strip_char.
    set (x := sub_non_alnum false _).
    destruct (strip_by_split (N.eqb hyphen) x) as (pre & post & Hs & _ & _).
    pose proof (sub_non_alnum_chars
                  (str_lower L (ascii_ignore (nfkd L value))) false) as H.
    fold x in H. rewrite Hs in H.
    apply List.Forall_app in H as [_ H]. now apply List.Forall_app in H as [H _].
  - unfold slugify. rewrite Hv. constructor.
Qed.

Lemma slugify_no_leading value r : slugify L value <> hyphen :: r.
Proof.
  destruct (truthy value) eqn:Hv.
  - rewrite slugify_strip by assumption. intros H.
    apply strip_by_head in H. now rewrite N.eqb_refl in H.
  - unfold slugify. rewrite Hv. discriminate.
Qed.

Lemma slugify_no_trailing value r : slugify L value <> r ++ [hyphen].
Proof.
  destruct (truthy value) eqn:Hv.
  - rewrite slugify_strip by assumption. intros H.
    apply rstrip_by_last in H. now rewrite N.eqb_refl in H.
  - unfold slugify. rewrite Hv. cbn. intros H. now destruct r.
Qed.

Lemma slugify_no_double value a b :
  slugify L value <> a ++ hyphen :: hyphen :: b.
Proof.
  destruct (truthy value) eqn:Hv.
  - rewrite slugify_strip by assumption. unfold py_strip_char.
    set (x := sub_non_alnum false _). intros H.
    destruct (strip_by_split (N.eqb hyphen) x) as (pre & post & Hs & _ & _).
    pose proof (sub_non_alnum_single
                  (str_lower L (ascii_ignore (nfkd L value))) false) as Hx.
    fold x in Hx. rewrite Hs, H in Hx.
    apply single_hyphens_suffix, single_hyphens_prefix in Hx.
    now rewrite single_hyphens_no_double in Hx.
  - unfold slugify. rewrite Hv. cbn. intros H. now destruct a.
Qed.

Lemma slugify_alnum value :
  List.filter is_slug_alnum (slugify L value) =
  List.filter is_slug_alnum (str_lower L (ascii_ignore (nfkd L value))) \/
  value = [].
Proof.
  destruct (truthy value) eqn:Hv; [left | right; now destruct value].
  rewrite slugify_strip by assumption. unfold py_strip_char.
  set (x := sub_non_alnum false _).
  destruct (strip_by_split (N.eqb hyphen) x) as (pre & post & Hs & Hpre & Hpost).
  rewrite <- (sub_non_alnum_filter (str_lower L (ascii_ignore (nfkd L value))) false).
  fold x. rewrite Hs at 2. rewrite !List.filter_app.
  assert (Hh : forall c, (hyphen =? c) = true -> is_slug_alnum c = false).
  { intros c Hc. apply N.eqb_eq in Hc. now subst. }
  rewrite (filter_none _ _ pre Hpre Hh), (filter_none _ _ post Hpost Hh).
  now rewrite app_nil_r.
Qed.
End Slugify.

(** The maximal runs of [a-z0-9] in [s], in order; [cur] is the run that is
    being read. *)
Fixpoint alnum_runs (cur s : pystr) : list pystr :=
  match s with
  | [] => match cur with [] => [] | _ => [cur] end
  | c :: r =>
      if is_slug_alnum c then alnum_runs (cur ++ [c]) r
      else match cur with
           | [] => alnum_runs [] r
           | _ => cur :: alnum_runs [] r
           end
  end.

(** ["-".join(words)] *)
Fixpoint join_hyphen (words : list pystr) : pystr :=
  match words with
  | [] => []
  | [w] => w
  | w :: rest => w ++ hyphen :: join_hyphen rest
  end.

Lemma lstrip_by_app p x y :
  lstrip_by p (x ++ y) =
  match lstrip_by p x with [] => lstrip_by p y | _ => lstrip_by p x ++ y end.
Proof.
  induction x as [|c x IH]; [reflexivity|].
  cbn. destruct (p c); [exact IH | reflexivity].
Qed.

Lemma rstrip_by_app p a b :
  rstrip_by p (a ++ b) =
  match rstrip_by p b with [] => rstrip_by p a | _ => a ++ rstrip_by p b end.
Proof.
  unfold rstrip_by. rewrite rev_app_distr, lstrip_by_app.
  destruct (lstrip_by p (rev b)) as [|c l] eqn:E; [reflexivity|].
  rewrite rev_app_distr, rev_involutive.
  destruct (rev (c :: l)) eqn:E'; [|reflexivity].
  apply (f_equal (@length _)) in E'. rewrite length_rev in E'. discriminate.
Qed.

Lemma rstrip_by_alnum_run cur :
  cur <> [] -> Forall (fun c => is_slug_alnum c = true) cur ->
  rstrip_by (N.eqb hyphen) cur = cur.
Proof.
  intros Hne Hc. destruct (rstrip_by_split (N.eqb hyphen) cur) as (post & Hs & Hp).
  destruct post as [|h post]; [now rewrite app_nil_r in Hs|].
  exfalso. rewrite Hs in Hc. apply List.Forall_app in Hc as [_ Hc].
  inversion Hc as [|? ? Hh _]; subst. inversion Hp as [|? ? Hh' _]; subst.
  apply N.eqb_eq in Hh'. subst. discriminate.
Qed.

Lemma alnum_runs_nonempty s : forall cur,
  Forall (fun w => w <> []) (alnum_runs cur s).
Proof.
  induction s as [|c r IH]; intros cur; cbn.
  - destruct cur; repeat constructor. discriminate.
  - destruct (is_slug_alnum c); [apply IH|].
    destruct cur; [apply IH|]. constructor; [discriminate | apply IH].
Qed.

Lemma join_hyphen_nil words :
  Forall (fun w => w <> []) words -> join_hyphen words = [] -> words = [].
Proof.
  intros Hw. destruct Hw as [|w rest Hne _]; [reflexivity|].
  cbn. destruct rest; [tauto|]. destruct w; [tauto | discriminate].
Qed.

Lemma sub_non_alnum_runs s :
  (forall cur, cur <> [] -> Forall (fun c => is_slug_alnum c = true) cur ->
     rstrip_by (N.eqb hyphen) (cur ++ sub_non_alnum false s) =
     join_hyphen (alnum_runs cur s)) /\
  rstrip_by (N.eqb hyphen) (sub_non_alnum true s) = join_hyphen (alnum_runs [] s).
Proof.
  induction s as [|c r [IHa IHb]].
  - split; [|reflexivity]. intros cur Hne Hc. cbn. rewrite app_nil_r.
    destruct cur; [tauto|]. now apply rstrip_by_alnum_run.
  - cbn. destruct (is_slug_alnum c) eqn:Ec.
    + split.
      * intros cur Hne Hc.
        change (cur ++ c :: sub_non_alnum false r)
          with (cur ++ [c] ++ sub_non_alnum false r).
        rewrite app_assoc. apply IHa; [now destruct cur|].
        apply List.Forall_app. split; [assumption|]. now repeat constructor.
      * apply (IHa [c]); [discriminate|]. now repeat constructor.
    + split; [|exact IHb]. intros cur Hne Hc.
      rewrite rstrip_by_app.
      change (hyphen :: sub_non_alnum true r)
        with ([hyphen] ++ sub_non_alnum true r).
      rewrite rstrip_by_app, IHb.
      pose proof (alnum_runs_nonempty r []) as Hw.
      destruct cur as [|c0 cur]; [tauto|].
      destruct (alnum_runs [] r) as [|w ws] eqn:Er.
      * cbn [join_hyphen]. change (rstrip_by (N.eqb hyphen) [hyphen]) with (@nil N).
        now apply rstrip_by_alnum_run.
      * change (join_hyphen ((c0 :: cur) :: w :: ws))
          with ((c0 :: cur) ++ hyphen :: join_hyphen (w :: ws)).
        destruct (join_hyphen (w :: ws)) as [|h t] eqn:Ej; [|reflexivity].
        now apply join_hyphen_nil in Ej.
Qed.

Lemma sub_non_alnum_lstrip s :
  lstrip_by (N.eqb hyphen) (sub_non_alnum true s) = sub_non_alnum true s /\
  lstrip_by (N.eqb hyphen) (sub_non_alnum false s) = sub_non_alnum true s.
Proof.
  induction s as [|c r [IHt IHf]]; [split; reflexivity|].
  cbn [sub_non_alnum]. destruct (is_slug_alnum c) eqn:Ec.
  - assert (Hc : (hyphen =? c) = false).
    { apply N.eqb_neq. intros <-. discriminate. }
    cbn [lstrip_by]. rewrite Hc. split; reflexivity.
  - split; [exact IHt|]. cbn [lstrip_by]. rewrite N.eqb_refl. exact IHt.
Qed.

Lemma alnum_runs_alnum s : forall cur,
  Forall (fun c => is_slug_alnum c = true) cur ->
  Forall (Forall (fun c => is_slug_alnum c = true)) (alnum_runs cur s).
Proof.
  induction s as [|c r IH]; intros cur Hc; cbn.
  - destruct cur; [constructor | constructor; [assumption | constructor]].
  - destruct (is_slug_alnum c) eqn:Ec.
    + apply IH. apply List.Forall_app. split; [assumption|].
      now repeat constructor.
    + destruct cur; [apply IH; constructor|].
      constructor; [assumption | apply IH; constructor].
Qed.

(** A text that is one run. *)
Lemma alnum_runs_run w : forall cur,
  Forall (fun c => is_slug_alnum c = true) w -> cur ++ w <> [] ->
  alnum_runs cur w = [cur ++ w].
Proof.
  induction w as [|c r IH]; intros cur Hw Hne; cbn.
  - rewrite app_nil_r in Hne |- *. now destruct cur.
  - inversion Hw as [|? ? Hc Hr]; subst. rewrite Hc.
    rewrite IH; [now rewrite <- app_assoc | assumption | now destruct cur].
Qed.

(** A character outside [a-z0-9] ends the run before it. *)
Lemma alnum_runs_split a c b : forall cur,
  is_slug_alnum c = false ->
  alnum_runs cur (a ++ c :: b) = alnum_runs cur a ++ alnum_runs [] b.
Proof.
  induction a as [|x a IH]; intros cur Hc; cbn.
  - rewrite Hc. now destruct cur.
  - destruct (is_slug_alnum x); [now apply IH|].
    destruct cur; cbn; now rewrite IH.
Qed.

Section SlugifyRuns.
Context (L : Lib).

(** The slug is made of the runs of letters and digits of the lowered ASCII
    text, with one hyphen between two runs. *)
Lemma slugify_runs value :
  slugify L value =
  join_hyphen
    (alnum_runs []
       (if truthy value then str_lower L (ascii_ignore (nfkd L value)) else [])).
Proof.
  destruct (truthy value) eqn:Hv.
  - rewrite slugify_strip by assumption.
    unfold py_strip_char, strip_by.
    rewrite (proj2 (sub_non_alnum_lstrip _)).
    apply sub_non_alnum_runs.
  - unfold slugify. now rewrite Hv.
Qed.
End SlugifyRuns.

(** The title of the example, with its four letters outside ASCII:
    O and U with diaeresis, u with diaeresis and the dotless i. *)
Definition ornek_urun_adi : pystr :=
  [214] ++ str "rnek " ++ [220] ++ str "r" ++ [252] ++ str "n Ad" ++ [305]
  ++ str "!".

(** C5, as the code has it.  The slug of the example title is
    "ornek-urun-ad": the dotless i has no decomposition, so it is dropped
    with the other code points outside ASCII.  For every library and every
    input the slug is the runs of [a-z0-9] of the lowered ASCII part of the
    NFKD form, in order, with exactly one hyphen between two runs: what lies
    between two runs becomes one hyphen, and what lies before the first or
    after the last run is dropped.  The runs are what is left when the text
    is cut at every character outside [a-z0-9] and the empty pieces are
    dropped.  So the slug is made of [a-z0-9] and hyphens, has no hyphen in
    front, none at the end and no two in a row, and its letters and digits
    are those of the text, in order. *)
Theorem slugify_slug :
  slugify (table_lib [] []) ornek_urun_adi = str "ornek-urun-ad" /\
  (forall (L : Lib) (value : pystr),
    slugify L value =
    join_hyphen
      (alnum_runs []
         (if truthy value then str_lower L (ascii_ignore (nfkd L value)) else [])) /\
    Forall slug_char (slugify L value) /\
    (forall r, slugify L value <> hyphen :: r) /\
    (forall r, slugify L value <> r ++ [hyphen]) /\
    (forall a b, slugify L value <> a ++ hyphen :: hyphen :: b) /\
    List.filter is_slug_alnum (slugify L value) =
    List.filter is_slug_alnum
      (if truthy value then str_lower L (ascii_ignore (nfkd L value)) else [])) /\
  alnum_runs [] [] = [] /\
  (forall run, run <> [] -> Forall (fun c => is_slug_alnum c = true) run ->
     alnum_runs [] run = [run]) /\
  (forall a c b, is_slug_alnum c = false ->
     alnum_runs [] (a ++ c :: b) = alnum_runs [] a ++ alnum_runs [] b) /\
  (forall text,
     Forall (fun run => run <> [] /\ Forall (fun c => is_slug_alnum c = true) run)
            (alnum_runs [] text)).
Proof.
  split; [reflexivity|]. split.
  { intros L value.
    split; [apply slugify_runs|].
    split; [apply slugify_chars|].
    split; [apply slugify_no_leading|].
    split; [apply slugify_no_trailing|].
    split; [apply slugify_no_double|].
    destruct (slugify_alnum L value) as [H| ->]; [|reflexivity].
    destruct (truthy value) eqn:Hv; [assumption|]. now destruct value. }
  split; [reflexivity|].
  split; [intros run Hne Hr; now apply (alnum_runs_run run [])|].
  split; [intros a c b Hc; now apply alnum_runs_split|].
  intros text. apply List.Forall_forall. intros run Hin. split.
  - now apply (proj1 (List.Forall_forall _ _) (alnum_runs_nonempty text [])).
  - apply (proj1 (List.Forall_forall _ _) (alnum_runs_alnum text [] (List.Forall_nil _))).
    exact Hin.
Qed.

(** C5, as stated, fails: the slug of the example title is not
    "ornek-urun-adi". *)
Lemma slugify_example_differs :
  str_eqb (slugify (table_lib [] []) ornek_urun_adi) (str "ornek-urun-adi") = false.
Proof. reflexivity. Qed.

(** ** The crawl loop *)

(** [loop_runs st st']: the [while] loop started in [st] ends in [st']. *)
Inductive loop_runs (L : Lib) (W : Web) (start_url start_html : pystr)
    (max_pages : Z) : CrawlState -> CrawlState -> Prop :=
| loop_exit st :
    loop_guard max_pages st = false ->
    loop_runs L W start_url start_html max_pages st st
| loop_iter st st' :
    loop_guard max_pages st = true ->
    loop_runs L W start_url start_html max_pages
      (loop_body L W start_url start_html st) st' ->
    loop_runs L W start_url start_html max_pages st st'.

(** The state in which [find_all_page_links] enters the loop. *)
Definition crawl_init (start_url : pystr) : CrawlState :=
  {| to_visit := [start_url]; visited := ∅; all_pages := [];
     pages := 0; fetch_log := [start_url] |}.

Lemma crawl_loop_runs L W start_url start_html max_pages st :
  loop_runs L W start_url start_html max_pages st
    (crawl_loop L W start_url start_html max_pages st).
Proof.
  apply (crawl_loop_elim
           (fun L W start_url start_html max_pages st res =>
              loop_runs L W start_url start_html max_pages st res)).
  - intros L' W' s h m st' Hg IH _. now apply loop_iter.
  - intros L' W' s h m st' Hg _. now apply loop_exit.
Qed.

Lemma crawl_some L W start_url max_pages st :
  crawl L W start_url max_pages = Some st ->
  exists start_html,
    fetch_html W start_url = Some start_html /\ truthy start_html = true /\
    loop_runs L W start_url start_html max_pages (crawl_init start_url) st.
Proof.
  unfold crawl. destruct (fetch_html W start_url) as [h|]; [|discriminate].
  destruct (truthy h) eqn:Hh; cbn [negb]; [|discriminate].
  intros [= <-]. exists h. repeat split; try assumption. apply crawl_loop_runs.
Qed.

(** A property of the initial state that every iteration keeps holds when
    the loop ends. *)
Lemma loop_runs_invariant L W start_url start_html max_pages
    (P : CrawlState -> Prop) :
  (forall st, loop_guard max_pages st = true -> P st ->
              P (loop_body L W start_url start_html st)) ->
  forall st st', loop_runs L W start_url start_html max_pages st st' ->
                 P st -> P st'.
Proof.
  intros Hstep st st' Hrun. induction Hrun as [st Hg | st st' Hg Hrun IH]; [tauto|].
  intros HP. apply IH. now apply Hstep.
Qed.

Lemma loop_runs_exit L W start_url start_html max_pages st st' :
  loop_runs L W start_url start_html max_pages st st' ->
  loop_guard max_pages st' = false.
Proof. induction 1; assumption. Qed.

(** What one iteration does to the variables other than the queue: either
    the URL taken from the queue is skipped, or it is marked visited and
    counted, and then fetched (unless it is the start URL), and recorded when
    the fetch gave a page. *)
Lemma loop_body_cases L W start_url start_html st current rest :
  to_visit st = current :: rest ->
  let st' := loop_body L W start_url start_html st in
  (in_set current (visited st) || _should_exclude_url L current = true /\
   visited st' = visited st /\ all_pages st' = all_pages st /\
   pages st' = pages st /\ fetch_log st' = fetch_log st)
  \/
  (in_set current (visited st) = false /\
   _should_exclude_url L current = false /\
   visited st' = {[current]} ∪ visited st /\
   pages st' = (pages st + 1)%Z /\
   (fetch_log st' = fetch_log st \/ fetch_log st' = fetch_log st ++ [current]) /\
   (all_pages st' = all_pages st \/
    exists soup title slug,
      all_pages st' =
      all_pages st ++ [ {| page_url := current; page_title := title;
                           page_slug := slug;
                           page_type := _determine_page_type L current soup |} ])).
Proof.
  intros Hq. unfold loop_body. rewrite Hq.
  destruct (in_set current (visited st) || _should_exclude_url L current) eqn:Hskip.
  - left. cbn. tauto.
  - right. apply orb_false_iff in Hskip as [Hv Hx].
    split; [assumption|]. split; [assumption|].
    destruct (negb (opt_truthy _)).
    + cbn. repeat split; try tauto.
      destruct (str_eqb current start_url); tauto.
    + destruct (_discover_all_links_from_page L current _) as [found_here next_link].
      cbn. repeat split.
      * destruct (str_eqb current start_url); tauto.
      * right. eauto.
Qed.

Lemma loop_guard_queue max_pages st :
  loop_guard max_pages st = true ->
  (pages st < max_pages)%Z /\ exists current rest, to_visit st = current :: rest.
Proof.
  unfold loop_guard. intros H. apply andb_true_iff in H as [Hq Hp].
  apply Z.ltb_lt in Hp. split; [assumption|].
  destruct (to_visit st) as [|c r]; [discriminate | eauto].
Qed.

(** The state after at most [n] iterations. *)
Fixpoint loop_iterate (L : Lib) (W : Web) (start_url start_html : pystr)
    (max_pages : Z) (n : nat) (st : CrawlState) : CrawlState :=
  match n with
  | O => st
  | S n =>
      if loop_guard max_pages st
      then loop_iterate L W start_url start_html max_pages n
             (loop_body L W start_url start_html st)
      else st
  end.

Section CrawlLoop.
Context (L : Lib) (W : Web) (start_url start_html : pystr) (max_pages : Z).

Local Abbreviation runs := (loop_runs L W start_url start_html max_pages).
Local Abbreviation body := (loop_body L W start_url start_html).
Local Abbreviation iterate := (loop_iterate L W start_url start_html max_pages).

Lemma loop_runs_iterate n : forall st st', runs st st' -> runs (iterate n st) st'.
Proof.
  induction n as [|n IH]; intros st st' Hrun; [assumption|].
  cbn. destruct Hrun as [st Hg | st st' Hg Hrun].
  - rewrite Hg. now apply loop_exit.
  - rewrite Hg. now apply IH.
Qed.

Lemma loop_body_pages_prefix st :
  exists more, all_pages (body st) = all_pages st ++ more.
Proof.
  destruct (to_visit st) as [|current rest] eqn:Hq.
  - exists []. unfold loop_body. rewrite Hq. now rewrite app_nil_r.
  - destruct (loop_body_cases L W start_url start_html st current rest Hq)
      as [(_ & _ & H & _) | (_ & _ & _ & _ & _ & [H | (soup & t & s & H)])].
    + exists []. now rewrite app_nil_r.
    + exists []. now rewrite app_nil_r.
    + eexists. exact H.
Qed.


(** The budget: the counter is the number of visited URLs, it stays within
    the bound, and no page is recorded without a visit. *)
Definition within_budget (st : CrawlState) : Prop :=
  pages st = Z.of_nat (size (visited st)) /\
  (pages st <= Z.max 0 max_pages)%Z /\
  (length (all_pages st) <= size (visited st))%nat.

Lemma within_budget_body st :
  loop_guard max_pages st = true -> within_budget st -> within_budget (body st).
Proof.
  intros Hg (Hp & Hb & Hl).
  destruct (loop_guard_queue _ _ Hg) as (Hlt & current & rest & Hq).
  unfold within_budget.
  destruct (loop_body_cases L W start_url start_html st current rest Hq)
    as [(_ & -> & -> & -> & _) | (Hv & _ & -> & -> & _ & Ha)].
  - tauto.
  - assert (Hnew : current ∉ visited st).
    { intros Hin. unfold in_set in Hv. now rewrite bool_decide_eq_false in Hv. }
    assert (Hsize : size ({[current]} ∪ visited st) = S (size (visited st))).
    { rewrite size_union by set_solver. now rewrite size_singleton. }
    rewrite Hsize. split; [lia|]. split; [lia|].
    destruct Ha as [-> | (soup & t & s & ->)]; [lia|].
    rewrite length_app. cbn. lia.
Qed.

Lemma within_budget_init : within_budget (crawl_init start_url).
Proof. unfold within_budget, crawl_init. cbn. rewrite size_empty. lia. Qed.

Lemma loop_runs_within_budget st :
  runs (crawl_init start_url) st -> within_budget st.
Proof.
  intros Hrun.
  apply (loop_runs_invariant L W start_url start_html max_pages within_budget
           within_budget_body _ _ Hrun within_budget_init).
Qed.
End CrawlLoop.

(** The loop computed by iteration: once [n] iterations reach a state in
    which the loop condition fails, that state is where the loop ends. *)
Lemma crawl_loop_iterate L W start_url start_html max_pages n st :
  loop_guard max_pages (loop_iterate L W start_url start_html max_pages n st) = false ->
  crawl_loop L W start_url start_html max_pages st =
  loop_iterate L W start_url start_html max_pages n st.
Proof.
  intros Hg.
  pose proof (loop_runs_iterate L W start_url start_html max_pages n _ _
                (crawl_loop_runs L W start_url start_html max_pages st)) as Hrun.
  inversion Hrun as [st0 Hg0 | st0 st1 Hg1 _]; subst; [reflexivity | congruence].
Qed.

Lemma crawl_iterate L W start_url start_html max_pages n :
  fetch_html W start_url = Some start_html ->
  truthy start_html = true ->
  loop_guard max_pages
    (loop_iterate L W start_url start_html max_pages n (crawl_init start_url)) = false ->
  crawl L W start_url max_pages =
  Some (loop_iterate L W start_url start_html max_pages n (crawl_init start_url)).
Proof.
  intros Hf Hh Hg. unfold crawl. rewrite Hf, Hh. cbn [negb]. f_equal.
  now apply crawl_loop_iterate.
Qed.

(** ** Exceptions in the crawl loop *)

(** [clean_run n st]: the loop started in [st] runs [n] iterations, none of
    which raises. *)
Definition clean_run (L : Lib) (W : Web) (start_url start_html : pystr)
    (max_pages : Z) (n : nat) (st : CrawlState) : Prop :=
  forall k, (k < n)%nat ->
    loop_guard max_pages (loop_iterate L W start_url start_html max_pages k st) = true /\
    iteration_raises L W start_url start_html
      (loop_iterate L W start_url start_html max_pages k st) = false.

Lemma clean_run_step L W start_url start_html max_pages n st :
  loop_guard max_pages st = true ->
  iteration_raises L W start_url start_html st = false ->
  clean_run L W start_url start_html max_pages n
    (loop_body L W start_url start_html st) ->
  clean_run L W start_url start_html max_pages (S n) st.
Proof.
  intros Hg Hr Hc [|k] Hk; [cbn; tauto|].
  cbn. rewrite Hg. apply Hc. lia.
Qed.

Lemma clean_run_inv L W start_url start_html max_pages n st :
  clean_run L W start_url start_html max_pages (S n) st ->
  loop_guard max_pages st = true /\
  iteration_raises L W start_url start_html st = false /\
  clean_run L W start_url start_html max_pages n
    (loop_body L W start_url start_html st).
Proof.
  intros Hc. destruct (Hc 0%nat ltac:(lia)) as [Hg Hr]. cbn in Hg, Hr.
  split; [assumption|]. split; [assumption|]. intros k Hk.
  specialize (Hc (S k) ltac:(lia)). cbn in Hc. now rewrite Hg in Hc.
Qed.

(** The loop either ends after some iterations that raise nothing, and
    returns the state reached, or comes to an iteration that raises. *)
Lemma crawl_loop_call_run L W start_url start_html max_pages st :
  exists n,
    clean_run L W start_url start_html max_pages n st /\
    ((loop_guard max_pages
        (loop_iterate L W start_url start_html max_pages n st) = false /\
      crawl_loop_call L W start_url start_html max_pages st =
      Returns (loop_iterate L W start_url start_html max_pages n st)) \/
     (loop_guard max_pages
        (loop_iterate L W start_url start_html max_pages n st) = true /\
      iteration_raises L W start_url start_html
        (loop_iterate L W start_url start_html max_pages n st) = true /\
      crawl_loop_call L W start_url start_html max_pages st = Raises)).
Proof.
  apply (crawl_loop_call_elim
           (fun L W start_url start_html max_pages st res =>
              exists n,
                clean_run L W start_url start_html max_pages n st /\
                ((loop_guard max_pages
                    (loop_iterate L W start_url start_html max_pages n st) = false /\
                  res = Returns (loop_iterate L W start_url start_html max_pages n st)) \/
                 (loop_guard max_pages
                    (loop_iterate L W start_url start_html max_pages n st) = true /\
                  iteration_raises L W start_url start_html
                    (loop_iterate L W start_url start_html max_pages n st) = true /\
                  res = Raises)))).
  - intros L' W' s h m st' Hg _. exists 0%nat. split; [intros k Hk; lia|].
    left. cbn. tauto.
  - intros L' W' s h m st' Hr Hg _ _. exists 0%nat. split; [intros k Hk; lia|].
    right. cbn. tauto.
  - intros L' W' s h m st' Hr Hg (n & Hc & H) _ _. exists (S n).
    split; [now apply clean_run_step|].
    cbn. rewrite Hg. exact H.
Qed.

Lemma crawl_loop_call_step L W start_url start_html max_pages st :
  crawl_loop_call L W start_url start_html max_pages st =
  if loop_guard max_pages st
  then if iteration_raises L W start_url start_html st then Raises
       else crawl_loop_call L W start_url start_html max_pages
              (loop_body L W start_url start_html st)
  else Returns st.
Proof.
  apply (crawl_loop_call_elim
           (fun L W start_url start_html max_pages st res =>
              res =
              if loop_guard max_pages st
              then if iteration_raises L W start_url start_html st then Raises
                   else crawl_loop_call L W start_url start_html max_pages
                          (loop_body L W start_url start_html st)
              else Returns st)).
  - intros L' W' s h m st' Hg _. now rewrite Hg.
  - intros L' W' s h m st' Hr Hg _ _. now rewrite Hg, Hr.
  - intros L' W' s h m st' Hr Hg _ _ _. now rewrite Hg, Hr.
Qed.

Section CrawlCalls.
Context (L : Lib) (W : Web) (start_url start_html : pystr) (max_pages : Z).

Local Abbreviation body := (loop_body L W start_url start_html).
Local Abbreviation iterate := (loop_iterate L W start_url start_html max_pages).
Local Abbreviation raises := (iteration_raises L W start_url start_html).
Local Abbreviation clean := (clean_run L W start_url start_html max_pages).
Local Abbreviation loop_call := (crawl_loop_call L W start_url start_html max_pages).

Lemma crawl_loop_call_returns n st :
  clean n st -> loop_guard max_pages (iterate n st) = false ->
  loop_call st = Returns (iterate n st).
Proof.
  revert st. induction n as [|n IH]; intros st Hc Hg; rewrite crawl_loop_call_step.
  - cbn in Hg |- *. now rewrite Hg.
  - apply clean_run_inv in Hc as (Hg0 & Hr0 & Hc).
    cbn in Hg |- *. rewrite Hg0 in Hg |- *. rewrite Hr0. now apply IH.
Qed.

Lemma crawl_loop_call_raises n st :
  clean n st -> loop_guard max_pages (iterate n st) = true ->
  raises (iterate n st) = true ->
  loop_call st = Raises.
Proof.
  revert st. induction n as [|n IH]; intros st Hc Hg Hr; rewrite crawl_loop_call_step.
  - cbn in Hg, Hr. now rewrite Hg, Hr.
  - apply clean_run_inv in Hc as (Hg0 & Hr0 & Hc).
    cbn in Hg, Hr. rewrite Hg0 in Hg, Hr |- *. rewrite Hr0. now apply IH.
Qed.

(** A property of the state that every iteration that raises nothing keeps
    holds after a run of such iterations. *)
Lemma clean_run_invariant (P : CrawlState -> Prop) :
  (forall st, loop_guard max_pages st = true -> raises st = false ->
              P st -> P (body st)) ->
  forall n st, clean n st -> P st -> P (iterate n st).
Proof.
  intros Hstep. induction n as [|n IH]; intros st Hc HP; [assumption|].
  apply clean_run_inv in Hc as (Hg & Hr & Hc).
  cbn. rewrite Hg. apply IH; [assumption|]. now apply Hstep.
Qed.

Lemma loop_iterate_exit n st :
  loop_guard max_pages st = false -> iterate n st = st.
Proof. intros Hg. destruct n; [reflexivity|]. cbn. now rewrite Hg. Qed.

Lemma loop_iterate_add k m : forall st,
  iterate (k + m) st = iterate m (iterate k st).
Proof.
  induction k as [|k IH]; intros st; [reflexivity|].
  cbn. destruct (loop_guard max_pages st) eqn:Hg; [apply IH|].
  symmetry. now apply loop_iterate_exit.
Qed.

Lemma loop_iterate_pages_prefix m : forall st,
  exists more, all_pages (iterate m st) = all_pages st ++ more.
Proof.
  induction m as [|m IH]; intros st.
  - exists []. cbn. now rewrite app_nil_r.
  - cbn. destruct (loop_guard max_pages st).
    + destruct (IH (body st)) as (more & ->).
      destruct (loop_body_pages_prefix L W start_url start_html st) as (m0 & ->).
      exists (m0 ++ more). now rewrite app_assoc.
    + exists []. now rewrite app_nil_r.
Qed.

Lemma loop_iterate_pages_kept k n st :
  (k <= n)%nat ->
  exists more, all_pages (iterate n st) = all_pages (iterate k st) ++ more.
Proof.
  intros Hk. replace n with (k + (n - k))%nat by lia.
  rewrite loop_iterate_add. apply loop_iterate_pages_prefix.
Qed.

(** A visit: the URL is marked and its record, if it has one, is appended. *)
Lemma loop_body_visit st current rest :
  to_visit st = current :: rest ->
  in_set current (visited st) || _should_exclude_url L current = false ->
  visited (body st) = {[current]} ∪ visited st /\
  all_pages (body st) =
  all_pages st ++
  match visit_record L W start_url start_html current with
  | Some page => [page]
  | None => []
  end.
Proof.
  intros Hq Hskip. unfold loop_body, visit_record, crawl_html.
  rewrite Hq, Hskip.
  destruct (if str_eqb current start_url then Some start_html
            else fetch_html W current) as [html|]; cbn [opt_truthy negb].
  - destruct (truthy html) eqn:Hh; cbn [negb opt_or_empty].
    + destruct (_discover_all_links_from_page L current html)
        as [found_here next_link].
      cbn. split; reflexivity.
    + cbn. now rewrite app_nil_r.
  - cbn. now rewrite app_nil_r.
Qed.

Lemma loop_body_skip st current rest :
  to_visit st = current :: rest ->
  in_set current (visited st) || _should_exclude_url L current = true ->
  visited (body st) = visited st /\ all_pages (body st) = all_pages st.
Proof.
  intros Hq Hskip. unfold loop_body. rewrite Hq, Hskip. cbn. tauto.
Qed.

(** An iteration takes the first URL of the queue; it passes over a URL that
    is visited already or excluded, and visits any other. *)
Lemma loop_body_step st :
  loop_guard max_pages st = true ->
  exists current rest,
    to_visit st = current :: rest /\
    if in_set current (visited st) || _should_exclude_url L current
    then visited (body st) = visited st /\ all_pages (body st) = all_pages st
    else visited (body st) = {[current]} ∪ visited st /\
         all_pages (body st) =
         all_pages st ++
         match visit_record L W start_url start_html current with
         | Some page => [page]
         | None => []
         end.
Proof.
  intros Hg. destruct (loop_guard_queue _ _ Hg) as (_ & current & rest & Hq).
  exists current, rest. split; [assumption|].
  destruct (in_set current (visited st) || _should_exclude_url L current) eqn:Hskip.
  - now apply (loop_body_skip st current rest).
  - now apply (loop_body_visit st current rest).
Qed.

Lemma loop_iterate_succ k st :
  loop_guard max_pages (iterate k st) = true ->
  iterate (S k) st = body (iterate k st).
Proof.
  intros Hg. replace (S k) with (k + 1)%nat by lia.
  rewrite loop_iterate_add. cbn. now rewrite Hg.
Qed.

(** The pages recorded are the records of the URLs visited. *)
Definition visits_recorded (st : CrawlState) : Prop :=
  all_pages st ≡ₚ
  omap (visit_record L W start_url start_html) (elements (visited st)).

Lemma visits_recorded_body st :
  loop_guard max_pages st = true -> visits_recorded st ->
  visits_recorded (body st).
Proof.
  intros Hg Hv. destruct (loop_guard_queue _ _ Hg) as (_ & current & rest & Hq).
  unfold visits_recorded in Hv |- *.
  destruct (in_set current (visited st) || _should_exclude_url L current) eqn:Hskip.
  - destruct (loop_body_skip st current rest Hq Hskip) as [-> ->]. exact Hv.
  - destruct (loop_body_visit st current rest Hq Hskip) as [-> ->].
    apply orb_false_iff in Hskip as [Hin _].
    assert (Hnew : current ∉ visited st).
    { intros Hc. unfold in_set in Hin. now rewrite bool_decide_eq_false in Hin. }
    rewrite (elements_union_singleton _ _ Hnew).
    change (omap (visit_record L W start_url start_html)
              (current :: elements (visited st)))
      with (match visit_record L W start_url start_html current with
            | Some p =>
                p :: omap (visit_record L W start_url start_html)
                       (elements (visited st))
            | None =>
                omap (visit_record L W start_url start_html)
                  (elements (visited st))
            end).
    destruct (visit_record L W start_url start_html current) as [page|].
    + rewrite <- Hv. symmetry. apply Permutation_cons_append.
    + now rewrite app_nil_r.
Qed.

(** The pages recorded have URLs that pass [urlparse], and their type is
    what [_determine_page_type] returned for the URL. *)
Definition pages_classified (st : CrawlState) : Prop :=
  Forall (fun p =>
            urlparse_raises L (page_url p) = false /\
            exists soup,
              _determine_page_type_call L (page_url p) soup = Returns (page_type p))
         (all_pages st).

Lemma pages_classified_body st :
  loop_guard max_pages st = true -> raises st = false ->
  pages_classified st -> pages_classified (body st).
Proof.
  intros Hg Hr Hp. destruct (loop_guard_queue _ _ Hg) as (_ & current & rest & Hq).
  unfold pages_classified.
  destruct (in_set current (visited st) || _should_exclude_url L current) eqn:Hskip.
  - destruct (loop_body_skip st current rest Hq Hskip) as [_ ->]. exact Hp.
  - destruct (loop_body_visit st current rest Hq Hskip) as [_ ->].
    apply List.Forall_app. split; [exact Hp|].
    unfold iteration_raises in Hr. rewrite Hq, Hskip in Hr.
    unfold visit_record.
    destruct (crawl_html W start_url start_html current) as [html|];
      [|constructor].
    cbn [opt_truthy] in Hr.
    destruct (truthy html); [|constructor]. cbn [negb] in Hr.
    apply orb_false_iff in Hr as [Hr H3]. apply orb_false_iff in Hr as [_ H2].
    constructor; [|constructor]. cbn [page_record page_url page_type].
    split; [assumption|]. exists (BeautifulSoup L html).
    unfold _determine_page_type_call. now rewrite H2.
Qed.

(** Every page recorded is the record of its URL and of the HTML that the
    loop had for it, and the parser accepted that HTML. *)
Definition pages_parsed (st : CrawlState) : Prop :=
  Forall (fun p =>
            exists html,
              crawl_html W start_url start_html (page_url p) = Some html /\
              truthy html = true /\
              BeautifulSoup_raises L html = false /\
              p = page_record L (page_url p) html)
         (all_pages st).

Lemma pages_parsed_body st :
  loop_guard max_pages st = true -> raises st = false ->
  pages_parsed st -> pages_parsed (body st).
Proof.
  intros Hg Hr Hp. destruct (loop_guard_queue _ _ Hg) as (_ & current & rest & Hq).
  unfold pages_parsed.
  destruct (in_set current (visited st) || _should_exclude_url L current) eqn:Hskip.
  - destruct (loop_body_skip st current rest Hq Hskip) as [_ ->]. exact Hp.
  - destruct (loop_body_visit st current rest Hq Hskip) as [_ ->].
    apply List.Forall_app. split; [exact Hp|].
    unfold iteration_raises in Hr. rewrite Hq, Hskip in Hr.
    unfold visit_record.
    destruct (crawl_html W start_url start_html current) as [html|] eqn:Hh;
      [|constructor].
    cbn [opt_truthy] in Hr.
    destruct (truthy html) eqn:Ht; [|constructor]. cbn [negb opt_or_empty] in Hr.
    apply orb_false_iff in Hr as [Hr _]. apply orb_false_iff in Hr as [H1 _].
    constructor; [|constructor]. cbn [page_record page_url].
    exists html. now rewrite Hh.
Qed.
End CrawlCalls.

Lemma find_all_page_links_call_unfetched L W start_url max_pages :
  opt_truthy (fetch_html W start_url) = false ->
  find_all_page_links_call L W start_url max_pages = Returns [] /\
  find_all_page_links L W start_url max_pages = [].
Proof.
  unfold find_all_page_links_call, crawl_call, find_all_page_links, crawl.
  destruct (fetch_html W start_url) as [h|]; [|tauto].
  cbn. intros ->. cbn. tauto.
Qed.

Lemma find_all_page_links_call_run L W start_url max_pages start_html :
  fetch_html W start_url = Some start_html -> truthy start_html = true ->
  exists n,
    clean_run L W start_url start_html max_pages n (crawl_init start_url) /\
    ((loop_guard max_pages
        (loop_iterate L W start_url start_html max_pages n (crawl_init start_url))
      = false /\
      crawl L W start_url max_pages =
      Some (loop_iterate L W start_url start_html max_pages n (crawl_init start_url)) /\
      find_all_page_links_call L W start_url max_pages =
      Returns (all_pages (loop_iterate L W start_url start_html max_pages n
                            (crawl_init start_url)))) \/
     (loop_guard max_pages
        (loop_iterate L W start_url start_html max_pages n (crawl_init start_url))
      = true /\
      iteration_raises L W start_url start_html
        (loop_iterate L W start_url start_html max_pages n (crawl_init start_url))
      = true /\
      find_all_page_links_call L W start_url max_pages = Raises)).
Proof.
  intros Hf Hh.
  destruct (crawl_loop_call_run L W start_url start_html max_pages
              (crawl_init start_url)) as (n & Hc & H).
  exists n. split; [assumption|].
  unfold find_all_page_links_call, crawl_call. rewrite Hf, Hh. cbn [negb].
  fold (crawl_init start_url).
  destruct H as [(Hg & ->) | (Hg & Hr & ->)].
  - left. split; [assumption|]. split; [|reflexivity].
    now apply crawl_iterate.
  - right. tauto.
Qed.

(** What the call returns is what [find_all_page_links] gives. *)
Lemma find_all_page_links_call_returns L W start_url max_pages result :
  find_all_page_links_call L W start_url max_pages = Returns result ->
  result = find_all_page_links L W start_url max_pages.
Proof.
  intros Hres.
  destruct (opt_truthy (fetch_html W start_url)) eqn:Hf.
  - destruct (fetch_html W start_url) as [h|] eqn:Hfe; [|discriminate].
    cbn in Hf.
    destruct (find_all_page_links_call_run L W start_url max_pages h Hfe Hf)
      as (n & _ & [(_ & Hc & Hr) | (_ & _ & Hr)]).
    + unfold find_all_page_links. rewrite Hc. congruence.
    + congruence.
  - destruct (find_all_page_links_call_unfetched L W start_url max_pages Hf)
      as [H1 H2].
    congruence.
Qed.

(** In a result that is returned, every URL passed [urlparse] and every type
    is one that [_determine_page_type] returned. *)
Lemma find_all_page_links_call_classified L W start_url max_pages result :
  find_all_page_links_call L W start_url max_pages = Returns result ->
  Forall (fun p =>
            urlparse_raises L (page_url p) = false /\
            exists soup,
              _determine_page_type_call L (page_url p) soup = Returns (page_type p))
         result.
Proof.
  intros Hres.
  destruct (opt_truthy (fetch_html W start_url)) eqn:Hf.
  - destruct (fetch_html W start_url) as [h|] eqn:Hfe; [|discriminate].
    cbn in Hf.
    destruct (find_all_page_links_call_run L W start_url max_pages h Hfe Hf)
      as (n & Hc & [(_ & _ & Hr) | (_ & _ & Hr)]); [|congruence].
    rewrite Hr in Hres. injection Hres as <-.
    apply (clean_run_invariant L W start_url h max_pages
             (pages_classified L) (pages_classified_body L W start_url h max_pages)
             n _ Hc).
    constructor.
  - destruct (find_all_page_links_call_unfetched L W start_url max_pages Hf)
      as [H1 _].
    rewrite H1 in Hres. injection Hres as <-. constructor.
Qed.

(** In a result that is returned, every page is the record of its URL and of
    the HTML that [fetch_html] gives for it, and the parser accepted that
    HTML: on these pages a second fetch, as in the redirect loop, parses. *)
Lemma find_all_page_links_call_parsed L W start_url max_pages result :
  find_all_page_links_call L W start_url max_pages = Returns result ->
  Forall (fun p =>
            exists html,
              fetch_html W (page_url p) = Some html /\
              truthy html = true /\
              BeautifulSoup_raises L html = false /\
              p = page_record L (page_url p) html)
         result.
Proof.
  intros Hres.
  destruct (opt_truthy (fetch_html W start_url)) eqn:Hf.
  - destruct (fetch_html W start_url) as [h|] eqn:Hfe; [|discriminate].
    cbn in Hf.
    destruct (find_all_page_links_call_run L W start_url max_pages h Hfe Hf)
      as (n & Hc & [(_ & _ & Hr) | (_ & _ & Hr)]); [|congruence].
    rewrite Hr in Hres. injection Hres as <-.
    eapply List.Forall_impl;
      [|apply (clean_run_invariant L W start_url h max_pages
                 (pages_parsed L W start_url h)
                 (pages_parsed_body L W start_url h max_pages)
                 n _ Hc); constructor].
    intros p (html & Hh & Ht & Hb & Hp). exists html.
    split; [|tauto].
    unfold crawl_html in Hh. unfold str_eqb in Hh.
    destruct (bool_decide (page_url p = start_url)) eqn:He; [|assumption].
    apply bool_decide_eq_true in He. rewrite He. congruence.
  - destruct (find_all_page_links_call_unfetched L W start_url max_pages Hf)
      as [H1 _].
    rewrite H1 in Hres. injection Hres as <-. constructor.
Qed.

Lemma iteration_raises_library L W start_url start_html st :
  (forall u, urlparse_raises L u = false) ->
  (forall html, BeautifulSoup_raises L html = false) ->
  iteration_raises L W start_url start_html st = false.
Proof.
  intros Hu Hb. unfold iteration_raises.
  destruct (to_visit st) as [|current rest]; [reflexivity|].
  destruct (_ || _); [reflexivity|].
  destruct (negb _); [reflexivity|].
  now rewrite Hb, !Hu.
Qed.


Lemma find_all_page_links_call_raises L W start_url max_pages start_html n :
  fetch_html W start_url = Some start_html -> truthy start_html = true ->
  clean_run L W start_url start_html max_pages n (crawl_init start_url) ->
  loop_guard max_pages
    (loop_iterate L W start_url start_html max_pages n (crawl_init start_url)) = true ->
  iteration_raises L W start_url start_html
    (loop_iterate L W start_url start_html max_pages n (crawl_init start_url)) = true ->
  find_all_page_links_call L W start_url max_pages = Raises.
Proof.
  intros Hf Hh Hc Hg Hr.
  unfold find_all_page_links_call, crawl_call. rewrite Hf, Hh. cbn [negb].
  fold (crawl_init start_url).
  now rewrite (crawl_loop_call_raises L W start_url start_html max_pages n _ Hc Hg Hr).
Qed.

Lemma find_all_page_links_call_ends L W start_url max_pages start_html n :
  fetch_html W start_url = Some start_html -> truthy start_html = true ->
  clean_run L W start_url start_html max_pages n (crawl_init start_url) ->
  loop_guard max_pages
    (loop_iterate L W start_url start_html max_pages n (crawl_init start_url)) = false ->
  find_all_page_links_call L W start_url max_pages =
  Returns (all_pages (loop_iterate L W start_url start_html max_pages n
                        (crawl_init start_url))).
Proof.
  intros Hf Hh Hc Hg.
  unfold find_all_page_links_call, crawl_call. rewrite Hf, Hh. cbn [negb].
  fold (crawl_init start_url).
  now rewrite (crawl_loop_call_returns L W start_url start_html max_pages n _ Hc Hg).
Qed.

(** C3, as the code has it.  [find_all_page_links] ends for every start URL
    and every bound (the call is a total function).  When the start page
    cannot be fetched it returns the empty list.  Otherwise the loop runs
    some number [n] of iterations that raise nothing, each of which takes the
    first URL of the queue and, unless that URL is visited already or
    excluded, marks it visited and appends its record when its fetch gave a
    page.  In the state then reached: the counter is the number of URLs
    marked visited and is within
    the bound; the pages recorded are, once each, the records of the visited
    URLs whose fetch gave a page; they extend the pages recorded after any
    smaller number of iterations; and either the queue is empty or the
    counter has reached the bound, and these pages are returned, or the next
    iteration comes to a page that the HTML parser rejects or to a URL that
    [urlparse] rejects, and the call ends with that exception, without a
    result.  A result that is returned is the one of [find_all_page_links]
    and has at most [max_pages] pages; with a library that never raises the
    call always returns. *)
Theorem find_all_page_links_budget (L : Lib) (W : Web) (start_url : pystr)
    (max_pages : Z) :
  (opt_truthy (fetch_html W start_url) = false ->
   find_all_page_links_call L W start_url max_pages = Returns []) /\
  (forall start_html,
     fetch_html W start_url = Some start_html -> truthy start_html = true ->
     exists n,
       let run k :=
         loop_iterate L W start_url start_html max_pages k (crawl_init start_url) in
       let st := run n in
       (forall k, (k < n)%nat ->
          loop_guard max_pages (run k) = true /\
          iteration_raises L W start_url start_html (run k) = false /\
          exists current rest,
            to_visit (run k) = current :: rest /\
            if in_set current (visited (run k)) || _should_exclude_url L current
            then visited (run (S k)) = visited (run k) /\
                 all_pages (run (S k)) = all_pages (run k)
            else visited (run (S k)) = {[current]} ∪ visited (run k) /\
                 all_pages (run (S k)) =
                 all_pages (run k) ++
                 match visit_record L W start_url start_html current with
                 | Some page => [page]
                 | None => []
                 end) /\
       Z.of_nat (size (visited st)) = pages st /\
       (pages st <= Z.max 0 max_pages)%Z /\
       all_pages st ≡ₚ
         omap (visit_record L W start_url start_html) (elements (visited st)) /\
       (forall k, (k <= n)%nat ->
          exists more, all_pages st = all_pages (run k) ++ more) /\
       ((loop_guard max_pages st = false /\
         (to_visit st = [] \/ (max_pages <= pages st)%Z) /\
         find_all_page_links_call L W start_url max_pages = Returns (all_pages st))
        \/
        (loop_guard max_pages st = true /\
         iteration_raises L W start_url start_html st = true /\
         find_all_page_links_call L W start_url max_pages = Raises))) /\
  (forall result,
     find_all_page_links_call L W start_url max_pages = Returns result ->
     result = find_all_page_links L W start_url max_pages /\
     (Z.of_nat (length result) <= Z.max 0 max_pages)%Z) /\
  ((forall u, urlparse_raises L u = false) ->
   (forall html, BeautifulSoup_raises L html = false) ->
   find_all_page_links_call L W start_url max_pages =
   Returns (find_all_page_links L W start_url max_pages)).
Proof.
  split; [intros Hf; now apply find_all_page_links_call_unfetched|].
  split.
  { intros h Hf Hh.
    destruct (find_all_page_links_call_run L W start_url max_pages h Hf Hh)
      as (n & Hc & H).
    exists n. cbv zeta.
    set (st := loop_iterate L W start_url h max_pages n (crawl_init start_url)) in *.
    split.
    { intros k Hk. destruct (Hc k Hk) as [Hg Hr].
      split; [assumption|]. split; [assumption|].
      rewrite (loop_iterate_succ L W start_url h max_pages k _ Hg).
      exact (loop_body_step L W start_url h max_pages _ Hg). }
    assert (Hb : within_budget max_pages st).
    { apply (clean_run_invariant L W start_url h max_pages
               (within_budget max_pages)
               (fun s Hg _ => within_budget_body L W start_url h max_pages s Hg)
               n _ Hc).
      apply within_budget_init. }
    destruct Hb as (Hp & Hb & _).
    split; [now rewrite Hp|]. split; [assumption|].
    split.
    { apply (clean_run_invariant L W start_url h max_pages
               (visits_recorded L W start_url h)
               (fun s Hg _ => visits_recorded_body L W start_url h max_pages s Hg)
               n _ Hc).
      unfold visits_recorded, crawl_init. cbn. now rewrite elements_empty. }
    split; [intros k Hk; now apply loop_iterate_pages_kept|].
    destruct H as [(Hg & _ & Hr) | H]; [left | right; exact H].
    split; [assumption|]. split; [|assumption].
    unfold loop_guard in Hg. apply andb_false_iff in Hg as [Hq | Hq].
    - left. now destruct (to_visit st).
    - right. now apply Z.ltb_ge in Hq. }
  split.
  { intros result Hres.
    pose proof (find_all_page_links_call_returns _ _ _ _ _ Hres) as ->.
    split; [reflexivity|].
    unfold find_all_page_links.
    destruct (crawl L W start_url max_pages) as [st|] eqn:Hc; [|cbn; lia].
    destruct (crawl_some _ _ _ _ _ Hc) as (h & _ & _ & Hrun).
    destruct (loop_runs_within_budget L W start_url h max_pages st Hrun)
      as (Hp & Hb & Hl).
    lia. }
  intros Hu Hb.
  destruct (opt_truthy (fetch_html W start_url)) eqn:Hf.
  - destruct (fetch_html W start_url) as [h|] eqn:Hfe; [|discriminate].
    cbn in Hf.
    destruct (find_all_page_links_call_run L W start_url max_pages h Hfe Hf)
      as (n & _ & [(_ & Hc & Hr) | (_ & Hr & _)]).
    + unfold find_all_page_links. now rewrite Hc.
    + now rewrite iteration_raises_library in Hr.
  - destruct (find_all_page_links_call_unfetched L W start_url max_pages Hf)
      as [H1 H2].
    now rewrite H1, H2.
Qed.

(** A shop whose home page has a "next" link with a bracket in its host
    part; the link answers with a page. *)
Definition bracket_home : pystr := str "https://b.com".

Definition bracket_next : pystr := str "http://user[@b.com/x".

Definition bracket_home_soup : Soup :=
  {| og_type_product := false; og_type_article := false;
     product_container := false; breadcrumb_nav := false;
     title_string := Some (str "Home"); og_title_content := None;
     h1_text := None;
     anchors := [bracket_next];
     next_elements := [(Some bracket_next, None)];
     ld_json_scripts := []; find_sku := None; find_barcode := None |}.

Definition bracket_lib : Lib := table_lib [(str "HOME", bracket_home_soup)] [].

Definition bracket_web : Web :=
  table_web [(bracket_home, str "HOME"); (bracket_next, str "NEXT")].

(** C3, as stated, fails: the crawl of this shop records the home page in
    its first iteration and enqueues the "next" link (the anchor loop drops
    the link, the pagination step keeps it as it is); the second iteration
    fetches it, [_determine_page_type] raises on it at line 139, and the call
    ends without returning the page recorded. *)
Lemma find_all_page_links_raises :
  all_pages (loop_iterate bracket_lib bracket_web bracket_home (str "HOME") 10 1
               (crawl_init bracket_home))
  = [ {| page_url := bracket_home; page_title := str "Home";
         page_slug := str "home"; page_type := str "page" |} ] /\
  to_visit (loop_iterate bracket_lib bracket_web bracket_home (str "HOME") 10 1
              (crawl_init bracket_home))
  = [bracket_next] /\
  _determine_page_type_call bracket_lib bracket_next
    (BeautifulSoup bracket_lib (str "NEXT")) = Raises /\
  find_all_page_links_call bracket_lib bracket_web bracket_home 10 = Raises.
Proof.
  split; [vm_compute; reflexivity|]. split; [vm_compute; reflexivity|].
  split; [vm_compute; reflexivity|].
  apply (find_all_page_links_call_raises bracket_lib bracket_web bracket_home 10
           (str "HOME") 1).
  - reflexivity.
  - reflexivity.
  - intros [|k] Hk; [vm_compute; split; reflexivity | lia].
  - vm_compute; reflexivity.
  - vm_compute; reflexivity.
Qed.

(** A shop with a page that [html.parser] rejects. *)
Definition markup_home_soup : Soup :=
  {| og_type_product := false; og_type_article := false;
     product_container := false; breadcrumb_nav := false;
     title_string := Some (str "Home"); og_title_content := None;
     h1_text := None;
     anchors := [str "/y"];
     next_elements := [];
     ld_json_scripts := []; find_sku := None; find_barcode := None |}.

Definition markup_lib : Lib := table_lib [(str "HOME", markup_home_soup)] [].

Definition markup_web : Web :=
  table_web [(bracket_home, str "HOME"); (str "https://b.com/y", rejected_markup)].

Example find_all_page_links_rejected_markup :
  to_visit (loop_iterate markup_lib markup_web bracket_home (str "HOME") 10 1
              (crawl_init bracket_home))
  = [str "https://b.com/y"] /\
  find_all_page_links_call markup_lib markup_web bracket_home 10 = Raises.
Proof.
  split; [vm_compute; reflexivity|].
  apply (find_all_page_links_call_raises markup_lib markup_web bracket_home 10
           (str "HOME") 1).
  - reflexivity.
  - reflexivity.
  - intros [|k] Hk; [vm_compute; split; reflexivity | lia].
  - vm_compute; reflexivity.
  - vm_compute; reflexivity.
Qed.


(** ** Exclusion *)

Section Exclusion.
Context (L : Lib) (W : Web) (start_url start_html : pystr) (max_pages : Z).





End Exclusion.

(** A shop whose home page has one link to a product, one to the login page
    and a "next" link into the API. *)
Definition shop_home : pystr := str "https://a.com".

Definition shop_home_soup : Soup :=
  {| og_type_product := false; og_type_article := false;
     product_container := false; breadcrumb_nav := false;
     title_string := Some (str "Home"); og_title_content := None;
     h1_text := None;
     anchors := [str "/urun/x"; str "/login"];
     next_elements := [(Some (str "/api/list"), None)];
     ld_json_scripts := []; find_sku := None; find_barcode := None |}.

Definition shop_lib : Lib := table_lib [(str "HOME", shop_home_soup)] [].

Definition shop_web : Web := table_web [(shop_home, str "HOME")].



(** The crawl of the shop returns the home page: the product link gives no
    page, the login link is not enqueued and the "next" link is passed
    over. *)
Example find_all_page_links_shop :
  find_all_page_links_call shop_lib shop_web shop_home 10 =
  Returns [ {| page_url := shop_home; page_title := str "Home";
               page_slug := str "home"; page_type := str "page" |} ].
Proof.
  rewrite (find_all_page_links_call_ends shop_lib shop_web shop_home 10
             (str "HOME") 3).
  - vm_compute. reflexivity.
  - reflexivity.
  - reflexivity.
  - intros k Hk.
    do 3 (destruct k as [|k]; [vm_compute; split; reflexivity|]). lia.
  - vm_compute. reflexivity.
Qed.

(** ** The destination index and the matcher *)

(** No key of an index is the empty string. *)
Definition keys_truthy (m : gmap pystr pystr) : Prop :=
  forall k v, m !! k = Some v -> truthy k = true.

Lemma keys_truthy_insert k v m :
  truthy k = true -> keys_truthy m -> keys_truthy (<[k := v]> m).
Proof.
  intros Hk Hm k' v' H. destruct (decide (k = k')) as [<-|Hne]; [assumption|].
  rewrite lookup_insert_ne in H by assumption. now apply Hm in H.
Qed.

Lemma index_barcodes_keys L slug bs : forall m,
  keys_truthy m -> keys_truthy (index_barcodes L slug bs m).
Proof.
  induction bs as [|b r IH]; intros m Hm; [assumption|].
  cbn [index_barcodes]. destruct (truthy (_normalize_sku L (Some b))) eqn:E; apply IH;
    [now apply keys_truthy_insert | assumption].
Qed.

Definition index_keys_truthy (idx : DestinationIndex) : Prop :=
  keys_truthy (sku_to_slug idx) /\ keys_truthy (barcode_to_slug idx).

Lemma index_row_keys L idx r :
  index_keys_truthy idx -> index_keys_truthy (index_row L idx r).
Proof.
  intros [Hs Hb]. unfold index_row, index_keys_truthy.
  cbn [sku_to_slug barcode_to_slug]. split.
  - destruct (truthy (_normalize_sku L (Some (row_sku r)))) eqn:E;
      [now apply keys_truthy_insert | assumption].
  - destruct (truthy (py_strip (row_barkod_listesi r)));
      [now apply index_barcodes_keys | assumption].
Qed.

Lemma build_index_keys L ikas_csv : index_keys_truthy (build_index L ikas_csv).
Proof.
  assert (He : index_keys_truthy empty_index).
  { split; intros k v H; cbn in H; now rewrite lookup_empty in H. }
  destruct ikas_csv as [rows|]; [|exact He]. cbn.
  revert He. generalize empty_index.
  induction rows as [|r rows IH]; intros idx Hidx; [assumption|].
  cbn. apply IH. now apply index_row_keys.
Qed.

Lemma match_product_spec idx sku barcode :
  index_keys_truthy idx ->
  match_product idx sku barcode =
  match sku_to_slug idx !! sku with
  | Some slug => (str "/urun/" ++ slug, 1%Q, str "sku")
  | None =>
      match barcode_to_slug idx !! barcode with
      | Some slug => (str "/urun/" ++ slug, 0.98%Q, str "barcode")
      | None => ([], 0%Q, str "unmatched")
      end
  end.
Proof.
  intros [Hs Hb]. unfold match_product.
  destruct (sku_to_slug idx !! sku) as [slug|] eqn:Es.
  - now rewrite (Hs _ _ Es).
  - destruct (barcode_to_slug idx !! barcode) as [slug|] eqn:Eb.
    + rewrite (Hb _ _ Eb). now destruct (truthy sku).
    + now destruct (truthy sku), (truthy barcode).
Qed.

(** C1. For a crawled page of type "product", with the SKU and the barcode
    read from the page and normalised: when the SKU is a key of the SKU index
    the page is matched with confidence 1.0 and reason "sku", whatever the
    barcode index holds; otherwise, when the barcode is a key of the barcode
    index, with confidence 0.98 and reason "barcode"; otherwise the target
    path is empty, the confidence 0.0 and the reason "unmatched". *)
Theorem product_match_order (L : Lib) (W : Web) (ikas_site_url : pystr)
    (ikas_csv : option (list IkasRow)) (page : CrawlPage) :
  page_type page = str "product" ->
  let idx := build_index L ikas_csv in
  let sku := fst (fetch_sku_barcode L W (page_url page)) in
  let barcode := snd (fetch_sku_barcode L W (page_url page)) in
  let r := fst (redirect_page L W ikas_site_url idx page) in
  let d := snd (redirect_page L W ikas_site_url idx page) in
  match sku_to_slug idx !! sku with
  | Some slug =>
      r_to_url r = str "/urun/" ++ slug /\ d_to_url d = str "/urun/" ++ slug /\
      d_confidence d = 1%Q /\ d_reason d = str "sku"
  | None =>
      match barcode_to_slug idx !! barcode with
      | Some slug =>
          r_to_url r = str "/urun/" ++ slug /\ d_to_url d = str "/urun/" ++ slug /\
          d_confidence d = Qred 0.98 /\ d_reason d = str "barcode"
      | None =>
          r_to_url r = [] /\ d_to_url d = [] /\
          d_confidence d = 0%Q /\ d_reason d = str "unmatched"
      end
  end.
Proof.
  intros Ht. cbv zeta. unfold redirect_page. rewrite Ht.
  change (str_eqb (str "product") (str "product")) with true. cbv iota.
  destruct (fetch_sku_barcode L W (page_url page)) as [sku barcode]. cbn [fst snd].
  rewrite (match_product_spec _ sku barcode (build_index_keys L ikas_csv)).
  destruct (sku_to_slug (build_index L ikas_csv) !! sku) as [slug|].
  - cbn. repeat split.
  - destruct (barcode_to_slug (build_index L ikas_csv) !! barcode) as [slug|].
    + cbn. repeat split.
    + cbn. repeat split.
Qed.

(** A product page whose SKU and barcode are both in the export. *)
Definition shoe_url : pystr := str "https://a.com/urun/red-shoe".

Definition shoe_soup : Soup :=
  {| og_type_product := true; og_type_article := false;
     product_container := true; breadcrumb_nav := false;
     title_string := Some (str "Red Shoe"); og_title_content := None;
     h1_text := Some (str "Red Shoe"); anchors := []; next_elements := [];
     ld_json_scripts := [];
     find_sku := Some (str " ab-1 ");
     find_barcode := Some (str "8690000000017") |}.

Definition shoe_lib : Lib := table_lib [(str "SHOE", shoe_soup)] [].
Definition shoe_web : Web := table_web [(shoe_url, str "SHOE")].

Definition shoe_page : CrawlPage :=
  {| page_url := shoe_url; page_title := str "Red Shoe";
     page_slug := str "red-shoe"; page_type := str "product" |}.

Definition shoe_export : list IkasRow :=
  [ {| row_slug := str "kirmizi-ayakkabi"; row_sku := str "AB-1";
       row_barkod_listesi := str ""; row_isim := str "Kirmizi Ayakkabi" |};
    {| row_slug := str "mavi-sapka"; row_sku := str "CD-2";
       row_barkod_listesi := str "8690000000017;8690000000024";
       row_isim := str "Mavi Sapka" |} ].

Lemma product_match_order_witness :
  r_to_url (fst (redirect_page shoe_lib shoe_web [] (build_index shoe_lib (Some shoe_export)) shoe_page))
  = str "/urun/kirmizi-ayakkabi" /\
  d_to_url (snd (redirect_page shoe_lib shoe_web [] (build_index shoe_lib (Some shoe_export)) shoe_page))
  = str "/urun/kirmizi-ayakkabi" /\
  d_confidence (snd (redirect_page shoe_lib shoe_web [] (build_index shoe_lib (Some shoe_export)) shoe_page))
  = 1%Q /\
  d_reason (snd (redirect_page shoe_lib shoe_web [] (build_index shoe_lib (Some shoe_export)) shoe_page))
  = str "sku".
Proof.
  exact (product_match_order shoe_lib shoe_web [] (Some shoe_export) shoe_page eq_refl).
Defined.

(** What [redirect_page] reads of the index are the SKU and barcode maps. *)
Lemma redirect_page_index L W ikas_site_url idx1 idx2 page :
  sku_to_slug idx1 = sku_to_slug idx2 ->
  barcode_to_slug idx1 = barcode_to_slug idx2 ->
  redirect_page L W ikas_site_url idx1 page =
  redirect_page L W ikas_site_url idx2 page.
Proof.
  intros Hs Hb. unfold redirect_page, match_product. now rewrite Hs, Hb.
Qed.

(** C9. Two destination exports that give the same SKU index and the same
    barcode index give the same redirect row and the same diagnostic entry
    for every crawled page, and so the same rows and entries for every crawl,
    whatever their titles are: the title index is not read. *)
Theorem match_ignores_title_index (L : Lib) (W : Web) (ikas_site_url : pystr)
    (csv1 csv2 : option (list IkasRow)) :
  sku_to_slug (build_index L csv1) = sku_to_slug (build_index L csv2) ->
  barcode_to_slug (build_index L csv1) = barcode_to_slug (build_index L csv2) ->
  (forall page,
     redirect_page L W ikas_site_url (build_index L csv1) page =
     redirect_page L W ikas_site_url (build_index L csv2) page) /\
  (forall pages,
     redirects_rows L W ikas_site_url (build_index L csv1) pages =
     redirects_rows L W ikas_site_url (build_index L csv2) pages /\
     diagnostics L W ikas_site_url (build_index L csv1) pages =
     diagnostics L W ikas_site_url (build_index L csv2) pages).
Proof.
  intros Hs Hb.
  assert (H : forall page,
             redirect_page L W ikas_site_url (build_index L csv1) page =
             redirect_page L W ikas_site_url (build_index L csv2) page).
  { intros page. now apply redirect_page_index. }
  split; [exact H|]. intros pages. unfold redirects_rows, diagnostics.
  split; apply map_ext; intros page; now rewrite H.
Qed.

(** The export of the shoe shop with other titles, and one more row that has
    a title only. *)
Definition shoe_export_retitled : list IkasRow :=
  [ {| row_slug := str "kirmizi-ayakkabi"; row_sku := str "AB-1";
       row_barkod_listesi := str ""; row_isim := str "Red Shoe" |};
    {| row_slug := str "mavi-sapka"; row_sku := str "CD-2";
       row_barkod_listesi := str "8690000000017;8690000000024";
       row_isim := str "Blue Hat" |};
    {| row_slug := str "yesil-canta"; row_sku := str "";
       row_barkod_listesi := str ""; row_isim := str "Red Shoe" |} ].

Lemma match_ignores_title_index_witness :
  title_to_slug (build_index shoe_lib (Some shoe_export)) <>
  title_to_slug (build_index shoe_lib (Some shoe_export_retitled)) /\
  redirect_page shoe_lib shoe_web [] (build_index shoe_lib (Some shoe_export)) shoe_page =
  redirect_page shoe_lib shoe_web [] (build_index shoe_lib (Some shoe_export_retitled)) shoe_page.
Proof.
  split; [vm_compute; discriminate|].
  refine (proj1 (match_ignores_title_index shoe_lib shoe_web []
                   (Some shoe_export) (Some shoe_export_retitled) _ _) shoe_page);
    vm_compute; reflexivity.
Defined.

(** ** Page types *)

Definition crawler_type (t : pystr) : Prop :=
  t = str "product" \/ t = str "blog" \/ t = str "category" \/ t = str "page".

Definition crawler_reason (r : pystr) : Prop :=
  r = str "sku" \/ r = str "barcode" \/ r = str "unmatched" \/
  r = str "category" \/ r = str "blog" \/ r = str "page".

Lemma _determine_page_type_values L url soup :
  crawler_type (_determine_page_type L url soup).
Proof.
  unfold _determine_page_type, crawler_type.
  repeat match goal with
         | |- context [if ?b then _ else _] => destruct b
         end; tauto.
Qed.

Section PageTypes.
Context (L : Lib) (W : Web) (start_url start_html : pystr) (max_pages : Z).

Definition typed_pages (st : CrawlState) : Prop :=
  Forall (fun p => crawler_type (page_type p)) (all_pages st).

Lemma typed_pages_body st :
  loop_guard max_pages st = true -> typed_pages st ->
  typed_pages (loop_body L W start_url start_html st).
Proof.
  intros Hg Hp. destruct (loop_guard_queue _ _ Hg) as (_ & current & rest & Hq).
  unfold typed_pages.
  destruct (loop_body_cases L W start_url start_html st current rest Hq)
    as [(_ & _ & -> & _) | (_ & _ & _ & _ & _ & [-> | (soup & t & s & ->)])];
    try assumption.
  apply List.Forall_app. split; [assumption|].
  constructor; [apply _determine_page_type_values | constructor].
Qed.

Lemma loop_runs_typed_pages st :
  loop_runs L W start_url start_html max_pages (crawl_init start_url) st ->
  typed_pages st.
Proof.
  intros Hrun.
  apply (loop_runs_invariant L W start_url start_html max_pages typed_pages
           typed_pages_body _ _ Hrun).
  constructor.
Qed.
End PageTypes.

Lemma find_all_page_links_types L W start_url max_pages :
  Forall (fun p => crawler_type (page_type p))
         (find_all_page_links L W start_url max_pages).
Proof.
  unfold find_all_page_links.
  destruct (crawl L W start_url max_pages) as [st|] eqn:Hc; [|constructor].
  destruct (crawl_some _ _ _ _ _ Hc) as (h & _ & _ & Hrun).
  exact (loop_runs_typed_pages L W start_url h max_pages st Hrun).
Qed.

Lemma redirect_page_reason L W ikas_site_url idx page :
  crawler_type (page_type page) ->
  crawler_reason (d_reason (snd (redirect_page L W ikas_site_url idx page))).
Proof.
  unfold crawler_type, crawler_reason, redirect_page.
  intros [-> | [-> | [-> | ->]]].
  - change (str_eqb (str "product") (str "product")) with true. cbv iota.
    destruct (fetch_sku_barcode L W (page_url page)) as [sku barcode].
    unfold match_product.
    destruct (if truthy sku then _ else _); [cbn; tauto|].
    destruct (if truthy barcode then _ else _); cbn; tauto.
  - cbn. tauto.
  - cbn. tauto.
  - cbn. tauto.
Qed.

Lemma _determine_page_type_call_cases L url soup :
  (urlparse_raises L (str_lower L url) = false ->
   exists t, _determine_page_type_call L url soup = Returns t /\ crawler_type t) /\
  (urlparse_raises L (str_lower L url) = true ->
   _determine_page_type_call L url soup = Raises).
Proof.
  unfold _determine_page_type_call.
  destruct (urlparse_raises L (str_lower L url)); split; try discriminate.
  - reflexivity.
  - intros _. eexists. split; [reflexivity|]. apply _determine_page_type_values.
Qed.


(** C10, as the code has it.  On a URL whose lowered form [urlparse] accepts,
    [_determine_page_type] returns "product", "blog", "category" or "page",
    whatever the document; on a URL whose lowered form [urlparse] rejects it
    raises and returns nothing.  Every page of a crawl that returns has a
    type that [_determine_page_type] returned for its URL, hence one of the
    four, and every diagnostic entry built from these pages has one of the
    reasons sku, barcode, unmatched, category, blog, page: the branch that
    assigns "non_product" is not taken. *)
Theorem page_types_and_reasons (L : Lib) :
  (forall url soup,
     urlparse_raises L (str_lower L url) = false ->
     exists t, _determine_page_type_call L url soup = Returns t /\ crawler_type t) /\
  (forall url soup,
     urlparse_raises L (str_lower L url) = true ->
     _determine_page_type_call L url soup = Raises) /\
  (forall W start_url max_pages result,
     find_all_page_links_call L W start_url max_pages = Returns result ->
     Forall (fun p =>
               crawler_type (page_type p) /\
               exists soup,
                 _determine_page_type_call L (page_url p) soup
                 = Returns (page_type p))
            result /\
     forall W' ikas_site_url idx,
       Forall (fun d => crawler_reason (d_reason d) /\
                        d_reason d <> str "non_product")
              (diagnostics L W' ikas_site_url idx result)).
Proof.
  split; [intros url soup; apply _determine_page_type_call_cases|].
  split; [intros url soup; apply _determine_page_type_call_cases|].
  intros W start_url max_pages result Hres.
  assert (Ht : Forall (fun p => crawler_type (page_type p)) result).
  { eapply List.Forall_impl;
      [|apply (find_all_page_links_call_classified _ _ _ _ _ Hres)].
    intros p (_ & soup & Hp). cbv beta. unfold _determine_page_type_call in Hp.
    destruct (urlparse_raises L (str_lower L (page_url p))); [discriminate|].
    injection Hp as <-. apply _determine_page_type_values. }
  split.
  { apply List.Forall_forall. intros p Hin. split.
    - now apply (proj1 (List.Forall_forall _ _) Ht).
    - pose proof (find_all_page_links_call_classified _ _ _ _ _ Hres) as Hc.
      now apply (proj1 (List.Forall_forall _ _) Hc p Hin). }
  intros W' ikas_site_url idx. unfold diagnostics.
  apply List.Forall_map.
  eapply List.Forall_impl; [|exact Ht].
  intros page Hp. cbv beta.
  pose proof (redirect_page_reason L W' ikas_site_url idx page Hp) as Hr.
  split; [assumption|].
  intros He. rewrite He in Hr. unfold crawler_reason in Hr.
  repeat destruct Hr as [Hr|Hr]; discriminate Hr.
Qed.


(** C10, as stated, fails: on the URL [http://[] the call at line 139 raises
    "Invalid IPv6 URL", so [_determine_page_type] returns none of the four
    values. *)
Lemma _determine_page_type_raises :
  _determine_page_type_call (table_lib [] []) (str "http://[") empty_soup = Raises.
Proof. reflexivity. Qed.

(** ** The redirect file *)

Definition blog_page : CrawlPage :=
  {| page_url := str "https://a.com/blog/yeni-sezon";
     page_title := str "Yeni Sezon"; page_slug := str "yeni-sezon";
     page_type := str "blog" |}.

Definition home_page : CrawlPage :=
  {| page_url := str "https://a.com"; page_title := str "Home";
     page_slug := str "home"; page_type := str "page" |}.

(** Three columns of the file are constant. *)
Lemma ikas301_constant_columns L redirects :
  Forall (fun row => ID row = [] /\ Gecici_Yonlendirme_302 row = str "false" /\
                     Silindi_mi row = str "false")
         (ikas301 L redirects).
Proof.
  unfold ikas301. apply List.Forall_map. apply List.Forall_forall.
  intros r _. cbn. tauto.
Qed.

(** C8 at a blog page, the home page and a matched product page.  The
    target paths assigned are [/blog/yeni-sezon], [/pages/home] and
    [/urun/kirmizi-ayakkabi]; the rows of the file hold [/yeni-sezon],
    [/home] and [/kirmizi-ayakkabi], the last segment only, and the source
    column of the home page, whose URL has an empty path, is empty. *)
Theorem ikas301_target_column :
  map r_to_url
    (redirects_rows shoe_lib shoe_web [] (build_index shoe_lib (Some shoe_export))
       [blog_page; home_page; shoe_page])
  = [str "/blog/yeni-sezon"; str "/pages/home"; str "/urun/kirmizi-ayakkabi"] /\
  ikas301 shoe_lib
    (redirects_rows shoe_lib shoe_web [] (build_index shoe_lib (Some shoe_export))
       [blog_page; home_page; shoe_page])
  = [ {| ID := []; Kaynak_Adres := str "/blog/yeni-sezon";
         Yonlendirilecek_Adres := str "/yeni-sezon";
         Gecici_Yonlendirme_302 := str "false"; Silindi_mi := str "false" |};
      {| ID := []; Kaynak_Adres := [];
         Yonlendirilecek_Adres := str "/home";
         Gecici_Yonlendirme_302 := str "false"; Silindi_mi := str "false" |};
      {| ID := []; Kaynak_Adres := str "/urun/red-shoe";
         Yonlendirilecek_Adres := str "/kirmizi-ayakkabi";
         Gecici_Yonlendirme_302 := str "false"; Silindi_mi := str "false" |} ].
Proof. split; vm_compute; reflexivity. Qed.

(** ** Structured data *)

(** The test of the second loop on the candidate's own [@type]. *)
Definition own_product (L : Lib) (node : pydict) : bool :=
  type_is_product L
    (json_or (dict_get (str "@type") node) (dict_get (str "@type") node)).

(** What the inner loop finds in the candidate's [@graph]. *)
Definition node_graph_product (L : Lib) (node : pydict) : option pydict :=
  match dict_lookup (str "@graph") node with
  | Some (JList graph) => graph_product L graph
  | _ => None
  end.

(** The last [@graph] match among the candidates, [acc] when there is none. *)
Definition last_graph_product (L : Lib) (acc : option pydict)
    (candidates : list pydict) : option pydict :=
  fold_left (fun acc node =>
               match node_graph_product L node with
               | Some sub => Some sub
               | None => acc
               end) candidates acc.

(** What the second loop selects: the first candidate whose own type is
    Product when there is one, whatever was found in a [@graph] before it;
    otherwise the last [@graph] match. *)
Lemma select_product_node_spec L candidates : forall acc,
  select_product_node L acc candidates =
  match List.find (own_product L) candidates with
  | Some node => Some node
  | None => last_graph_product L acc candidates
  end.
Proof.
  induction candidates as [|node rest IH]; intros acc; [reflexivity|].
  cbn [select_product_node List.find]. fold (own_product L node).
  destruct (own_product L node); [reflexivity|].
  unfold last_graph_product. cbn [fold_left]. unfold node_graph_product.
  destruct (dict_lookup (str "@graph") node) as [[| | | |graph|]|];
    try apply IH.
  destruct (graph_product L graph); apply IH.
Qed.

(** Two scripts: a [@graph] that holds the product A, then the product B. *)
Definition product_A : pydict :=
  [(str "@type", JStr (str "Product")); (str "name", JStr (str "A"))].
Definition product_B : pydict :=
  [(str "@type", JStr (str "Product")); (str "name", JStr (str "B"))].
Definition product_C : pydict :=
  [(str "@type", JList [JStr (str "Product")]); (str "name", JStr (str "C"))].

Definition ld_scripts : list (pystr * json) :=
  [ (str "graph-A", JDict [(str "@graph", JList [JDict product_A])]);
    (str "B", JDict product_B);
    (str "graph-C", JDict [(str "@graph", JList [JDict product_C])]);
    (str "page", JDict [(str "@type", JStr (str "WebPage"))]) ].

Definition ld_lib : Lib := table_lib [] ld_scripts.

Definition soup_with (scripts : list pystr) : Soup :=
  {| og_type_product := false; og_type_article := false;
     product_container := false; breadcrumb_nav := false;
     title_string := None; og_title_content := None; h1_text := None;
     anchors := []; next_elements := []; ld_json_scripts := scripts;
     find_sku := None; find_barcode := None |}.

(** C6 at three documents.  With the [@graph] of A in front of B the node B
    is selected, not A; with the [@graph] of A in front of the [@graph] of a
    second product the second one is selected; and a node inside a [@graph]
    whose type is the list ["Product"] is not found at all. *)
Theorem parse_ld_json_product_later_node :
  ld_name (parse_ld_json_product ld_lib (soup_with [str "graph-A"; str "B"]) shop_home)
  = Some (str "B") /\
  select_product_node ld_lib None
    [[(str "@graph", JList [JDict product_A])];
     [(str "@graph", JList [JDict product_B])]] = Some product_B /\
  parse_ld_json_product ld_lib (soup_with [str "graph-C"]) shop_home
  = JsonLdProduct_default.
Proof. repeat split; vm_compute; reflexivity. Qed.

(** [json.loads] accepts the text. *)
Definition parses (L : Lib) (raw : pystr) : bool :=
  match json_loads L raw with Some _ => true | None => false end.

(** The document with other ld+json scripts. *)
Definition set_scripts (soup : Soup) (scripts : list pystr) : Soup :=
  {| og_type_product := og_type_product soup;
     og_type_article := og_type_article soup;
     product_container := product_container soup;
     breadcrumb_nav := breadcrumb_nav soup;
     title_string := title_string soup;
     og_title_content := og_title_content soup;
     h1_text := h1_text soup; anchors := anchors soup;
     next_elements := next_elements soup; ld_json_scripts := scripts;
     find_sku := find_sku soup; find_barcode := find_barcode soup |}.

Lemma script_candidates_malformed L raw :
  parses L raw = false -> script_candidates L raw = [].
Proof.
  unfold parses, script_candidates. intros H.
  destruct (json_loads L raw); [discriminate|].
  now destruct (negb (truthy (py_strip raw))).
Qed.

Lemma flat_map_filter {A B} (f : A -> bool) (g : A -> list B) l :
  (forall x, f x = false -> g x = []) ->
  flat_map g (List.filter f l) = flat_map g l.
Proof.
  intros H. induction l as [|x l IH]; [reflexivity|].
  cbn. destruct (f x) eqn:E; cbn; [now rewrite IH|].
  now rewrite (H _ E), IH.
Qed.

Lemma last_graph_product_none L candidates :
  Forall (fun node => node_graph_product L node = None) candidates ->
  last_graph_product L None candidates = None.
Proof.
  unfold last_graph_product.
  induction 1 as [|node rest Hn _ IH]; [reflexivity|].
  cbn. now rewrite Hn.
Qed.

(** C7. [parse_ld_json_product] is a total function to [JsonLdProduct]: it
    has no error result.  The scripts that [json.loads] rejects do not count:
    the result is the result for the document without them.  And when no
    candidate has Product as its own type or in its [@graph], the result is
    the record with every field absent. *)
Theorem parse_ld_json_product_total (L : Lib) (soup : Soup) (base_url : pystr) :
  parse_ld_json_product L soup base_url =
  parse_ld_json_product L
    (set_scripts soup (List.filter (parses L) (ld_json_scripts soup))) base_url /\
  (Forall (fun node => own_product L node = false /\
                       node_graph_product L node = None)
          (collect_candidates L soup) ->
   parse_ld_json_product L soup base_url = JsonLdProduct_default).
Proof.
  split.
  - unfold parse_ld_json_product, collect_candidates. cbn [ld_json_scripts set_scripts].
    now rewrite (flat_map_filter _ _ _ (script_candidates_malformed L)).
  - intros H. unfold parse_ld_json_product.
    rewrite select_product_node_spec.
    assert (Hf : List.find (own_product L) (collect_candidates L soup) = None).
    { induction H as [|node rest [Ho _] _ IH]; [reflexivity|].
      cbn. now rewrite Ho. }
    rewrite Hf, last_graph_product_none; [reflexivity|].
    eapply List.Forall_impl; [|exact H]. now intros node [_ Hg].
Qed.

Lemma parse_ld_json_product_total_witness :
  parse_ld_json_product ld_lib (soup_with [str "broken"; str "page"]) shop_home
  = JsonLdProduct_default.
Proof.
  apply (proj2 (parse_ld_json_product_total ld_lib
                  (soup_with [str "broken"; str "page"]) shop_home)).
  vm_compute. repeat constructor.
Defined.

(** * Further properties of the code *)

(** ** Price parsing: what the text may hold besides the number *)

Lemma price_char_values c :
  price_char c = true ->
  c = 44 \/ c = 45 \/ c = 46 \/ c = 48 \/ c = 49 \/ c = 50 \/ c = 51 \/
  c = 52 \/ c = 53 \/ c = 54 \/ c = 55 \/ c = 56 \/ c = 57.
Proof.
  unfold price_char, is_digit, in_range, comma, dot, hyphen. intros H.
  repeat (apply orb_true_iff in H as [H|H]).
  - apply andb_true_iff in H as [H1 H2].
    apply N.leb_le in H1, H2. lia.
  - apply N.eqb_eq in H. lia.
  - apply N.eqb_eq in H. lia.
  - apply N.eqb_eq in H. lia.
Qed.

Lemma space_not_price c : py_isspace c = true -> price_char c = false.
Proof.
  intros Hs. destruct (price_char c) eqn:Hp; [|reflexivity].
  apply price_char_values in Hp.
  repeat (destruct Hp as [Hp|Hp]; [subst c; discriminate Hs|]).
  subst c. discriminate Hs.
Qed.

Lemma PRICE_CLEAN_strip t : PRICE_CLEAN (py_strip t) = PRICE_CLEAN t.
Proof.
  unfold PRICE_CLEAN, py_strip.
  destruct (strip_by_split py_isspace t) as (pre & post & Ht & Hpre & Hpost).
  rewrite Ht at 2. rewrite !List.filter_app.
  rewrite (filter_none _ _ pre Hpre space_not_price).
  rewrite (filter_none _ _ post Hpost space_not_price).
  now rewrite app_nil_r.
Qed.

(** The number parsed from a cleaned text. *)
Definition price_of_clean (t : pystr) : option Q :=
  py_float
    (if has_char comma t && has_char dot t then
       replace_char comma dot (remove_char dot t)
     else if has_char comma t && (count_char comma t =? 1)%nat
             && ((length (last_field (split_char comma t)) =? 1)%nat
                 || (length (last_field (split_char comma t)) =? 2)%nat) then
       replace_char comma dot t
     else remove_char comma t).

Lemma clean_price_of_clean text :
  clean_price_to_number (Some text) = price_of_clean (PRICE_CLEAN text).
Proof.
  destruct (truthy (py_strip text)) eqn:Hs.
  - rewrite (clean_price_unfold _ Hs). cbv zeta. now rewrite PRICE_CLEAN_strip.
  - rewrite <- PRICE_CLEAN_strip.
    assert (He : py_strip text = []) by now destruct (py_strip text).
    rewrite He. unfold clean_price_to_number.
    destruct (truthy text); cbn [negb]; [|reflexivity].
    rewrite Hs. reflexivity.
Qed.

(** X1. The parsed price depends on the digits, commas, dots and minus signs of
    the text only: currency words, spaces and any other characters around or
    between them do not change it. *)
Theorem clean_price_ignores_other_characters (text1 text2 : pystr) :
  PRICE_CLEAN text1 = PRICE_CLEAN text2 ->
  clean_price_to_number (Some text1) = clean_price_to_number (Some text2).
Proof. intros H. now rewrite !clean_price_of_clean, H. Qed.

Lemma clean_price_ignores_other_characters_witness :
  clean_price_to_number (Some (str "Fiyat: 1.234,56 TL")) =
  clean_price_to_number (Some (str "1.234,56")).
Proof.
  apply clean_price_ignores_other_characters. reflexivity.
Defined.

Lemma span_digits_nil s :
  fst (span_digits s) = [] -> s = [] \/ exists c r, s = c :: r /\ is_digit c = false.
Proof.
  destruct s as [|c r]; [now left|]. cbn.
  destruct (is_digit c) eqn:E; [|right; eauto].
  destruct (span_digits r). discriminate.
Qed.

Lemma py_float_needs_digit t :
  forallb (fun c => negb (is_digit c)) t = true -> py_float t = None.
Proof.
  intros H. unfold py_float.
  assert (Hspan : forall s, forallb (fun c => negb (is_digit c)) s = true ->
                            span_digits s = ([], s)).
  { intros [|c r] Hs; [reflexivity|]. cbn in *.
    apply andb_true_iff in Hs as [Hc _]. apply negb_true_iff in Hc. now rewrite Hc. }
  assert (Hfrac : forall fp, forallb (fun c => negb (is_digit c)) fp = true ->
                             forallb is_digit fp && truthy fp = false).
  { intros [|c r] Hs; [reflexivity|]. cbn in *.
    apply andb_true_iff in Hs as [Hc _]. apply negb_true_iff in Hc. now rewrite Hc. }
  destruct t as [|c r]; [reflexivity|].
  cbn [forallb] in H. apply andb_true_iff in H as [Hc Hr].
  destruct (c =? hyphen) eqn:Eh.
  - rewrite (Hspan r Hr). destruct r as [|d fp]; [reflexivity|].
    cbn [forallb] in Hr. apply andb_true_iff in Hr as [_ Hfp].
    cbn [truthy orb]. specialize (Hfrac fp Hfp).
    destruct (d =? dot); cbn [andb]; [|reflexivity].
    now rewrite Hfrac.
  - rewrite (Hspan (c :: r)); [|cbn; now rewrite Hc, Hr].
    cbn [truthy orb]. specialize (Hfrac r Hr).
    destruct (c =? dot); cbn [andb]; [|reflexivity].
    now rewrite Hfrac.
Qed.

Lemma no_digit_filter (f : N -> bool) t :
  forallb (fun c => negb (is_digit c)) t = true ->
  forallb (fun c => negb (is_digit c)) (List.filter f t) = true.
Proof.
  induction t as [|c r IH]; [reflexivity|]. cbn. intros H.
  apply andb_true_iff in H as [Hc Hr]. destruct (f c); cbn; [rewrite Hc|]; now apply IH.
Qed.

Lemma no_digit_replace a t :
  forallb (fun c => negb (is_digit c)) t = true ->
  forallb (fun c => negb (is_digit c)) (replace_char a dot t) = true.
Proof.
  unfold replace_char.
  induction t as [|c r IH]; [reflexivity|]. cbn. intros H.
  apply andb_true_iff in H as [Hc Hr]. rewrite (IH Hr), andb_true_r.
  now destruct (a =? c).
Qed.

(** X2. A text without a digit has no price: the result is absent, not zero. *)
Theorem clean_price_without_digit (text : pystr) :
  forallb (fun c => negb (is_digit c)) text = true ->
  clean_price_to_number (Some text) = None.
Proof.
  intros H. rewrite clean_price_of_clean. unfold price_of_clean.
  apply py_float_needs_digit.
  pose proof (no_digit_filter price_char text H) as Hc. fold (PRICE_CLEAN text) in Hc.
  repeat match goal with |- context [if ?b then _ else _] => destruct b end.
  - apply no_digit_replace. now apply no_digit_filter.
  - now apply no_digit_replace.
  - now apply no_digit_filter.
Qed.

Lemma clean_price_without_digit_witness :
  clean_price_to_number (Some (str "Fiyat sorunuz, -.")) = None.
Proof. apply clean_price_without_digit. reflexivity. Defined.

(** ** Price parsing: the value of the two Turkish formats *)

Definition all_digits (s : pystr) : bool := forallb is_digit s.

Lemma digit_facts c :
  is_digit c = true ->
  price_char c = true /\ (dot =? c) = false /\ (comma =? c) = false /\
  (c =? hyphen) = false.
Proof.
  intros H. unfold price_char. rewrite H. split; [reflexivity|].
  unfold is_digit, in_range in H. apply andb_true_iff in H as [H1 H2].
  apply N.leb_le in H1, H2. unfold dot, comma, hyphen.
  repeat split; apply N.eqb_neq; lia.
Qed.

Lemma all_digits_cons c r :
  all_digits (c :: r) = true -> is_digit c = true /\ all_digits r = true.
Proof. unfold all_digits. cbn [forallb]. apply andb_true_iff. Qed.

Lemma digits_filter (f : N -> bool) s :
  (forall c, is_digit c = true -> f c = true) ->
  all_digits s = true -> List.filter f s = s.
Proof.
  intros Hf. induction s as [|c r IH]; [reflexivity|]. intros H.
  apply all_digits_cons in H as [Hc Hr]. cbn [List.filter].
  now rewrite (Hf _ Hc), (IH Hr).
Qed.

Lemma digits_replace s : all_digits s = true -> replace_char comma dot s = s.
Proof.
  unfold replace_char. induction s as [|c r IH]; [reflexivity|]. intros H.
  apply all_digits_cons in H as [Hc Hr]. cbn [map].
  destruct (digit_facts c Hc) as (_ & _ & -> & _). now rewrite (IH Hr).
Qed.

Lemma digits_no_char ch s :
  (forall c, is_digit c = true -> (ch =? c) = false) ->
  all_digits s = true -> ~ In ch s.
Proof.
  intros Hch. induction s as [|c r IH]; [tauto|]. intros H.
  apply all_digits_cons in H as [Hc Hr]. intros [Heq|Hin]; [|now apply IH].
  subst. specialize (Hch _ Hc). now rewrite N.eqb_refl in Hch.
Qed.

Lemma span_digits_app a x r :
  all_digits a = true -> is_digit x = false ->
  span_digits (a ++ x :: r) = (a, x :: r).
Proof.
  intros Ha Hx. induction a as [|c a IH]; cbn [app span_digits].
  - now rewrite Hx.
  - apply all_digits_cons in Ha as [Hc Ha]. now rewrite Hc, (IH Ha).
Qed.

Lemma span_digits_all a : all_digits a = true -> span_digits a = (a, []).
Proof.
  induction a as [|c a IH]; [reflexivity|]. intros H.
  apply all_digits_cons in H as [Hc Ha]. cbn [span_digits].
  now rewrite Hc, (IH Ha).
Qed.

Lemma py_float_decimal a b :
  all_digits a = true -> all_digits b = true -> truthy a = true ->
  py_float (a ++ dot :: b) = Some (decimal false a b).
Proof.
  intros Ha Hb Hne. unfold py_float.
  destruct a as [|c a]; [discriminate|]. cbn [app].
  assert (Hc : (c =? hyphen) = false).
  { apply all_digits_cons in Ha as [Hc _]. now apply digit_facts in Hc. }
  rewrite Hc. change (c :: a ++ dot :: b) with ((c :: a) ++ dot :: b).
  rewrite (span_digits_app (c :: a) dot b Ha eq_refl).
  rewrite N.eqb_refl. fold (all_digits b). now rewrite Hb.
Qed.

Lemma py_float_integer a :
  all_digits a = true -> truthy a = true ->
  py_float a = Some (decimal false a []).
Proof.
  intros Ha Hne. unfold py_float.
  destruct a as [|c a]; [discriminate|].
  assert (Hc : (c =? hyphen) = false).
  { pose proof Ha as Ha'. apply all_digits_cons in Ha' as [Hc _].
    now apply digit_facts in Hc. }
  rewrite Hc, (span_digits_all _ Ha). reflexivity.
Qed.

Lemma all_digits_app a b :
  all_digits (a ++ b) = all_digits a && all_digits b.
Proof. apply forallb_app. Qed.

Lemma PRICE_CLEAN_id s :
  forallb price_char s = true -> PRICE_CLEAN s = s.
Proof.
  unfold PRICE_CLEAN. induction s as [|c r IH]; [reflexivity|]. cbn. intros H.
  apply andb_true_iff in H as [Hc Hr]. now rewrite Hc, (IH Hr).
Qed.

Lemma digits_price_chars s : all_digits s = true -> forallb price_char s = true.
Proof.
  induction s as [|c r IH]; [reflexivity|]. intros H.
  apply all_digits_cons in H as [Hc Hr]. cbn [forallb].
  destruct (digit_facts c Hc) as (-> & _). now apply IH.
Qed.

(** X3. A comma followed by one or two digits is the decimal point, a comma
    followed by three or more digits is a thousands separator, and with a
    dot among the integer digits the dot is the thousands separator and the
    comma the decimal point: [a,b] is [a.b], [a,bbb] is the integer [abbb],
    and [a.b,c] is [ab.c]. *)
Theorem clean_price_value (a b c : pystr) :
  all_digits a = true -> all_digits b = true -> all_digits c = true ->
  truthy a = true ->
  ((length b = 1 \/ length b = 2)%nat ->
   clean_price_to_number (Some (a ++ comma :: b)) = Some (decimal false a b)) /\
  ((3 <= length b)%nat ->
   clean_price_to_number (Some (a ++ comma :: b)) = Some (decimal false (a ++ b) [])) /\
  clean_price_to_number (Some (a ++ dot :: b ++ comma :: c))
  = Some (decimal false (a ++ b) c).
Proof.
  intros Ha Hb Hc Hne.
  assert (Hna : ~ In comma a) by (apply digits_no_char; [|assumption];
    intros x Hx; now apply digit_facts in Hx).
  assert (Hnb : ~ In comma b) by (apply digits_no_char; [|assumption];
    intros x Hx; now apply digit_facts in Hx).
  assert (Hda : ~ In dot a) by (apply digits_no_char; [|assumption];
    intros x Hx; now apply digit_facts in Hx).
  assert (Hdb : ~ In dot b) by (apply digits_no_char; [|assumption];
    intros x Hx; now apply digit_facts in Hx).
  assert (Hclean : PRICE_CLEAN (a ++ comma :: b) = a ++ comma :: b).
  { apply PRICE_CLEAN_id. rewrite forallb_app. cbn [forallb].
    change (price_char comma) with true.
    now rewrite !digits_price_chars. }
  assert (Hnodot : has_char dot (a ++ comma :: b) = false).
  { apply has_char_false. intros H. apply in_app_or in H as [H|[H|H]];
      [tauto | discriminate | tauto]. }
  assert (Hrep : replace_char comma dot (a ++ comma :: b) = a ++ dot :: b).
  { unfold replace_char. rewrite map_app. cbn [map]. rewrite N.eqb_refl.
    fold (replace_char comma dot a). fold (replace_char comma dot b).
    now rewrite !digits_replace. }
  split; [|split].
  - intros Hlen. rewrite clean_price_of_clean, Hclean. unfold price_of_clean.
    rewrite Hnodot, andb_false_r.
    assert (Hone : one_decimal_comma (a ++ comma :: b)) by (exists a, b; tauto).
    apply decimal_comma_test in Hone. rewrite Hone, Hrep.
    now apply py_float_decimal.
  - intros Hlen. rewrite clean_price_of_clean, Hclean. unfold price_of_clean.
    rewrite Hnodot, andb_false_r.
    rewrite last_field_split by assumption.
    assert (Hl : ((length b =? 1)%nat || (length b =? 2)%nat) = false).
    { apply orb_false_iff. split; apply Nat.eqb_neq; lia. }
    rewrite Hl, andb_false_r.
    assert (Hrem : remove_char comma (a ++ comma :: b) = a ++ b).
    { unfold remove_char. rewrite List.filter_app. cbn [List.filter].
      rewrite N.eqb_refl. cbn [negb].
      rewrite !digits_filter; try assumption; try reflexivity;
        intros x Hx; apply digit_facts in Hx as (_ & _ & -> & _); reflexivity. }
    rewrite Hrem. apply py_float_integer.
    + now rewrite all_digits_app, Ha, Hb.
    + now destruct a.
  - rewrite clean_price_of_clean.
    assert (Hcl : PRICE_CLEAN (a ++ dot :: b ++ comma :: c) = a ++ dot :: b ++ comma :: c).
    { apply PRICE_CLEAN_id. rewrite forallb_app. cbn [forallb].
      rewrite forallb_app. cbn [forallb].
      change (price_char comma) with true. change (price_char dot) with true.
      now rewrite !digits_price_chars. }
    rewrite Hcl. unfold price_of_clean.
    assert (H1 : has_char comma (a ++ dot :: b ++ comma :: c) = true).
    { apply has_char_In, in_or_app. right. right. apply in_or_app. right. now left. }
    assert (H2 : has_char dot (a ++ dot :: b ++ comma :: c) = true).
    { apply has_char_In, in_or_app. right. now left. }
    rewrite H1, H2. cbn [andb].
    assert (Hrem : remove_char dot (a ++ dot :: b ++ comma :: c) = a ++ b ++ comma :: c).
    { unfold remove_char. rewrite List.filter_app. cbn [List.filter].
      rewrite N.eqb_refl. cbn [negb]. rewrite List.filter_app. cbn [List.filter].
      change (negb (dot =? comma)) with true. cbv iota.
      rewrite !digits_filter; try assumption; try reflexivity;
        intros x Hx; apply digit_facts in Hx as (_ & -> & _); reflexivity. }
    rewrite Hrem.
    assert (Hrep2 : replace_char comma dot (a ++ b ++ comma :: c) = (a ++ b) ++ dot :: c).
    { unfold replace_char. rewrite !map_app. cbn [map]. rewrite N.eqb_refl.
      fold (replace_char comma dot a). fold (replace_char comma dot b).
      fold (replace_char comma dot c).
      rewrite !digits_replace by assumption. now rewrite <- app_assoc. }
    rewrite Hrep2. apply py_float_decimal.
    + now rewrite all_digits_app, Ha, Hb.
    + assumption.
    + now destruct a.
Qed.

Lemma clean_price_value_witness :
  clean_price_to_number (Some (str "12,5")) = Some (decimal false (str "12") (str "5")) /\
  clean_price_to_number (Some (str "12,500")) = Some (decimal false (str "12500") []) /\
  clean_price_to_number (Some (str "1.234,56")) = Some (decimal false (str "1234") (str "56")).
Proof.
  pose proof (clean_price_value (str "12") (str "5") (str "")
                eq_refl eq_refl eq_refl eq_refl) as (H1 & _ & _).
  pose proof (clean_price_value (str "12") (str "500") (str "")
                eq_refl eq_refl eq_refl eq_refl) as (_ & H2 & _).
  pose proof (clean_price_value (str "1") (str "234") (str "56")
                eq_refl eq_refl eq_refl eq_refl) as (_ & _ & H3).
  split; [apply H1; left; reflexivity|].
  split; [apply H2; cbn; lia | exact H3].
Defined.

(** ** Title and SKU normalisation *)

(** The only white space is the space character, and no two in a row; with
    [prev], none in front either. *)
Fixpoint single_spaces (prev : bool) (s : pystr) : bool :=
  match s with
  | [] => true
  | c :: r =>
      if py_isspace c then (c =? 32) && negb prev && single_spaces true r
      else single_spaces false r
  end.

Lemma single_spaces_weaken s : single_spaces true s = true -> single_spaces false s = true.
Proof.
  destruct s as [|c r]; cbn; [tauto|].
  destruct (py_isspace c); [|tauto]. rewrite andb_false_r. discriminate.
Qed.

Lemma single_spaces_suffix a : forall b s,
  single_spaces b (a ++ s) = true -> single_spaces false s = true.
Proof.
  induction a as [|c a IH]; intros b s H.
  - destruct b; [now apply single_spaces_weaken | assumption].
  - cbn in H. destruct (py_isspace c).
    + apply andb_true_iff in H as [_ H]. now apply IH in H.
    + now apply IH in H.
Qed.

Lemma single_spaces_prefix a : forall b s,
  single_spaces b (a ++ s) = true -> single_spaces b a = true.
Proof.
  induction a as [|c a IH]; intros b s H; [reflexivity|].
  cbn in *. destruct (py_isspace c).
  - apply andb_true_iff in H as [Hb H]. rewrite Hb. now apply IH in H.
  - now apply IH in H.
Qed.

Lemma single_spaces_no_double a : forall b s,
  single_spaces b (a ++ 32 :: 32 :: s) = false.
Proof.
  induction a as [|c a IH]; intros b s.
  - cbn. now rewrite andb_false_r.
  - cbn. rewrite !IH. rewrite andb_false_r. now destruct (py_isspace c).
Qed.

Lemma single_spaces_only_space a : forall b c s,
  single_spaces b (a ++ c :: s) = true -> py_isspace c = true -> c = 32.
Proof.
  induction a as [|d a IH]; intros b c s H Hc.
  - cbn in H. rewrite Hc in H. apply andb_true_iff in H as [H _].
    apply andb_true_iff in H as [H _]. now apply N.eqb_eq in H.
  - cbn in H. destruct (py_isspace d).
    + apply andb_true_iff in H as [_ H]. now apply (IH _ _ _ H).
    + now apply (IH _ _ _ H).
Qed.

Lemma sub_space_runs_single x : forall b,
  single_spaces b (sub_space_runs b x) = true.
Proof.
  induction x as [|c x IH]; intros b; [reflexivity|].
  cbn [sub_space_runs]. destruct (py_isspace c) eqn:E.
  - destruct b; [apply IH|]. cbn [single_spaces].
    change (py_isspace 32) with true. cbv iota. rewrite IH. reflexivity.
  - cbn [single_spaces]. rewrite E. apply IH.
Qed.

Lemma sub_space_runs_chars (P : N -> Prop) x : forall b,
  P 32 -> Forall P x -> Forall P (sub_space_runs b x).
Proof.
  intros b H32 Hx. revert b.
  induction Hx as [|c x Hc _ IH]; intros b; [constructor|].
  cbn. destruct (py_isspace c).
  - destruct b; [apply IH|]. constructor; [assumption | apply IH].
  - constructor; [assumption | apply IH].
Qed.

(** X4. A normalised title is made of [a-z0-9], the six Turkish lower-case
    letters and single spaces: it has no white space other than the space
    character, none in front, none at the end and no two in a row, whatever
    [str.lower] returns. *)
Theorem _normalize_title_shape (L : Lib) (value : option pystr) :
  Forall (fun c => title_char c = true /\ (py_isspace c = true -> c = 32))
         (_normalize_title L value) /\
  (forall c r, _normalize_title L value = c :: r -> py_isspace c = false) /\
  (forall r c, _normalize_title L value = r ++ [c] -> py_isspace c = false) /\
  (forall a b, _normalize_title L value <> a ++ 32 :: 32 :: b).
Proof.
  unfold _normalize_title.
  destruct value as [value|];
    [|split; [constructor|]; split; [discriminate|];
      split; intros; [now destruct r | now destruct a]].
  destruct (negb (truthy value));
    [split; [constructor|]; split; [discriminate|];
      split; intros; [now destruct r | now destruct a]|].
  set (v := map (fun c => if title_char c then c else 32) (str_lower L value)).
  assert (Hv : Forall (fun c => title_char c = true) v).
  { apply List.Forall_forall. intros c Hc. apply in_map_iff in Hc as (d & <- & _).
    destruct (title_char d) eqn:E; [assumption | reflexivity]. }
  pose proof (sub_space_runs_chars _ v false eq_refl Hv) as Hchars.
  pose proof (sub_space_runs_single v false) as Hsingle.
  unfold py_strip.
  destruct (strip_by_split py_isspace (sub_space_runs false v))
    as (pre & post & Hs & _ & _).
  set (t := strip_by py_isspace (sub_space_runs false v)) in *.
  rewrite Hs in Hchars, Hsingle.
  apply List.Forall_app in Hchars as [_ Hchars].
  apply List.Forall_app in Hchars as [Hchars _].
  apply single_spaces_suffix in Hsingle.
  apply single_spaces_prefix in Hsingle.
  split; [|split; [|split]].
  - apply List.Forall_forall. intros c Hc. split.
    + rewrite List.Forall_forall in Hchars. now apply Hchars.
    + apply in_split in Hc as (l1 & l2 & Ht). rewrite Ht in Hsingle.
      now apply (single_spaces_only_space _ _ _ _ Hsingle).
  - intros c r Ht. now apply strip_by_head in Ht.
  - intros r c Ht. unfold t, strip_by in Ht. now apply rstrip_by_last in Ht.
  - intros a b Ht. rewrite Ht in Hsingle.
    now rewrite single_spaces_no_double in Hsingle.
Qed.

Lemma filter_nonspace_strip v :
  List.filter (fun c => negb (py_isspace c)) (py_strip v) =
  List.filter (fun c => negb (py_isspace c)) v.
Proof.
  unfold py_strip.
  destruct (strip_by_split py_isspace v) as (pre & post & Hv & Hpre & Hpost).
  rewrite Hv at 2. rewrite !List.filter_app.
  assert (H : forall c, py_isspace c = true -> negb (py_isspace c) = false)
    by (intros c ->; reflexivity).
  rewrite (filter_none _ _ pre Hpre H), (filter_none _ _ post Hpost H).
  now rewrite app_nil_r.
Qed.

(** X5. SKU normalisation drops every white-space character, not only those at
    the ends: two codes that differ in white space only have the same
    normal form, and so the same entry in the index. *)
Theorem _normalize_sku_ignores_space (L : Lib) (v1 v2 : pystr) :
  truthy v1 = true -> truthy v2 = true ->
  List.filter (fun c => negb (py_isspace c)) v1 =
  List.filter (fun c => negb (py_isspace c)) v2 ->
  _normalize_sku L (Some v1) = _normalize_sku L (Some v2).
Proof.
  intros H1 H2 H. unfold _normalize_sku. rewrite H1, H2. cbn [negb].
  now rewrite !filter_nonspace_strip, H.
Qed.

Lemma _normalize_sku_ignores_space_witness :
  _normalize_sku shoe_lib (Some (str "  ab 12 - x ")) =
  _normalize_sku shoe_lib (Some (str "ab12-x")).
Proof.
  apply _normalize_sku_ignores_space; reflexivity.
Defined.

(** ** Classification: the URL decides before the document *)

(** X6. When the path of the URL holds a product, blog or category pattern, the
    page type does not depend on the document: the hints in the HTML are
    read only for a URL that matches no pattern. *)
Theorem url_pattern_decides_type (L : Lib) (url : pystr) (soup1 soup2 : Soup) :
  any_in product_patterns (url_path L (str_lower L url))
  || any_in blog_patterns (url_path L (str_lower L url))
  || any_in category_patterns (url_path L (str_lower L url)) = true ->
  _determine_page_type L url soup1 = _determine_page_type L url soup2.
Proof.
  unfold _determine_page_type. intros H.
  destruct (any_in product_patterns _); [reflexivity|].
  destruct (any_in blog_patterns _); [reflexivity|].
  destruct (any_in category_patterns _); [reflexivity | discriminate].
Qed.

Lemma url_pattern_decides_type_witness :
  _determine_page_type shoe_lib (str "https://a.com/Blog/urun-haberleri") shoe_soup =
  _determine_page_type shoe_lib (str "https://a.com/Blog/urun-haberleri") empty_soup.
Proof.
  apply url_pattern_decides_type. reflexivity.
Defined.

(** ** Link discovery *)

Lemma discover_anchors_proper L base_url hrefs : forall found,
  base_url ∉ found -> [] ∉ found ->
  (base_url ∉ discover_anchors L base_url hrefs found) /\
  ([] ∉ discover_anchors L base_url hrefs found).
Proof.
  induction hrefs as [|href r IH]; intros found Hb He; [tauto|].
  cbn [discover_anchors].
  destruct (negb (truthy href)); [now apply IH|].
  destruct (_same_domain L base_url _ && negb (_should_exclude_url L _));
    [|now apply IH].
  destruct (url_clean L _) as [clean|]; [|now apply IH].
  destruct (truthy clean) eqn:Ht; cbn [andb]; [|now apply IH].
  destruct (str_eqb clean base_url) eqn:Hq; cbn [negb]; [now apply IH|].
  unfold str_eqb in Hq. apply bool_decide_eq_false in Hq.
  apply IH.
  - intros H. apply elem_of_union in H as [H|H]; [|tauto].
    apply elem_of_singleton in H. congruence.
  - intros H. apply elem_of_union in H as [H|H]; [|tauto].
    apply elem_of_singleton in H. subst. discriminate.
Qed.

(** X7. The set of links found on a page never holds the page's own URL nor the
    empty string, and each link in it is the cleaned form of an anchor whose
    absolute URL is on the domain of the page. *)
Theorem discovered_links_proper (L : Lib) (base_url html_str : pystr) :
  (base_url ∉ fst (_discover_all_links_from_page L base_url html_str)) /\
  ([] ∉ fst (_discover_all_links_from_page L base_url html_str)) /\
  forall u, u ∈ fst (_discover_all_links_from_page L base_url html_str) ->
    exists href, In href (anchors (BeautifulSoup L html_str)) /\
      truthy href = true /\
      _same_domain L base_url (_absolute_url L base_url href) = true /\
      url_clean L (_absolute_url L base_url href) = Some u.
Proof.
  cbn [_discover_all_links_from_page fst].
  destruct (discover_anchors_proper L base_url
              (anchors (BeautifulSoup L html_str)) ∅) as [Hb He]; try set_solver.
  split; [assumption|]. split; [assumption|].
  intros u. generalize (anchors (BeautifulSoup L html_str)).
  assert (Hgen : forall hrefs found,
    u ∈ discover_anchors L base_url hrefs found ->
    u ∈ found \/
    exists href, In href hrefs /\ truthy href = true /\
      _same_domain L base_url (_absolute_url L base_url href) = true /\
      url_clean L (_absolute_url L base_url href) = Some u).
  { induction hrefs as [|href r IH]; intros found Hu; [now left|].
    cbn [discover_anchors] in Hu.
    assert (Hrest : forall f, u ∈ discover_anchors L base_url r f ->
      u ∈ f \/ exists href0, In href0 (href :: r) /\ truthy href0 = true /\
        _same_domain L base_url (_absolute_url L base_url href0) = true /\
        url_clean L (_absolute_url L base_url href0) = Some u).
    { intros f Hf. destruct (IH f Hf) as [H | (h & Hin & H)]; [now left|].
      right. exists h. split; [now right | assumption]. }
    destruct (truthy href) eqn:Ht; cbn [negb] in Hu; [|now apply Hrest].
    destruct (_same_domain L base_url (_absolute_url L base_url href)) eqn:Hd;
      cbn [andb] in Hu; [|now apply Hrest].
    destruct (negb (_should_exclude_url L (_absolute_url L base_url href)));
      [|now apply Hrest].
    destruct (url_clean L (_absolute_url L base_url href)) as [clean|] eqn:Hc;
      [|now apply Hrest].
    destruct (truthy clean && negb (str_eqb clean base_url)); [|now apply Hrest].
    destruct (Hrest _ Hu) as [H|H]; [|now right].
    apply elem_of_union in H as [H|H]; [|now left].
    apply elem_of_singleton in H. subst. right. exists href.
    split; [now left|]. tauto. }
  intros hrefs Hu. destruct (Hgen hrefs ∅ Hu) as [H|H]; [set_solver | exact H].
Qed.

(** ** The work queue *)

(** What one iteration does to the queue: it takes the first URL and appends
    URLs that are pairwise different, not in the queue and not visited. *)
Lemma loop_body_queue L W start_url start_html st current rest :
  to_visit st = current :: rest ->
  exists added,
    to_visit (loop_body L W start_url start_html st) = rest ++ added /\
    (visited (loop_body L W start_url start_html st) = visited st \/
     visited (loop_body L W start_url start_html st) = {[current]} ∪ visited st) /\
    NoDup added /\
    forall u, u ∈ added -> (u ∉ rest) /\ (u ∉ {[current]} ∪ visited st).
Proof.
  intros Hq. unfold loop_body. rewrite Hq.
  destruct (in_set current (visited st) || _should_exclude_url L current).
  { exists []. cbn. rewrite app_nil_r. split; [reflexivity|]. split; [tauto|].
    split; [constructor|]. intros u Hu. inversion Hu. }
  destruct (negb (opt_truthy _)).
  { exists []. cbn. rewrite app_nil_r. split; [reflexivity|]. split; [tauto|].
    split; [constructor|]. intros u Hu. inversion Hu. }
  destruct (_discover_all_links_from_page L current _) as [found_here next_link].
  set (visited' := {[current]} ∪ visited st).
  set (new_links := List.filter
         (fun u => negb (in_set u visited') && negb (in_list u rest))
         (elements found_here)).
  assert (Hnew : NoDup new_links).
  { unfold new_links. apply NoDup_ListNoDup, List.NoDup_filter, NoDup_ListNoDup.
    apply NoDup_elements. }
  assert (Hfresh : forall u, u ∈ new_links -> (u ∉ rest) /\ (u ∉ visited')).
  { intros u Hu. apply list_elem_of_In, filter_In in Hu as [_ Hu].
    apply andb_true_iff in Hu as [Hv Hr].
    apply negb_true_iff in Hv, Hr. unfold in_set, in_list in *.
    apply bool_decide_eq_false in Hv, Hr. tauto. }
  assert (Hplain : exists added,
            rest ++ new_links = rest ++ added /\ NoDup added /\
            forall u, u ∈ added -> (u ∉ rest) /\ (u ∉ visited')).
  { exists new_links. tauto. }
  destruct next_link as [n|]; cbn [to_visit visited];
    [|destruct Hplain as (added & ? & ? & ?); exists added; tauto].
  destruct (truthy n && negb (in_set n visited')
            && negb (in_list n (rest ++ new_links))) eqn:Hn;
    [|destruct Hplain as (added & ? & ? & ?); exists added; tauto].
  apply andb_true_iff in Hn as [Hn Hq'].
  apply andb_true_iff in Hn as [_ Hv].
  apply negb_true_iff in Hv, Hq'. unfold in_set, in_list in *.
  apply bool_decide_eq_false in Hv, Hq'.
  exists (new_links ++ [n]). rewrite <- app_assoc.
  split; [reflexivity|]. split; [now right|]. split.
  - apply NoDup_app. split; [assumption|]. split; [|apply NoDup_singleton].
    intros u Hu Hun. apply list_elem_of_singleton in Hun. subst.
    apply Hq'. apply elem_of_app. now right.
  - intros u Hu. apply elem_of_app in Hu as [Hu|Hu]; [now apply Hfresh|].
    apply list_elem_of_singleton in Hu. subst. split; [|assumption].
    intros Hr. apply Hq'. apply elem_of_app. now left.
Qed.

Section Queue.
Context (L : Lib) (W : Web) (start_url start_html : pystr) (max_pages : Z).

(** No URL is twice in the queue, and no URL of the queue is visited. *)
Definition queue_fresh (st : CrawlState) : Prop :=
  NoDup (to_visit st) /\ forall u, u ∈ to_visit st -> u ∉ visited st.

Lemma queue_fresh_body st :
  loop_guard max_pages st = true -> queue_fresh st ->
  queue_fresh (loop_body L W start_url start_html st).
Proof.
  intros Hg [Hnd Hfr].
  destruct (loop_guard_queue _ _ Hg) as (_ & current & rest & Hq).
  destruct (loop_body_queue L W start_url start_html st current rest Hq)
    as (added & Hto & Hv & Hadd & Hnew).
  rewrite Hq in Hnd, Hfr. apply NoDup_cons in Hnd as [Hcur Hrest].
  unfold queue_fresh. rewrite Hto. split.
  - apply NoDup_app. split; [assumption|]. split; [|assumption].
    intros u Hu Hua. now apply Hnew in Hua.
  - intros u Hu.
    assert (Hnot : u ∉ {[current]} ∪ visited st).
    { apply elem_of_app in Hu as [Hu|Hu]; [|now apply Hnew in Hu].
      intros H. apply elem_of_union in H as [H|H].
      - apply elem_of_singleton in H. now subst.
      - revert H. apply Hfr. now right. }
    destruct Hv as [-> | ->]; [|assumption].
    intros H. apply Hnot. apply elem_of_union. now right.
Qed.

Lemma queue_fresh_iterate n : forall st,
  queue_fresh st ->
  queue_fresh (loop_iterate L W start_url start_html max_pages n st).
Proof.
  induction n as [|n IH]; intros st Hst; [assumption|].
  cbn. destruct (loop_guard max_pages st) eqn:Hg; [|assumption].
  apply IH. now apply queue_fresh_body.
Qed.
End Queue.

(** X8. After any number of iterations of a crawl no URL is twice in the work
    queue and no URL of the queue is marked visited; so the URL taken from
    the queue has never been visited, and only the exclusion test can make
    the loop skip it. *)
Theorem queue_holds_unvisited_urls_once (L : Lib) (W : Web)
    (start_url start_html : pystr) (max_pages : Z) (n : nat) :
  NoDup (to_visit (loop_iterate L W start_url start_html max_pages n
                     (crawl_init start_url))) /\
  (forall u,
     u ∈ to_visit (loop_iterate L W start_url start_html max_pages n
                     (crawl_init start_url)) ->
     u ∉ visited (loop_iterate L W start_url start_html max_pages n
                    (crawl_init start_url))) /\
  match to_visit (loop_iterate L W start_url start_html max_pages n
                    (crawl_init start_url)) with
  | current :: _ =>
      in_set current
        (visited (loop_iterate L W start_url start_html max_pages n
                    (crawl_init start_url))) = false
  | [] => True
  end.
Proof.
  assert (Hf : queue_fresh
            (loop_iterate L W start_url start_html max_pages n
               (crawl_init start_url))).
  { apply queue_fresh_iterate. split; cbn.
    - apply NoDup_singleton.
    - intros u _. set_solver. }
  destruct Hf as [Hnd Hfr]. split; [assumption|]. split; [assumption|].
  destruct (to_visit _) as [|current rest]; [exact I|].
  unfold in_set. apply bool_decide_eq_false. apply Hfr. now left.
Qed.

(** ** One fetch and one record per URL *)

Lemma loop_body_fetch_log L W start_url start_html st current rest :
  to_visit st = current :: rest ->
  in_set current (visited st) = false ->
  _should_exclude_url L current = false ->
  fetch_log (loop_body L W start_url start_html st) =
  if str_eqb current start_url then fetch_log st else fetch_log st ++ [current].
Proof.
  intros Hq Hv Hx. unfold loop_body. rewrite Hq, Hv, Hx. cbn [orb].
  destruct (negb (opt_truthy _)); [reflexivity|].
  now destruct (_discover_all_links_from_page L current _).
Qed.

Section VisitsOnce.
Context (L : Lib) (W : Web) (start_url start_html : pystr) (max_pages : Z).

(** Every recorded page and every fetched URL is marked visited, and none
    occurs twice. *)
Definition visits_once (st : CrawlState) : Prop :=
  (forall p, In p (all_pages st) -> page_url p ∈ visited st) /\
  List.NoDup (map page_url (all_pages st)) /\
  exists log, fetch_log st = start_url :: log /\ List.NoDup log /\
              forall u, In u log -> u ∈ visited st /\ u <> start_url.

Lemma visits_once_body st :
  loop_guard max_pages st = true -> visits_once st ->
  visits_once (loop_body L W start_url start_html st).
Proof.
  intros Hg (Hp & Hnd & log & Hlog & Hndl & Hl).
  destruct (loop_guard_queue _ _ Hg) as (_ & current & rest & Hq).
  unfold visits_once.
  destruct (loop_body_cases L W start_url start_html st current rest Hq)
    as [(_ & -> & -> & _ & ->) | (Hv & Hx & Hvis & _ & _ & Ha)].
  { split; [assumption|]. split; [assumption|]. now exists log. }
  pose proof (loop_body_fetch_log L W start_url start_html st current rest Hq Hv Hx)
    as Hfl.
  rewrite Hvis, Hfl. clear Hvis Hfl.
  assert (Hnew : current ∉ visited st).
  { unfold in_set in Hv. now apply bool_decide_eq_false in Hv. }
  split; [|split].
  - destruct Ha as [-> | (soup & t & s & ->)].
    + intros p Hin. apply elem_of_union. right. now apply Hp.
    + intros p Hin. apply in_app_or in Hin as [Hin|[<-|[]]].
      * apply elem_of_union. right. now apply Hp.
      * cbn. apply elem_of_union. left. now apply elem_of_singleton.
  - destruct Ha as [-> | (soup & t & s & ->)]; [assumption|].
    rewrite map_app. cbn [map page_url].
    apply List.NoDup_app; [assumption | apply List.NoDup_cons; [tauto | apply List.NoDup_nil] |].
    intros u Hu [<-|[]]. apply in_map_iff in Hu as (p & <- & Hin).
    apply Hnew. now apply Hp.
  - unfold str_eqb. destruct (bool_decide (current = start_url)) eqn:Hs.
    + exists log. split; [assumption|]. split; [assumption|].
      intros u Hu. destruct (Hl u Hu) as [Hin Hne]. split; [|assumption].
      apply elem_of_union. now right.
    + apply bool_decide_eq_false in Hs.
      exists (log ++ [current]). rewrite Hlog. split; [reflexivity|]. split.
      * apply List.NoDup_app; [assumption | apply List.NoDup_cons; [tauto | apply List.NoDup_nil] |].
        intros u Hu [<-|[]]. apply Hnew. now apply Hl.
      * intros u Hu. apply in_app_or in Hu as [Hu|[<-|[]]].
        -- destruct (Hl u Hu) as [Hin Hne]. split; [|assumption].
           apply elem_of_union. now right.
        -- split; [|assumption]. apply elem_of_union. left.
           now apply elem_of_singleton.
Qed.

Lemma visits_once_init : visits_once (crawl_init start_url).
Proof.
  unfold visits_once, crawl_init. cbn. split; [tauto|].
  split; [apply List.NoDup_nil|].
  exists []. split; [reflexivity|]. split; [apply List.NoDup_nil | intros u []].
Qed.

Lemma loop_runs_visits_once st :
  loop_runs L W start_url start_html max_pages (crawl_init start_url) st ->
  visits_once st.
Proof.
  intros Hrun.
  apply (loop_runs_invariant L W start_url start_html max_pages visits_once
           visits_once_body _ _ Hrun visits_once_init).
Qed.
End VisitsOnce.

(** X9. No URL is fetched twice in a crawl, and no URL is recorded twice: the
    URLs handed to [fetch_html] are pairwise different, and so are the URLs
    of the pages returned. *)
Theorem crawl_fetches_each_url_once (L : Lib) (W : Web) (start_url : pystr)
    (max_pages : Z) :
  List.NoDup (map page_url (find_all_page_links L W start_url max_pages)) /\
  match crawl L W start_url max_pages with
  | Some st =>
      List.NoDup (fetch_log st) /\
      Forall (fun p => page_url p ∈ visited st) (all_pages st)
  | None => True
  end.
Proof.
  unfold find_all_page_links.
  destruct (crawl L W start_url max_pages) as [st|] eqn:Hc;
    [|split; [apply List.NoDup_nil | exact I]].
  destruct (crawl_some _ _ _ _ _ Hc) as (h & _ & _ & Hrun).
  destruct (loop_runs_visits_once L W start_url h max_pages st Hrun)
    as (Hp & Hnd & log & Hlog & Hndl & Hl).
  split; [assumption|]. split.
  - rewrite Hlog. apply List.NoDup_cons; [|assumption].
    intros Hin. now apply Hl in Hin.
  - apply List.Forall_forall. exact Hp.
Qed.

(** ** The ends of a crawl *)

(** X10. A crawl whose start URL matches the exclusion patterns, or whose budget
    is zero or negative, returns no page (the start page is fetched all the
    same, before the loop). *)
Theorem crawl_without_pages (L : Lib) (W : Web) (start_url : pystr)
    (max_pages : Z) :
  _should_exclude_url L start_url = true \/ (max_pages <= 0)%Z ->
  find_all_page_links L W start_url max_pages = [].
Proof.
  intros H. unfold find_all_page_links, crawl.
  destruct (fetch_html W start_url) as [h|]; [|reflexivity].
  destruct (negb (truthy h)); [reflexivity|].
  change {| to_visit := [start_url]; visited := ∅; all_pages := [];
            pages := 0; fetch_log := [start_url] |} with (crawl_init start_url).
  assert (Hend : all_pages (loop_iterate L W start_url h max_pages 1
                              (crawl_init start_url)) = [] /\
                 loop_guard max_pages
                   (loop_iterate L W start_url h max_pages 1
                      (crawl_init start_url)) = false).
  { cbn [loop_iterate].
    destruct (loop_guard max_pages (crawl_init start_url)) eqn:Hg;
      [|split; [reflexivity | exact Hg]].
    destruct H as [Hx | Hm].
    - unfold loop_body. cbn [to_visit crawl_init]. rewrite Hx, orb_true_r.
      split; reflexivity.
    - unfold loop_guard in Hg. cbn in Hg. apply Z.ltb_lt in Hg. lia. }
  destruct Hend as [Hpages Hguard].
  now rewrite (crawl_loop_iterate L W start_url h max_pages 1 _ Hguard).
Qed.

Lemma crawl_without_pages_witness :
  find_all_page_links shop_lib shop_web (str "https://a.com/#menu") 10 = [] /\
  find_all_page_links shop_lib shop_web shop_home 0 = [].
Proof.
  split; apply crawl_without_pages; [left; reflexivity | right; lia].
Defined.



(** ** The destination index: what it holds *)

Definition index_sound (idx : DestinationIndex) : Prop :=
  (forall k v, sku_to_slug idx !! k = Some v ->
               truthy k = true /\ v ∈ slug_set idx) /\
  (forall k v, barcode_to_slug idx !! k = Some v ->
               truthy k = true /\ v ∈ slug_set idx) /\
  (forall t s, In (t, s) (title_to_slug idx) ->
               truthy t = true /\ s ∈ slug_set idx).

Lemma index_barcodes_sound (L : Lib) (slug : pystr) (slugs : gset pystr)
    (bs : list pystr) : forall m : gmap pystr pystr,
  slug ∈ slugs ->
  (forall k v, m !! k = Some v -> truthy k = true /\ v ∈ slugs) ->
  forall k v, index_barcodes L slug bs m !! k = Some v ->
              truthy k = true /\ v ∈ slugs.
Proof.
  induction bs as [|b r IH]; intros m Hs Hm; [assumption|].
  cbn [index_barcodes].
  destruct (truthy (_normalize_sku L (Some b))) eqn:E; apply IH; try assumption.
  intros k v Hk. destruct (decide (_normalize_sku L (Some b) = k)) as [<-|Hne].
  - rewrite lookup_insert_eq in Hk. injection Hk as <-. tauto.
  - rewrite lookup_insert_ne in Hk by assumption. now apply Hm.
Qed.

Lemma index_row_sound L idx r : index_sound idx -> index_sound (index_row L idx r).
Proof.
  intros (Hs & Hb & Ht). unfold index_row, index_sound.
  cbn [sku_to_slug barcode_to_slug slug_set title_to_slug].
  set (slug := py_strip (row_slug r)).
  assert (Hin : slug ∈ {[slug]} ∪ slug_set idx).
  { apply elem_of_union. left. now apply elem_of_singleton. }
  assert (Hmono : forall v, v ∈ slug_set idx -> v ∈ {[slug]} ∪ slug_set idx).
  { intros v Hv. apply elem_of_union. now right. }
  split; [|split].
  - intros k v Hk.
    destruct (truthy (_normalize_sku L (Some (row_sku r)))) eqn:E.
    + destruct (decide (_normalize_sku L (Some (row_sku r)) = k)) as [<-|Hne].
      * rewrite lookup_insert_eq in Hk. injection Hk as <-. tauto.
      * rewrite lookup_insert_ne in Hk by assumption.
        destruct (Hs _ _ Hk). split; [assumption | now apply Hmono].
    + destruct (Hs _ _ Hk). split; [assumption | now apply Hmono].
  - assert (Hb' : forall k v, barcode_to_slug idx !! k = Some v ->
                              truthy k = true /\ v ∈ {[slug]} ∪ slug_set idx).
    { intros k v Hk. destruct (Hb _ _ Hk). split; [assumption | now apply Hmono]. }
    destruct (truthy (py_strip (row_barkod_listesi r))); [|exact Hb'].
    now apply index_barcodes_sound.
  - intros t s Hin'.
    destruct (truthy (_normalize_title L (Some (row_isim r)))) eqn:E.
    + apply in_app_or in Hin' as [Hin'|[Heq|[]]].
      * destruct (Ht _ _ Hin'). split; [assumption | now apply Hmono].
      * injection Heq as <- <-. tauto.
    + destruct (Ht _ _ Hin'). split; [assumption | now apply Hmono].
Qed.

(** X12. In the indexes built from an export no key and no normalised title is
    the empty string, and every slug that a SKU, a barcode or a title leads
    to is a slug of a row of the export. *)
Theorem build_index_sound (L : Lib) (ikas_csv : option (list IkasRow)) :
  (forall k v, sku_to_slug (build_index L ikas_csv) !! k = Some v ->
               truthy k = true /\ v ∈ slug_set (build_index L ikas_csv)) /\
  (forall k v, barcode_to_slug (build_index L ikas_csv) !! k = Some v ->
               truthy k = true /\ v ∈ slug_set (build_index L ikas_csv)) /\
  (forall t s, In (t, s) (title_to_slug (build_index L ikas_csv)) ->
               truthy t = true /\ s ∈ slug_set (build_index L ikas_csv)).
Proof.
  change (index_sound (build_index L ikas_csv)).
  assert (He : index_sound empty_index).
  { unfold index_sound. cbn. repeat split; try (now rewrite lookup_empty in H);
      try tauto. }
  destruct ikas_csv as [rows|]; [|exact He]. cbn [build_index].
  revert He. generalize empty_index.
  induction rows as [|r rows IH]; intros idx Hidx; [assumption|].
  cbn [fold_left]. apply IH. now apply index_row_sound.
Qed.

(** X13. When two rows of the export have the same normalised SKU the later row
    wins: after the last row its own SKU leads to its own slug, and every
    other SKU leads to what it led to before. *)
Theorem build_index_last_row_wins (L : Lib) (rows : list IkasRow) (r : IkasRow) :
  truthy (_normalize_sku L (Some (row_sku r))) = true ->
  sku_to_slug (build_index L (Some (rows ++ [r])))
    !! _normalize_sku L (Some (row_sku r)) = Some (py_strip (row_slug r)) /\
  forall k, k <> _normalize_sku L (Some (row_sku r)) ->
    sku_to_slug (build_index L (Some (rows ++ [r]))) !! k =
    sku_to_slug (build_index L (Some rows)) !! k.
Proof.
  intros Hk. cbn [build_index]. rewrite fold_left_app. cbn [fold_left].
  unfold index_row at 1 3. cbn [sku_to_slug]. rewrite Hk. split.
  - apply lookup_insert_eq.
  - intros k Hne. now rewrite lookup_insert_ne.
Qed.

Lemma build_index_last_row_wins_witness :
  sku_to_slug
    (build_index shoe_lib
       (Some (shoe_export ++
              [ {| row_slug := str " yeni-ayakkabi "; row_sku := str "ab-1";
                   row_barkod_listesi := []; row_isim := [] |} ])))
    !! str "AB-1" = Some (str "yeni-ayakkabi").
Proof.
  exact (proj1 (build_index_last_row_wins shoe_lib shoe_export
                  {| row_slug := str " yeni-ayakkabi "; row_sku := str "ab-1";
                     row_barkod_listesi := []; row_isim := [] |} eq_refl)).
Defined.

(** ** The matcher: pages that cannot be read, and the review list *)

(** X14. A product page whose second fetch fails is left unmatched: no SKU is
    recorded for it, its target path is empty, its confidence 0.0 and its
    reason "unmatched", whatever the export holds. *)
Theorem unfetched_product_unmatched (L : Lib) (W : Web) (ikas_site_url : pystr)
    (idx : DestinationIndex) (page : CrawlPage) :
  page_type page = str "product" ->
  opt_truthy (fetch_html W (page_url page)) = false ->
  r_sku (fst (redirect_page L W ikas_site_url idx page)) = [] /\
  r_to_url (fst (redirect_page L W ikas_site_url idx page)) = [] /\
  r_to_slug (fst (redirect_page L W ikas_site_url idx page)) = [] /\
  d_confidence (snd (redirect_page L W ikas_site_url idx page)) = 0%Q /\
  d_reason (snd (redirect_page L W ikas_site_url idx page)) = str "unmatched".
Proof.
  intros Ht Hf. unfold redirect_page. rewrite Ht.
  change (str_eqb (str "product") (str "product")) with true. cbv iota.
  assert (Hsb : fetch_sku_barcode L W (page_url page) = ([], [])).
  { unfold fetch_sku_barcode.
    destruct (fetch_html W (page_url page)) as [h|]; [|reflexivity].
    cbn in Hf. now rewrite Hf. }
  rewrite Hsb. cbn. repeat split.
Qed.

Lemma unfetched_product_unmatched_witness :
  d_reason (snd (redirect_page shoe_lib (table_web []) []
                   (build_index shoe_lib (Some shoe_export)) shoe_page))
  = str "unmatched".
Proof.
  apply (unfetched_product_unmatched shoe_lib (table_web []) []
           (build_index shoe_lib (Some shoe_export)) shoe_page eq_refl eq_refl).
Defined.

(** The row filter of the review list: a product entry whose confidence is
    below 0.8 or whose existence on the destination is not "ok". *)
Definition needs_review (d : Diagnostic) : bool :=
  str_eqb (d_type d) (str "product")
  && (negb (Qle_bool 0.8 (d_confidence d))
      || negb (str_eqb (d_exists_on_ikas d) (str "ok"))).

(** [low_df] *)
Definition low_df (diags : list Diagnostic) : list Diagnostic :=
  List.filter needs_review diags.

(** X15. The review list holds the entry of a page exactly when the page is a
    product page that is unmatched or whose target was not found on the
    destination; pages of other types are never listed.  Without a
    destination URL nothing is probed, and every product page is listed,
    the matched ones too. *)
Theorem review_list_entries (L : Lib) (W : Web) (ikas_site_url : pystr)
    (idx : DestinationIndex) (page : CrawlPage) :
  needs_review (snd (redirect_page L W ikas_site_url idx page)) =
  str_eqb (page_type page) (str "product")
  && (str_eqb (d_reason (snd (redirect_page L W ikas_site_url idx page)))
              (str "unmatched")
      || negb (str_eqb (d_exists_on_ikas
                          (snd (redirect_page L W ikas_site_url idx page)))
                       (str "ok"))) /\
  needs_review (snd (redirect_page L W [] idx page)) =
  str_eqb (page_type page) (str "product").
Proof.
  unfold needs_review, redirect_page.
  destruct (str_eqb (page_type page) (str "product")) eqn:Hp.
  - destruct (fetch_sku_barcode L W (page_url page)) as [sku barcode].
    unfold match_product.
    destruct (if truthy sku then _ else _);
      [|destruct (if truthy barcode then _ else _)];
      cbn [fst snd d_type d_confidence d_reason d_exists_on_ikas truthy];
      rewrite Hp; cbn [andb];
      (split; [|reflexivity]);
      (destruct (negb (str_eqb _ (str "ok"))); reflexivity).
  - repeat match goal with
           | |- context [if ?b then _ else _] =>
               lazymatch b with
               | truthy _ => fail
               | _ => destruct b
               end
           end;
      cbn [fst snd d_type d_confidence d_reason d_exists_on_ikas truthy];
      rewrite Hp; split; reflexivity.
Qed.

(** ** Structured data: which node, and its images *)

(** X16. The node that [parse_ld_json_product] reads: when some candidate has
    Product as its own type, the first such candidate, even when a [@graph]
    in front of it holds a product; otherwise the product of the last
    candidate whose [@graph] holds one; otherwise none. *)
Theorem product_node_selection (L : Lib) (candidates : list pydict) :
  select_product_node L None candidates =
  match List.find (own_product L) candidates with
  | Some node => Some node
  | None => last_graph_product L None candidates
  end /\
  (forall front node rest,
     candidates = front ++ node :: rest ->
     Forall (fun n => own_product L n = false) front ->
     own_product L node = true ->
     select_product_node L None candidates = Some node).
Proof.
  split; [apply select_product_node_spec|].
  intros front node rest -> Hfront Hnode. rewrite select_product_node_spec.
  assert (Hfind : List.find (own_product L) (front ++ node :: rest) = Some node).
  { induction Hfront as [|n front Hn _ IH]; cbn.
    - now rewrite Hnode.
    - now rewrite Hn. }
  now rewrite Hfind.
Qed.

Lemma product_node_selection_witness :
  select_product_node ld_lib None
    [[(str "@graph", JList [JDict product_A])]; product_B; product_A]
  = Some product_B.
Proof.
  apply (proj2 (product_node_selection ld_lib
                  [[(str "@graph", JList [JDict product_A])]; product_B; product_A])
               [[(str "@graph", JList [JDict product_A])]] product_B [product_A]).
  - reflexivity.
  - repeat constructor.
  - reflexivity.
Defined.

(** X17. The primary image of the extracted record is the first entry of its
    image list, and it is absent exactly when the list is. *)
Theorem ld_image_heads_images (L : Lib) (soup : Soup) (base_url : pystr) :
  ld_image (parse_ld_json_product L soup base_url) =
  match ld_images (parse_ld_json_product L soup base_url) with
  | Some (u :: _) => Some u
  | _ => None
  end /\
  ld_images (parse_ld_json_product L soup base_url) <> Some [].
Proof.
  unfold parse_ld_json_product.
  destruct (select_product_node L None (collect_candidates L soup)) as [[|kv node]|];
    try (split; [reflexivity | discriminate]).
  generalize (kv :: node). clear kv node. intros node.
  unfold product_of_node.
  destruct (match dict_get (str "image") node with
            | JList (i :: l) => _
            | JStr s => _
            | _ => _
            end) as [image_url image_list] eqn:Ei.
  destruct (match (match dict_get (str "offers") node with
                   | JList (o :: _) => o
                   | _ => dict_get (str "offers") node
                   end) with
            | JDict o => _
            | _ => _
            end) as [price_val currency].
  cbn [ld_image ld_images].
  destruct (dict_get (str "image") node) as [| b | q | s | [|i l] | d].
  all: cbv beta iota zeta in Ei.
  all: injection Ei as <- <-.
  all: try (split; [reflexivity | discriminate]).
  match goal with |- context [head ?x] => destruct x end; split;
    try reflexivity; discriminate.
Qed.

(** ** The fetcher

    [fetch_html] with the network as the outcome of each attempt: the
    requests it makes, what it returns and how long it sleeps. *)

(** What [session.get] does at one attempt: it raises, or it answers with a
    status, a Content-Type header (empty when absent) and a body. *)
Inductive Outcome :=
| Raised
| Responded (status_code : Z) (content_type : pystr) (text : pystr).

(** The test on the response. *)
Definition html_ok (o : Outcome) : bool :=
  match o with
  | Raised => false
  | Responded status_code content_type _ =>
      (200 <=? status_code)%Z && (status_code <? 400)%Z
      && contains (str "text/html") content_type
  end.

Record FetchRun := {
  fetched : option pystr;   (* the value returned *)
  requests : nat;           (* the calls of session.get *)
  slept : Q;                (* the sum of the arguments of time.sleep *)
}.

(** The [for] loop from [attempt] on, with [remaining] attempts to go. *)
Fixpoint fetch_loop (get : nat -> Outcome) (sleep_between : Q)
    (attempt remaining : nat) (run : FetchRun) : FetchRun :=
  match remaining with
  | O => run
  | S remaining' =>
      let again :=
        fetch_loop get sleep_between (S attempt) remaining'
          {| fetched := None; requests := S (requests run);
             slept := slept run + sleep_between * inject_Z (Z.of_nat attempt) |} in
      match get attempt with
      | Responded status_code content_type text =>
          if html_ok (Responded status_code content_type text)
          then {| fetched := Some text; requests := S (requests run);
                  slept := slept run |}
          else again
      | Raised => again
      end
  end.

(** [fetch_html(url, timeout, max_retries, sleep_between)]; [get] is what
    the attempts 1, 2, ... give for the URL. *)
Definition fetch_html_run (get : nat -> Outcome) (max_retries : Z)
    (sleep_between : Q) : FetchRun :=
  fetch_loop get sleep_between 1 (Z.to_nat max_retries)
    {| fetched := None; requests := 0; slept := 0 |}.

(** 1 + 2 + ... + n *)
Fixpoint triangle (n : nat) : nat :=
  match n with
  | O => O
  | S m => S m + triangle m
  end.

Lemma fetch_loop_spec get sleep_between remaining : forall attempt run,
  fetched run = None ->
  requests run = Nat.pred attempt ->
  (1 <= attempt)%nat ->
  slept run == sleep_between * inject_Z (Z.of_nat (triangle (Nat.pred attempt))) ->
  (forall k, (1 <= k < attempt)%nat -> html_ok (get k) = false) ->
  let r := fetch_loop get sleep_between attempt remaining run in
  (requests r <= Nat.pred attempt + remaining)%nat /\
  match fetched r with
  | None =>
      requests r = (Nat.pred attempt + remaining)%nat /\
      slept r == sleep_between * inject_Z (Z.of_nat (triangle (requests r))) /\
      forall k, (1 <= k <= requests r)%nat -> html_ok (get k) = false
  | Some text =>
      (1 <= requests r)%nat /\
      (exists status_code content_type,
         get (requests r) = Responded status_code content_type text) /\
      html_ok (get (requests r)) = true /\
      slept r == sleep_between
                 * inject_Z (Z.of_nat (triangle (Nat.pred (requests r)))) /\
      forall k, (1 <= k < requests r)%nat -> html_ok (get k) = false
  end.
Proof.
  induction remaining as [|remaining IH]; intros attempt run Hf Hr Ha Hs Hk.
  - cbn. rewrite Hf, Hr. split; [lia|]. split; [lia|]. split; [assumption|].
    intros k Hk'. apply Hk. lia.
  - cbn [fetch_loop].
    assert (Hagain :
      html_ok (get attempt) = false ->
      let r := fetch_loop get sleep_between (S attempt) remaining
                 {| fetched := None; requests := S (requests run);
                    slept := slept run
                             + sleep_between * inject_Z (Z.of_nat attempt) |} in
      (requests r <= Nat.pred attempt + S remaining)%nat /\
      match fetched r with
      | None =>
          requests r = (Nat.pred attempt + S remaining)%nat /\
          slept r == sleep_between * inject_Z (Z.of_nat (triangle (requests r))) /\
          forall k, (1 <= k <= requests r)%nat -> html_ok (get k) = false
      | Some text =>
          (1 <= requests r)%nat /\
          (exists status_code content_type,
             get (requests r) = Responded status_code content_type text) /\
          html_ok (get (requests r)) = true /\
          slept r == sleep_between
                     * inject_Z (Z.of_nat (triangle (Nat.pred (requests r)))) /\
          forall k, (1 <= k < requests r)%nat -> html_ok (get k) = false
      end).
    { intros Hbad.
      assert (Hnext : (Nat.pred (S attempt) + remaining
                       = Nat.pred attempt + S remaining)%nat) by lia.
      rewrite <- Hnext. apply IH; cbn [fetched requests slept].
      - reflexivity.
      - lia.
      - lia.
      - rewrite Hs. cbn [Nat.pred].
        destruct attempt as [|a]; [lia|]. cbn [Nat.pred triangle].
        rewrite Nat2Z.inj_add, inject_Z_plus. ring.
      - intros k Hk'. destruct (Nat.eq_dec k attempt) as [->|Hne];
          [assumption | apply Hk; lia]. }
    destruct (get attempt) as [|status_code content_type text] eqn:Hget;
      [now apply Hagain|].
    destruct (html_ok (Responded status_code content_type text)) eqn:Hok;
      [|now apply Hagain].
    cbn [fetched requests slept]. rewrite Hr.
    assert (Hsucc : S (Nat.pred attempt) = attempt) by lia. rewrite Hsucc.
    split; [lia|]. split; [lia|]. split; [eauto|]. rewrite Hget.
    split; [assumption|]. split; [assumption|]. assumption.
Qed.

(** X18. [fetch_html] makes at most [max_retries] requests.  It returns the body
    of the first attempt whose status is in [200, 400) and whose Content-Type
    names text/html, after pauses that grow by [sleep_between] with each
    failed attempt; and it returns nothing only after [max_retries] failed
    attempts, having slept [sleep_between] times 1 + 2 + ... + max_retries. *)
Theorem fetch_html_retries (get : nat -> Outcome) (max_retries : Z)
    (sleep_between : Q) :
  (requests (fetch_html_run get max_retries sleep_between)
   <= Z.to_nat max_retries)%nat /\
  match fetched (fetch_html_run get max_retries sleep_between) with
  | None =>
      requests (fetch_html_run get max_retries sleep_between)
      = Z.to_nat max_retries /\
      slept (fetch_html_run get max_retries sleep_between)
      == sleep_between * inject_Z (Z.of_nat (triangle (Z.to_nat max_retries))) /\
      forall k, (1 <= k <= Z.to_nat max_retries)%nat -> html_ok (get k) = false
  | Some text =>
      (1 <= requests (fetch_html_run get max_retries sleep_between))%nat /\
      (exists status_code content_type,
         get (requests (fetch_html_run get max_retries sleep_between))
         = Responded status_code content_type text) /\
      html_ok (get (requests (fetch_html_run get max_retries sleep_between))) = true /\
      slept (fetch_html_run get max_retries sleep_between)
      == sleep_between
         * inject_Z (Z.of_nat (triangle
              (Nat.pred (requests (fetch_html_run get max_retries sleep_between))))) /\
      forall k,
        (1 <= k < requests (fetch_html_run get max_retries sleep_between))%nat ->
        html_ok (get k) = false
  end.
Proof.
  unfold fetch_html_run.
  pose proof (fetch_loop_spec get sleep_between (Z.to_nat max_retries) 1
                {| fetched := None; requests := 0; slept := 0 |}
                eq_refl eq_refl (le_n 1)) as H.
  cbn [Nat.pred Nat.add] in H. cbv zeta in H.
  destruct H as [Hle H].
  - cbn. ring.
  - intros k Hk. lia.
  - split; [exact Hle|].
    destruct (fetched _) as [text|].
    + exact H.
    + destruct H as (Hreq & Hs & Hk). split; [assumption|]. split.
      * now rewrite Hreq in Hs.
      * intros k Hk'. apply Hk. lia.
Qed.

(** ** Image extraction *)

(** An element: its name and its attributes. *)
Record Tag := {
  tag_name : pystr;
  tag_attrs : list (pystr * pystr);
}.

(** [el.get(key)] *)
Definition tag_get (el : Tag) (key : pystr) : option pystr :=
  table_get key (tag_attrs el).

(** The document, as the element queries of the image extractors. *)
Record Dom := {
  select : pystr -> list Tag;                (* soup.select(selector) *)
  find_meta_property : pystr -> option Tag;  (* soup.find("meta", property=p) *)
  find_meta_name : pystr -> option Tag;      (* soup.find("meta", attrs={"name": n}) *)
  find_all_img : list Tag;                   (* soup.find_all("img") *)
}.

(** [soup.select_one(selector)]: the first element that [select] gives. *)
Definition select_one (soup : Dom) (selector : pystr) : option Tag :=
  List.hd_error (select soup selector).

(** [xs[0]] of the list that [split] returns. *)
Definition first_field (xs : list pystr) : pystr := List.hd [] xs.

(** The loop over the four attributes of [_extract_img_src]. *)
Fixpoint first_attr (img : Tag) (keys : list pystr) : option pystr :=
  match keys with
  | [] => None
  | key :: r =>
      if opt_truthy (tag_get img key) then tag_get img key
      else first_attr img r
  end.

Definition img_src_keys : list pystr :=
  map str ["data-zoom-image"; "data-large"; "data-src"; "src"]%string.

Definition _extract_img_src (img : Tag) : option pystr :=
  match first_attr img img_src_keys with
  | Some val => Some val
  | None =>
      let srcset := tag_get img (str "srcset") in
      if opt_truthy srcset then
        let first :=
          first_field
            (split_char 32
               (py_strip (first_field (split_char comma (opt_or_empty srcset))))) in
        if truthy first then Some first else None
      else None
  end.

(** [list(dict.fromkeys(urls))]: the keys of the dict, in insertion order,
    after the URLs that are left are inserted. *)
Fixpoint dict_fromkeys (keys : list pystr) (urls : list pystr) : list pystr :=
  match urls with
  | [] => keys
  | u :: r => dict_fromkeys (if in_list u keys then keys else keys ++ [u]) r
  end.

Definition gallery_selectors : list pystr :=
  map str
    [ ".product-images img"; ".product-gallery img"; ".gallery img";
      "#productImages img"; ".swiper .swiper-slide img";
      ".product-detail .swiper img"; "img[data-zoom-image]";
      "img[itemprop='image']" ]%string.

(** The URLs of the images that one selector gives. *)
Definition selector_urls (L : Lib) (soup : Dom) (base_url sel : pystr)
    : list pystr :=
  flat_map (fun img =>
              match _extract_img_src img with
              | Some src => if truthy src then [_absolute_url L base_url src] else []
              | None => []
              end)
           (select soup sel).

Definition find_all_image_urls (L : Lib) (soup : Dom) (base_url : pystr)
    (ld : option JsonLdProduct) : list pystr :=
  match (match ld with Some ld => ld_images ld | None => None end) with
  | Some (u :: us) =>
      dict_fromkeys [] (map (_absolute_url L base_url) (u :: us))
  | _ =>
      let urls := flat_map (selector_urls L soup base_url) gallery_selectors in
      let meta := find_meta_property soup (str "og:image") in
      let urls :=
        match meta with
        | Some meta =>
            if opt_truthy (tag_get meta (str "content"))
            then urls ++ [_absolute_url L base_url
                            (opt_or_empty (tag_get meta (str "content")))]
            else urls
        | None => urls
        end in
      dict_fromkeys [] urls
  end.

Lemma first_attr_truthy img keys v :
  first_attr img keys = Some v -> truthy v = true.
Proof.
  induction keys as [|key r IH]; [discriminate|]. cbn [first_attr].
  destruct (opt_truthy (tag_get img key)) eqn:E; [|assumption].
  intros H. rewrite H in E. exact E.
Qed.

(** X19. The source of an image is never the empty string; a zoom attribute that
    is not empty is preferred to every other attribute; and [srcset] is read
    only when the four attributes are all absent or empty. *)
Theorem _extract_img_src_priority (img : Tag) :
  (forall v, _extract_img_src img = Some v -> truthy v = true) /\
  (forall v, tag_get img (str "data-zoom-image") = Some v -> truthy v = true ->
             _extract_img_src img = Some v) /\
  (forall v, first_attr img img_src_keys = Some v -> _extract_img_src img = Some v).
Proof.
  unfold _extract_img_src. split; [|split].
  - intros v. destruct (first_attr img img_src_keys) as [val|] eqn:E.
    + intros [= <-]. now apply first_attr_truthy in E.
    + cbv zeta. destruct (opt_truthy (tag_get img (str "srcset"))); [|discriminate].
      destruct (truthy (first_field _)) eqn:Ef; [|discriminate].
      now intros [= <-].
  - intros v Hz Hv. cbn [img_src_keys map first_attr].
    rewrite Hz. cbn [opt_truthy]. now rewrite Hv.
  - intros v ->. reflexivity.
Qed.

Lemma dict_fromkeys_spec urls : forall keys,
  NoDup keys ->
  NoDup (dict_fromkeys keys urls) /\
  (forall u, u ∈ dict_fromkeys keys urls <-> u ∈ keys \/ u ∈ urls) /\
  exists more, dict_fromkeys keys urls = keys ++ more.
Proof.
  induction urls as [|x r IH]; intros keys Hk.
  - cbn. split; [assumption|]. split.
    + intros u. split; [tauto|]. intros [H|H]; [assumption | inversion H].
    + exists []. now rewrite app_nil_r.
  - cbn [dict_fromkeys]. unfold in_list.
    destruct (bool_decide (x ∈ keys)) eqn:E.
    + apply bool_decide_eq_true in E.
      destruct (IH keys Hk) as (Hnd & Hin & more & Hm).
      split; [assumption|]. split; [|now exists more].
      intros u. rewrite Hin. split.
      * intros [H|H]; [now left | right; now right].
      * intros [H|H]; [now left|].
        apply elem_of_cons in H as [->|H]; [now left | now right].
    + apply bool_decide_eq_false in E.
      assert (Hk' : NoDup (keys ++ [x])).
      { apply NoDup_app. split; [assumption|]. split; [|apply NoDup_singleton].
        intros u Hu Hx. apply list_elem_of_singleton in Hx. now subst. }
      destruct (IH _ Hk') as (Hnd & Hin & more & Hm).
      split; [assumption|]. split.
      * intros u. rewrite Hin. rewrite elem_of_app, list_elem_of_singleton.
        rewrite elem_of_cons. tauto.
      * exists (x :: more). rewrite Hm, <- app_assoc. reflexivity.
Qed.

(** X20. The image list of a product never holds a URL twice, whether it comes
    from the structured data or from the gallery selectors. *)
Theorem find_all_image_urls_nodup (L : Lib) (soup : Dom) (base_url : pystr)
    (ld : option JsonLdProduct) :
  NoDup (find_all_image_urls L soup base_url ld) /\
  (forall us, match ld with Some ld => ld_images ld | None => None end = Some us ->
     us <> [] ->
     forall u, u ∈ find_all_image_urls L soup base_url ld <->
               u ∈ map (_absolute_url L base_url) us).
Proof.
  unfold find_all_image_urls. split.
  - destruct (match ld with Some ld0 => ld_images ld0 | None => None end)
      as [[|u us]|]; apply dict_fromkeys_spec; constructor.
  - intros us -> Hne u. destruct us as [|x xs]; [congruence|].
    destruct (dict_fromkeys_spec (map (_absolute_url L base_url) (x :: xs)) [])
      as (_ & Hin & _); [constructor|].
    rewrite Hin. split; [|tauto]. intros [H|H]; [inversion H | assumption].
Qed.

Definition main_image_selectors : list pystr :=
  map str
    [ "#productImage"; ".product-image img"; ".gallery img";
      "img[itemprop='image']"; ".swiper .swiper-slide img";
      "#productImages img"; ".product-detail .swiper img" ]%string.

(** The loop over the selectors of [find_main_image_url]. *)
Fixpoint first_selected_src (soup : Dom) (sels : list pystr) : option pystr :=
  match sels with
  | [] => None
  | sel :: r =>
      match select_one soup sel with
      | Some img =>
          if opt_truthy (_extract_img_src img) then _extract_img_src img
          else first_selected_src soup r
      | None => first_selected_src soup r
      end
  end.

(** [int(img.get("width") or 0)], 0 when [int] raises; [py_int] is [int] on
    a string, [None] where it raises. *)
Definition img_width (py_int : pystr -> option Z) (img : Tag) : Z :=
  if opt_truthy (tag_get img (str "width")) then
    match py_int (opt_or_empty (tag_get img (str "width"))) with
    | Some w => w
    | None => 0%Z
    end
  else 0%Z.

(** The loop over all images, with [best_url] and [best_w]. *)
Fixpoint widest_img (py_int : pystr -> option Z) (imgs : list Tag)
    (best_url : option pystr) (best_w : Z) : option pystr * Z :=
  match imgs with
  | [] => (best_url, best_w)
  | img :: r =>
      let src := opt_or_empty (_extract_img_src img) in
      if negb (truthy src) then widest_img py_int r best_url best_w else
      let w := img_width py_int img in
      if (best_w <? w)%Z then widest_img py_int r (Some src) w
      else widest_img py_int r best_url best_w
  end.

Definition find_main_image_url (L : Lib) (py_int : pystr -> option Z)
    (soup : Dom) (base_url : pystr) (ld : option JsonLdProduct)
    : option pystr :=
  let ld_img := match ld with Some ld => ld_image ld | None => None end in
  if opt_truthy ld_img then Some (_absolute_url L base_url (opt_or_empty ld_img))
  else
    let meta :=
      match find_meta_property soup (str "og:image") with
      | Some m => Some m
      | None => find_meta_name soup (str "og:image")
      end in
    let content :=
      match meta with Some m => tag_get m (str "content") | None => None end in
    if opt_truthy content
    then Some (_absolute_url L base_url (opt_or_empty content))
    else
      match first_selected_src soup main_image_selectors with
      | Some src => Some (_absolute_url L base_url src)
      | None =>
          let best_url := fst (widest_img py_int (find_all_img soup) None 0%Z) in
          if opt_truthy best_url
          then Some (_absolute_url L base_url (opt_or_empty best_url))
          else None
      end.

Lemma widest_img_spec py_int imgs : forall best_url best_w,
  (0 <= best_w)%Z ->
  (0 <= snd (widest_img py_int imgs best_url best_w))%Z /\
  (best_w <= snd (widest_img py_int imgs best_url best_w))%Z /\
  (forall img, In img imgs -> opt_truthy (_extract_img_src img) = true ->
     (img_width py_int img <= snd (widest_img py_int imgs best_url best_w))%Z) /\
  (fst (widest_img py_int imgs best_url best_w) = best_url /\
   snd (widest_img py_int imgs best_url best_w) = best_w
   \/
   exists img, In img imgs /\
     _extract_img_src img = fst (widest_img py_int imgs best_url best_w) /\
     opt_truthy (_extract_img_src img) = true /\
     img_width py_int img = snd (widest_img py_int imgs best_url best_w) /\
     (best_w < img_width py_int img)%Z).
Proof.
  induction imgs as [|img r IH]; intros best_url best_w Hw.
  - cbn. split; [lia|]. split; [lia|]. split; [intros img []|]. now left.
  - cbn [widest_img]. cbv zeta.
    assert (Htr : truthy (opt_or_empty (_extract_img_src img))
                  = opt_truthy (_extract_img_src img))
      by now destruct (_extract_img_src img).
    rewrite Htr.
    destruct (opt_truthy (_extract_img_src img)) eqn:Es; cbn [negb].
    + destruct (best_w <? img_width py_int img)%Z eqn:Ew.
      * apply Z.ltb_lt in Ew.
        assert (H0 : (0 <= img_width py_int img)%Z) by lia.
        destruct (IH (Some (opt_or_empty (_extract_img_src img)))
                    (img_width py_int img) H0) as (H1 & H2 & H3 & H4).
        split; [assumption|]. split; [lia|]. split.
        { intros i [<-|Hin] Hi; [assumption | now apply H3]. }
        right. destruct H4 as [[Hf Hs] | (i & Hin & Hsrc & Hi & Hwi & Hlt)].
        -- exists img. split; [now left|]. rewrite Hf, Hs.
           split; [now destruct (_extract_img_src img)|]. tauto.
        -- exists i. split; [now right|]. repeat split; try assumption. lia.
      * apply Z.ltb_ge in Ew.
        destruct (IH best_url best_w Hw) as (H1 & H2 & H3 & H4).
        split; [assumption|]. split; [assumption|]. split.
        { intros i [<-|Hin] Hi; [lia | now apply H3]. }
        destruct H4 as [H4 | (i & Hin & H4)]; [now left|].
        right. exists i. split; [now right | assumption].
    + destruct (IH best_url best_w Hw) as (H1 & H2 & H3 & H4).
      split; [assumption|]. split; [assumption|]. split.
      { intros i [<-|Hin] Hi; [congruence | now apply H3]. }
      destruct H4 as [H4 | (i & Hin & H4)]; [now left|].
      right. exists i. split; [now right | assumption].
Qed.

(** X21. The main image: the image of the structured data wins when there is
    one; and the last resort, the widest image of the page, is an image
    whose [width] attribute is a positive number and at least the width of
    every other image with a source: an image without a positive width is
    never chosen there. *)
Theorem find_main_image_url_widest (L : Lib) (py_int : pystr -> option Z)
    (soup : Dom) (base_url : pystr) :
  (forall ld u, ld_image ld = Some u -> truthy u = true ->
     find_main_image_url L py_int soup base_url (Some ld)
     = Some (_absolute_url L base_url u)) /\
  match fst (widest_img py_int (find_all_img soup) None 0%Z) with
  | Some src =>
      exists img, In img (find_all_img soup) /\
        _extract_img_src img = Some src /\
        (0 < img_width py_int img)%Z /\
        forall other, In other (find_all_img soup) ->
          opt_truthy (_extract_img_src other) = true ->
          (img_width py_int other <= img_width py_int img)%Z
  | None =>
      forall img, In img (find_all_img soup) ->
        opt_truthy (_extract_img_src img) = true ->
        (img_width py_int img <= 0)%Z
  end.
Proof.
  split.
  - intros ld u Hu Ht. unfold find_main_image_url. cbv zeta. rewrite Hu.
    cbn [opt_truthy opt_or_empty]. now rewrite Ht.
  - destruct (widest_img_spec py_int (find_all_img soup) None 0%Z (Z.le_refl 0))
      as (H1 & H2 & H3 & H4).
    destruct H4 as [[Hf Hs] | (img & Hin & Hsrc & Hi & Hwi & Hlt)].
    + rewrite Hf. intros img Hin Hi. rewrite <- Hs. now apply H3.
    + destruct (fst (widest_img py_int (find_all_img soup) None 0%Z)) as [src|].
      * exists img. split; [assumption|]. split; [assumption|]. split; [lia|].
        intros other Ho Hot. rewrite Hwi. now apply H3.
      * rewrite Hsrc in Hi. discriminate.
Qed.

(** ** The address columns of the redirect file *)

Definition slash_or_empty (s : pystr) : Prop :=
  s = [] \/ startswith (str "/") s = true.

Lemma yon_slash v : slash_or_empty (yon v).
Proof.
  unfold yon, slash_or_empty. destruct v as [|c r]; [now left|].
  cbn [truthy andb]. destruct (startswith (str "/") (c :: r)) eqn:E; cbn [negb].
  - now right.
  - right. cbn. now rewrite N.eqb_refl.
Qed.

Lemma kaynak_slash L v p : slash_or_empty (kaynak L v p).
Proof.
  unfold kaynak. cbv zeta.
  destruct (truthy (if truthy p then url_path L p else [])) eqn:Ep.
  - destruct (startswith (str "/") _) eqn:E; [now right|].
    right. cbn. now rewrite N.eqb_refl.
  - apply yon_slash.
Qed.

(** X22. Every cell of the two address columns of the redirect file is empty or
    starts with a slash, whatever the URLs and slugs of the rows are. *)
Theorem ikas301_leading_slash (L : Lib) (redirects : list RedirectRow) :
  length (ikas301 L redirects) = length redirects /\
  Forall (fun row => slash_or_empty (Kaynak_Adres row) /\
                     slash_or_empty (Yonlendirilecek_Adres row))
         (ikas301 L redirects).
Proof.
  unfold ikas301. split; [apply length_map|].
  apply List.Forall_map, List.Forall_forall. intros r _. cbn.
  split; [apply kaynak_slash | apply yon_slash].
Qed.
